(** * galzu-lead-finder: lead normalisation, merge, scoring and website audit

    A shallow embedding of [app/db.py], [app/scoring.py] and [app/audit.py],
    followed by the properties of the pipeline.

    Conventions of the embedding.
    - A Python [str] is a [string]; each character is read as a code point
      below 256 (Latin-1), which fixes [str.lower], [str.isspace] and the
      regular-expression classes used by the code.
    - A Python [dict] read with [.get] is a [gmap string _]; the items of an
      input dict are a list of pairs in insertion order.
    - A Python [set] used for membership is a [gset].
    - Code that may raise returns an [outcome].
    - Library functions whose result the code only passes on ([float()],
      [json.dumps], [json.loads], UTF-8 decoding, the netloc validation of
      [urllib]) are variables of the sections that use them. *)

From Stdlib Require Import ZArith NArith List Ascii Bool Lia Sorted.
From Stdlib Require String DecimalString.
From stdpp Require Import gmap strings.

Local Open Scope Z_scope.

(* ===================================================================== *)
(** * Part I: definitions *)
(* ===================================================================== *)

(** ** Python strings *)

Module PyStr.

Definition code (c : ascii) : N := N_of_ascii c.

Definition in_range (lo hi : N) (c : ascii) : bool :=
  ((lo <=? code c) && (code c <=? hi))%N.

Definition is_char (a c : ascii) : bool := Ascii.eqb a c.

Definition one_of (cs : string) (c : ascii) : bool :=
  existsb (is_char c) (String.list_ascii_of_string cs).

(** [str.isspace] on code points below 256. *)
Definition is_space (c : ascii) : bool :=
  in_range 9 13 c || in_range 28 32 c
  || (code c =? 133)%N || (code c =? 160)%N.

Definition is_upper (c : ascii) : bool :=
  in_range 65 90 c || (in_range 192 222 c && negb (code c =? 215)%N).

Definition is_ascii_lower (c : ascii) : bool := in_range 97 122 c.
Definition is_ascii_upper (c : ascii) : bool := in_range 65 90 c.
Definition is_ascii_digit (c : ascii) : bool := in_range 48 57 c.
Definition is_ascii_alpha (c : ascii) : bool :=
  is_ascii_lower c || is_ascii_upper c.
Definition is_ascii_alnum (c : ascii) : bool :=
  is_ascii_alpha c || is_ascii_digit c.

(** The class [\w] of [re] on [str] patterns: [str.isalnum] or underscore. *)
Definition is_word (c : ascii) : bool :=
  is_ascii_alnum c || is_char "_" c
  || (code c =? 170)%N || (code c =? 178)%N || (code c =? 179)%N
  || (code c =? 181)%N || (code c =? 185)%N || (code c =? 186)%N
  || in_range 188 190 c
  || in_range 192 214 c || in_range 216 246 c || in_range 248 255 c.

Definition lower_char (c : ascii) : ascii :=
  if is_upper c then ascii_of_N (code c + 32) else c.

Fixpoint map_chars (f : ascii -> ascii) (s : string) : string :=
  match s with
  | EmptyString => EmptyString
  | String c s' => String (f c) (map_chars f s')
  end.

(** [s.lower()] *)
Definition lower (s : string) : string := map_chars lower_char s.

Definition is_empty (s : string) : bool :=
  match s with EmptyString => true | _ => false end.

Definition len (s : string) : Z := Z.of_nat (String.length s).

Fixpoint drop (n : nat) (s : string) : string :=
  match n, s with
  | O, _ => s
  | S n', String _ s' => drop n' s'
  | S _, EmptyString => EmptyString
  end.

Fixpoint take (n : nat) (s : string) : string :=
  match n, s with
  | S n', String c s' => String c (take n' s')
  | _, _ => EmptyString
  end.

(** [s[:n]] for an integer [n] of either sign. *)
Definition slice_to (n : Z) (s : string) : string :=
  if 0 <=? n then take (Z.to_nat n) s
  else take (Z.to_nat (len s + n)) s.

Fixpoint drop_while (p : ascii -> bool) (s : string) : string :=
  match s with
  | EmptyString => EmptyString
  | String c s' => if p c then drop_while p s' else s
  end.

Fixpoint take_while (p : ascii -> bool) (s : string) : string :=
  match s with
  | EmptyString => EmptyString
  | String c s' => if p c then String c (take_while p s') else EmptyString
  end.

Definition lstrip_by (p : ascii -> bool) (s : string) : string :=
  drop_while p s.

Fixpoint rstrip_by (p : ascii -> bool) (s : string) : string :=
  match s with
  | EmptyString => EmptyString
  | String c s' =>
      let r := rstrip_by p s' in
      if is_empty r && p c then EmptyString else String c r
  end.

Definition strip_by (p : ascii -> bool) (s : string) : string :=
  rstrip_by p (lstrip_by p s).

(** [s.strip()], [s.strip(cs)] and [s.lstrip(cs)] *)
Definition strip (s : string) : string := strip_by is_space s.
Definition strip_chars (cs s : string) : string := strip_by (one_of cs) s.
Definition lstrip_chars (cs s : string) : string := lstrip_by (one_of cs) s.

(** [s.startswith(p)] *)
Fixpoint starts_with (p s : string) : bool :=
  match p, s with
  | EmptyString, _ => true
  | String a p', String b s' => Ascii.eqb a b && starts_with p' s'
  | String _ _, EmptyString => false
  end.

(** [p in s] *)
Fixpoint contains (p s : string) : bool :=
  starts_with p s
  || match s with
     | EmptyString => false
     | String _ s' => contains p s'
     end.

(** [s.endswith(p)] *)
Definition ends_with (p s : string) : bool :=
  (String.length p <=? String.length s)%nat
  && String.eqb (drop (String.length s - String.length p) s) p.

(** [s.split(sep, 1)] for a non-empty [sep]: [None] is the one-element
    list [[s]], [Some (a, b)] the two-element list [[a, b]]. *)
Fixpoint split_once (sep s : string) : option (string * string) :=
  if starts_with sep s then Some (EmptyString, drop (String.length sep) s)
  else match s with
       | EmptyString => None
       | String c s' =>
           match split_once sep s' with
           | Some (a, b) => Some (String c a, b)
           | None => None
           end
       end.

(** [s.split(sep, 1)[0]] *)
Definition split_head (sep s : string) : string :=
  match split_once sep s with
  | Some (a, _) => a
  | None => s
  end.

(** [sep.join(l)] *)
Fixpoint join (sep : string) (l : list string) : string :=
  match l with
  | [] => EmptyString
  | [x] => x
  | x :: rest => x +:+ sep +:+ join sep rest
  end.

(** [str(n)] for an integer. *)
Definition of_Z (z : Z) : string :=
  DecimalString.NilZero.string_of_int (Z.to_int z).

(** [re.findall] of a pattern [[class]+]: the maximal runs of characters
    of the class, from left to right. *)
Fixpoint runs_from (p : ascii -> bool) (cur : string) (s : string)
  : list string :=
  match s with
  | EmptyString => if is_empty cur then [] else [cur]
  | String c s' =>
      if p c then runs_from p (cur +:+ String c EmptyString) s'
      else if is_empty cur then runs_from p EmptyString s'
      else cur :: runs_from p EmptyString s'
  end.

Definition runs (p : ascii -> bool) (s : string) : list string :=
  runs_from p EmptyString s.

End PyStr.

(** ** Regular expressions

    The patterns of the code are matched with Brzozowski derivatives.
    [search] is [bool(re.search(r, s))] and [match_start] is
    [bool(re.match(r, s))]. *)

Module Regex.

Inductive regex : Type :=
| Void : regex
| Eps : regex
| Cls : (ascii -> bool) -> regex
| Cat : regex -> regex -> regex
| Alt : regex -> regex -> regex
| Star : regex -> regex.

Fixpoint nullable (r : regex) : bool :=
  match r with
  | Void => false
  | Eps => true
  | Cls _ => false
  | Cat a b => nullable a && nullable b
  | Alt a b => nullable a || nullable b
  | Star _ => true
  end.

Fixpoint deriv (c : ascii) (r : regex) : regex :=
  match r with
  | Void => Void
  | Eps => Void
  | Cls p => if p c then Eps else Void
  | Cat a b =>
      if nullable a then Alt (Cat (deriv c a) b) (deriv c b)
      else Cat (deriv c a) b
  | Alt a b => Alt (deriv c a) (deriv c b)
  | Star a => Cat (deriv c a) (Star a)
  end.

(** No string matches [r]; used to stop a scan early. *)
Fixpoint is_void (r : regex) : bool :=
  match r with
  | Void => true
  | Eps => false
  | Cls _ => false
  | Cat a b => is_void a || is_void b
  | Alt a b => is_void a && is_void b
  | Star _ => false
  end.

(** Some prefix of [s] matches [r]. *)
Fixpoint match_prefix (r : regex) (s : string) : bool :=
  nullable r
  || match s with
     | EmptyString => false
     | String c s' =>
         let d := deriv c r in
         if is_void d then false else match_prefix d s'
     end.

Definition match_start (r : regex) (s : string) : bool := match_prefix r s.

Fixpoint search (r : regex) (s : string) : bool :=
  match_prefix r s
  || match s with
     | EmptyString => false
     | String _ s' => search r s'
     end.

(** Pattern combinators. *)
Definition chr (a : ascii) : regex := Cls (PyStr.is_char a).

Fixpoint lit (s : string) : regex :=
  match s with
  | EmptyString => Eps
  | String c s' => Cat (chr c) (lit s')
  end.

Definition plus (r : regex) : regex := Cat r (Star r).

Fixpoint at_least (n : nat) (r : regex) : regex :=
  match n with
  | O => Star r
  | S n' => Cat r (at_least n' r)
  end.

Definition not_char (a : ascii) : regex :=
  Cls (fun c => negb (PyStr.is_char a c)).

Definition space : regex := Cls PyStr.is_space.

End Regex.

(** ** Python values and exceptions *)

Module Py.

Inductive exn : Type :=
| AttributeError
| TypeError
| ValueError
| OverflowError
| IndexError
| IntegrityError
| InterfaceError.

Inductive outcome (A : Type) : Type :=
| Ok : A -> outcome A
| Raise : exn -> outcome A.
Arguments Ok {A} _.
Arguments Raise {A} _.

Definition bind {A B : Type} (m : outcome A) (k : A -> outcome B)
  : outcome B :=
  match m with
  | Ok a => k a
  | Raise e => Raise e
  end.

(** [try: ... except Exception: <handler>] *)
Definition catch {A : Type} (m : outcome A) (handler : A) : A :=
  match m with
  | Ok a => a
  | Raise _ => handler
  end.

Fixpoint mapM {A B : Type} (f : A -> outcome B) (l : list A)
  : outcome (list B) :=
  match l with
  | [] => Ok []
  | x :: rest =>
      bind (f x) (fun y => bind (mapM f rest) (fun ys => Ok (y :: ys)))
  end.

(** A float is known by what the code observes of it: its truth value,
    its [str()] and the text SQLite stores for it in a TEXT column. *)
Record pyfloat : Type := {
  float_truth : bool;
  float_str : string;
  float_sqltext : string
}.

(** The scalar values a row can hold. *)
Inductive scalar : Type :=
| PNone : scalar
| PBool : bool -> scalar
| PInt : Z -> scalar
| PFloat : pyfloat -> scalar
| PStr : string -> scalar.

(** The values of a JSON payload. *)
#[warnings="-register-all"]
Inductive pyobj : Type :=
| Scalar : scalar -> pyobj
| PList : list pyobj -> pyobj
| PDict : list (string * pyobj) -> pyobj.

(** [bool(v)] *)
Definition truthy (v : scalar) : bool :=
  match v with
  | PNone => false
  | PBool b => b
  | PInt z => negb (z =? 0)
  | PFloat f => float_truth f
  | PStr s => negb (PyStr.is_empty s)
  end.

Definition obj_truthy (v : pyobj) : bool :=
  match v with
  | Scalar s => truthy s
  | PList l => match l with [] => false | _ => true end
  | PDict l => match l with [] => false | _ => true end
  end.

(** [a or b] *)
Definition py_or (a b : scalar) : scalar := if truthy a then a else b.

(** [str(v)] *)
Definition py_str (v : scalar) : string :=
  match v with
  | PNone => "None"
  | PBool true => "True"
  | PBool false => "False"
  | PInt z => PyStr.of_Z z
  | PFloat f => float_str f
  | PStr s => s
  end.

(** [v.strip()]: only a [str] has the method. *)
Definition method_strip (v : scalar) : outcome string :=
  match v with
  | PStr s => Ok (PyStr.strip s)
  | _ => Raise AttributeError
  end.

(** [d.get(k)] *)
Definition dict_get (d : gmap string scalar) (k : string) : scalar :=
  default PNone (d !! k).

End Py.

Notation "'let!' x ':=' m 'in' k" := (Py.bind m (fun x => k))
  (at level 10, x name, m at level 100, k at level 200).

(** ** app/scoring.py *)

Module Scoring.
Import Py.

(** One [score += pts; reasons.append(code)] of the code. *)
Definition entry : Type := Z * string.

Inductive website_state : Type := ws_none | ws_weak | ws_strong.

Definition token_char (c : ascii) : bool :=
  PyStr.is_ascii_lower c || PyStr.is_ascii_digit c
  || PyStr.one_of "@#.-+" c.

(** [re.findall(r"[a-z0-9@#\.\-\+]+", (text or "").lower())] *)
Definition _tokenize (text : string) : list string :=
  PyStr.runs token_char (PyStr.lower text).

Definition booking_phrases : list string :=
  [ "taking new clients"; "available this week"; "dm to book";
    "dm to schedule"; "book a job"; "book now"; "free quote";
    "get a quote"; "estimate"; "same day"; "next day"; "emergency";
    "call"; "whatsapp"; "text me"; "message me"; "appointment";
    "booking" ].

Definition pain_phrases : list string :=
  [ "lost leads"; "missing leads"; "missed calls"; "too many dms";
    "need more calls"; "need more leads"; "need more bookings";
    "need a website"; "my website is old"; "website is outdated";
    "link in bio" ].

Definition service_tokens : list (string * Z) :=
  [ ("electrician", 32); ("electrical", 22); ("plumber", 32);
    ("plumbing", 22); ("handyman", 32); ("handy-man", 32);
    ("carpenter", 30); ("carpentry", 20); ("gardener", 30);
    ("gardening", 20); ("painter", 18); ("installer", 16); ("hvac", 18);
    ("roofing", 14); ("contractor", 12); ("landscaper", 16);
    ("landscaping", 12); ("cleaner", 12); ("cleaning", 10);
    ("flooring", 10); ("tiler", 10); ("locksmith", 12);
    ("mechanic", 12) ].

Definition solo_seller_tokens : list (string * Z) :=
  [ ("coach", 16); ("consultant", 14); ("therapist", 14); ("trainer", 12);
    ("mentor", 10); ("advisor", 10); ("copywriter", 8); ("designer", 4) ].

Definition owner_tokens : list string :=
  [ "owner"; "owneroperator"; "selfemployed"; "self-employed"; "solo";
    "smallbusiness"; "small business" ].

Definition weak_hosts : list string :=
  [ "linktr.ee"; "carrd.co"; "notion.site"; "beacons.ai"; "taplink.cc";
    "stan.store" ].

Definition weakish : list string :=
  weak_hosts ++
  [ "instagram.com"; "facebook.com"; "tiktok.com"; "maps.google.";
    "g.page"; "goo.gl/maps" ].

Definition contact_words : list string :=
  [ "whatsapp"; "call"; "dm"; "book"; "quote" ].

Definition negative : list (string * Z) :=
  [ ("developer", -22); ("engineer", -18); ("software", -14);
    ("github", -22); ("agency", -16); ("webdev", -14); ("freelance", -6);
    ("forhire", -10); ("buildinginpublic", -14); ("buildinpublic", -14);
    ("webflow", -16); ("wordpress", -10); ("wix", -10);
    ("squarespace", -10); ("framer", -12); ("bubble", -12);
    ("nocode", -12); ("no-code", -12); ("indiehackers", -14);
    ("indiehacker", -14); ("growthhacker", -14); ("prompt", -10) ].

Definition committee_phrases : list string :=
  [ "marketing team"; "head of"; "director"; "vp "; "cmo"; "manager";
    "procurement"; "rfp"; "enterprise"; "stakeholders"; "proposal" ].

(** [[a-zA-Z0-9._%+\-]+@[a-zA-Z0-9.\-]+\.[a-zA-Z]{2,}] *)
Definition email_re : Regex.regex :=
  let user c := PyStr.is_ascii_alnum c || PyStr.one_of "._%+-" c in
  let host c := PyStr.is_ascii_alnum c || PyStr.one_of ".-" c in
  Regex.Cat (Regex.plus (Regex.Cls user))
    (Regex.Cat (Regex.chr "@")
       (Regex.Cat (Regex.plus (Regex.Cls host))
          (Regex.Cat (Regex.chr ".")
             (Regex.at_least 2 (Regex.Cls PyStr.is_ascii_alpha))))).

(** The locals of [score_row] that the rules read. *)
Record ctx : Type := {
  text : string;
  text_l : string;
  toks : gset string;
  website : string;
  phone : string
}.

(** [str(r.get(k) or "")] *)
Definition field (r : gmap string scalar) (k : string) : string :=
  py_str (py_or (dict_get r k) (PStr "")).

Definition fields : list string :=
  [ "name"; "bio"; "location"; "website"; "phone"; "recent_post_snippet";
    "signal_keywords_matched"; "profile_url" ].

Definition row_ctx (r : gmap string scalar) : ctx :=
  let t := PyStr.strip (PyStr.join " " (map (field r) fields)) in
  let tl := PyStr.lower t in
  {| text := t;
     text_l := tl;
     toks := list_to_set (_tokenize tl);
     website := field r "website";
     phone := field r "phone" |}.

Definition in_toks (c : ctx) (k : string) : bool :=
  bool_decide (k ∈ toks c).

(** [[p for p in phrases if p in text_l]] *)
Definition matched (phrases : list string) (c : ctx) : list string :=
  List.filter (fun p => PyStr.contains p (text_l c)) phrases.

Definition count (l : list string) : Z := Z.of_nat (length l).

Definition rule_intent (c : ctx) : list entry :=
  let m := matched booking_phrases c in
  match m with
  | [] => []
  | _ => [ (Z.min 44 (14 + 6 * Z.min 5 (count m)),
            "intent:" +:+ PyStr.join ", " (firstn 5 m)) ]
  end.

Definition rule_pain (c : ctx) : list entry :=
  let m := matched pain_phrases c in
  match m with
  | [] => []
  | _ => [ (Z.min 18 (8 + 3 * Z.min 4 (count m)),
            "pain:" +:+ PyStr.join ", " (firstn 4 m)) ]
  end.

(** [for k, pts in table.items(): if k in toks: ...] *)
Definition token_rule (tag : string) (table : list (string * Z)) (c : ctx)
  : list entry :=
  map (fun kp => (snd kp, tag +:+ fst kp))
      (List.filter (fun kp => in_toks c (fst kp)) table).

Definition rule_service (c : ctx) : list entry :=
  token_rule "svc:" service_tokens c.

Definition has_local_service (c : ctx) : bool :=
  existsb (fun kp => in_toks c (fst kp)) service_tokens.

Definition rule_role (c : ctx) : list entry :=
  token_rule "role:" solo_seller_tokens c.

Definition rule_owner (c : ctx) : list entry :=
  if existsb (fun t => PyStr.contains t (text_l c)) owner_tokens
     || in_toks c "owner"
  then [ (8, "decision:solo") ] else [].

Definition website_rule (c : ctx) : entry * website_state :=
  if PyStr.is_empty (PyStr.strip (website c)) then
    if existsb (fun x => PyStr.contains x (text_l c)) contact_words
    then ((16, "no_website_but_contact"), ws_none)
    else ((10, "no_website"), ws_none)
  else
    let wl := PyStr.lower (website c) in
    if existsb (fun h => PyStr.contains h wl) weakish
    then ((16, "weak_link_in_bio"), ws_weak)
    else ((3, "has_website"), ws_strong).

Definition rule_website (c : ctx) : list entry := [ fst (website_rule c) ].

Definition rule_fit (c : ctx) : list entry :=
  if has_local_service c then
    match snd (website_rule c) with
    | ws_none => [ (22, "fit:local_service_weak_web") ]
    | ws_weak => [ (18, "fit:local_service_weak_web") ]
    | ws_strong => []
    end
  else [].

Definition rule_whatsapp (c : ctx) : list entry :=
  if in_toks c "whatsapp" || PyStr.contains "wa.me" (text_l c)
  then [ (18, "contact:whatsapp") ] else [].

Definition rule_phone (c : ctx) : list entry :=
  if negb (PyStr.is_empty (PyStr.strip (phone c)))
  then [ (14, "contact:phone") ] else [].

Definition rule_tel (c : ctx) : list entry :=
  if PyStr.contains "tel:" (text_l c)
  then [ (8, "contact:phone_link") ] else [].

Definition rule_email (c : ctx) : list entry :=
  if Regex.search email_re (text c)
  then [ (6, "contact:email") ] else [].

Definition rule_negative (c : ctx) : list entry :=
  token_rule "neg:" negative c.

Definition rule_committee (c : ctx) : list entry :=
  let m := matched committee_phrases c in
  match m with
  | [] => []
  | _ => [ (- Z.min 26 (12 + 4 * Z.min 4 (count m)), "neg:committee") ]
  end.

(** The rules in the order of the code, the WhatsApp rule apart. *)
Definition rules_before_whatsapp : list (ctx -> list entry) :=
  [ rule_intent; rule_pain; rule_service; rule_role; rule_owner;
    rule_website; rule_fit ].

Definition rules_after_whatsapp : list (ctx -> list entry) :=
  [ rule_phone; rule_tel; rule_email; rule_negative; rule_committee ].

Definition fire (rules : list (ctx -> list entry)) (c : ctx) : list entry :=
  concat (map (fun rule => rule c) rules).

(** Every [(pts, reason)] the code adds, in the order it adds them. *)
Definition fired (c : ctx) : list entry :=
  fire rules_before_whatsapp c ++ rule_whatsapp c
  ++ fire rules_after_whatsapp c.

Definition total (es : list entry) : Z :=
  fold_left (fun acc e => acc + fst e) es 0.

(** [score] before the final clamp. *)
Definition raw_score (r : gmap string scalar) : Z :=
  total (fired (row_ctx r)).

Definition clamp (z : Z) : Z := Z.max 0 (Z.min 100 z).

Definition score_row (r : gmap string scalar) : Z * list string :=
  let es := fired (row_ctx r) in
  (clamp (total es), map snd es).

End Scoring.

(** ** app/db.py *)

Module Db.
Import Py.

(** A row of the table [leads]; a nullable column is an [option]. *)
Record lead : Type := {
  lead_id : Z;
  source : string;
  handle : string;
  profile_url : option string;
  name : option string;
  bio : option string;
  followers : option Z;
  location : option string;
  website : option string;
  phone : option string;
  email : option string;
  recent_post_snippet : option string;
  signal_keywords_matched : option string;
  score : option Z;
  reason : option string;
  website_score : option Z;
  website_verdict : option string;
  website_findings : option string;
  website_checked_at : option Z;
  website_final_url : option string;
  website_http_status : option Z;
  status : string;
  notes : string;
  tags : string;
  last_seen_at : Z;
  created_at : Z
}.

(** The table and the largest row id it has handed out (AUTOINCREMENT). *)
Record table : Type := {
  rows : list lead;
  last_rowid : Z
}.

(** The sixteen values bound to the INSERT of [upsert_leads_from_rows],
    in the order of its parameter tuple. *)
Record insert_params : Type := {
  p_source : string;
  p_handle : string;
  p_profile_url : option string;
  p_name : string;
  p_bio : string;
  p_followers : option Z;
  p_location : string;
  p_website : string;
  p_phone : string;
  p_email : string;
  p_recent_post_snippet : string;
  p_signal_keywords_matched : string;
  p_score : option Z;
  p_reason : string;
  p_last_seen_at : Z;
  p_created_at : Z
}.

Definition NULLIF (a : option string) (b : string) : option string :=
  match a with
  | Some s => if String.eqb s b then None else Some s
  | None => None
  end.

Definition COALESCE {A : Type} (a b : option A) : option A :=
  match a with
  | Some _ => a
  | None => b
  end.

(** The row the INSERT would add: the listed columns from the parameters,
    the others from the column defaults of the schema. *)
Definition inserted_row (new_id : Z) (p : insert_params) : lead :=
  {| lead_id := new_id;
     source := p_source p;
     handle := p_handle p;
     profile_url := p_profile_url p;
     name := Some (p_name p);
     bio := Some (p_bio p);
     followers := p_followers p;
     location := Some (p_location p);
     website := Some (p_website p);
     phone := Some (p_phone p);
     email := Some (p_email p);
     recent_post_snippet := Some (p_recent_post_snippet p);
     signal_keywords_matched := Some (p_signal_keywords_matched p);
     score := p_score p;
     reason := Some (p_reason p);
     website_score := None;
     website_verdict := None;
     website_findings := None;
     website_checked_at := None;
     website_final_url := None;
     website_http_status := None;
     status := "new";
     notes := "";
     tags := "[]";
     last_seen_at := p_last_seen_at p;
     created_at := p_created_at p |}.

(** [ON CONFLICT(source, handle) DO UPDATE SET ...]: [leads] is the stored
    row, [excluded] the row the INSERT would have added. *)
Definition do_update (excluded leads : lead) : lead :=
  {| lead_id := lead_id leads;
     source := source leads;
     handle := handle leads;
     profile_url :=
       COALESCE (NULLIF (profile_url excluded) "") (profile_url leads);
     name := name excluded;
     bio := bio excluded;
     followers := followers excluded;
     location := location excluded;
     website := COALESCE (NULLIF (website excluded) "") (website leads);
     phone := COALESCE (NULLIF (phone excluded) "") (phone leads);
     email := COALESCE (NULLIF (email excluded) "") (email leads);
     recent_post_snippet := recent_post_snippet excluded;
     signal_keywords_matched := signal_keywords_matched excluded;
     score := score excluded;
     reason := reason excluded;
     website_score := website_score leads;
     website_verdict := website_verdict leads;
     website_findings := website_findings leads;
     website_checked_at := website_checked_at leads;
     website_final_url := website_final_url leads;
     website_http_status := website_http_status leads;
     status := status leads;
     notes := notes leads;
     tags := tags leads;
     last_seen_at := last_seen_at excluded;
     created_at := created_at leads |}.

(** The UNIQUE(source, handle) key. *)
Definition same_key (src hdl : string) (l : lead) : bool :=
  String.eqb (source l) src && String.eqb (handle l) hdl.

Definition find_lead (src hdl : string) (t : table) : option lead :=
  List.find (same_key src hdl) (rows t).

(** Replace the first row that satisfies [hit]; [None] when there is none. *)
Fixpoint update_where (hit : lead -> bool) (f : lead -> lead)
  (l : list lead) : option (list lead) :=
  match l with
  | [] => None
  | x :: rest =>
      if hit x then Some (f x :: rest)
      else option_map (cons x) (update_where hit f rest)
  end.

(** The INSERT ... ON CONFLICT statement. *)
Definition sql_upsert (p : insert_params) (t : table) : table :=
  let new_id := last_rowid t + 1 in
  let excluded := inserted_row new_id p in
  match update_where (same_key (p_source p) (p_handle p))
                     (do_update excluded) (rows t) with
  | Some rows' => {| rows := rows'; last_rowid := last_rowid t |}
  | None => {| rows := rows t ++ [excluded]; last_rowid := new_id |}
  end.

(** [(r.get(k) or "").strip()] *)
Definition get_stripped (r : gmap string scalar) (k : string)
  : outcome string :=
  method_strip (py_or (dict_get r k) (PStr "")).

(** [a or b or ... or ""] over the values of the keys, in order. *)
Definition first_of (out : gmap string scalar) (keys : list string)
  : scalar :=
  fold_right (fun k rest => py_or (dict_get out k) rest) (PStr "") keys.

Definition map_sources : list string :=
  [ "google_maps"; "gmb"; "maps"; "local" ].

Definition in_list (s : string) (l : list string) : bool :=
  existsb (String.eqb s) l.

(** [{str(k).strip().lower(): v for k, v in r.items()}] *)
Definition lower_keys (r : list (string * scalar)) : gmap string scalar :=
  fold_left
    (fun out kv => <[PyStr.lower (PyStr.strip (fst kv)) := snd kv]> out)
    r ∅.

(** [(out.get("handle") or out.get("username") or ... or "").strip()]
    followed by [handle.lstrip("@").strip()] *)
Definition alias_handle (out : gmap string scalar) : outcome string :=
  let! h := method_strip
              (first_of out [ "handle"; "username"; "user"; "page" ]) in
  Ok (PyStr.strip (PyStr.lstrip_chars "@" h)).

(** The profile URL after the alias lookup and the [url] fallback. *)
Definition alias_profile_url (out : gmap string scalar) : outcome string :=
  let! p := method_strip
              (first_of out [ "profile_url"; "profile"; "profilelink";
                              "profile_link" ]) in
  if PyStr.is_empty p then
    let! u := get_stripped out "url" in
    if PyStr.contains "instagram.com/" u || PyStr.contains "facebook.com/" u
    then Ok u else Ok p
  else Ok p.

(** [p.split(marker, 1)[1].split("?", 1)[0].strip("/").split("/", 1)[0]] *)
Definition segment_after (marker p : string) : outcome string :=
  match PyStr.split_once marker p with
  | None => Raise IndexError
  | Some (_, rest) =>
      Ok (PyStr.split_head "/"
            (PyStr.strip_chars "/" (PyStr.split_head "?" rest)))
  end.

(** The [try] block that derives a handle from the profile URL. *)
Definition derive_handle (profile_url handle : string) : string :=
  if negb (PyStr.is_empty profile_url) && PyStr.is_empty handle then
    catch
      (if PyStr.contains "instagram.com/" profile_url
       then segment_after "instagram.com/" profile_url
       else if PyStr.contains "facebook.com/" profile_url
       then segment_after "facebook.com/" profile_url
       else Ok handle)
      handle
  else handle.

(** [if not out.get(k): out[k] = out.get(a1) or out.get(a2) or ... or ""] *)
Definition fill (k : string) (aliases : list string)
  (out : gmap string scalar) : gmap string scalar :=
  if truthy (dict_get out k) then out
  else <[k := first_of out aliases]> out.

Definition _normalize_row (r : list (string * scalar)) (source : string)
  : outcome (gmap string scalar) :=
  let out := lower_keys r in
  let! handle := alias_handle out in
  let! profile_url := alias_profile_url out in
  let handle := derive_handle profile_url handle in
  let! handle :=
    if PyStr.is_empty handle
       && in_list (PyStr.lower (PyStr.strip source)) map_sources
    then method_strip
           (py_or (PStr profile_url)
              (py_or (dict_get out "name") (PStr "")))
    else Ok handle in
  let out := <["handle" := PStr handle]> out in
  let out := <["profile_url" := PStr profile_url]> out in
  let out := fill "bio" [ "description"; "about" ] out in
  let out := fill "website" [ "website_url"; "site" ] out in
  let out := fill "phone" [ "phone_number"; "tel"; "mobile" ] out in
  let out :=
    fill "recent_post_snippet" [ "snippet"; "caption"; "post_text" ] out in
  Ok out.

(** SQLite stores 64-bit integers; the binding of a larger [int] raises. *)
Definition int64 (z : Z) : bool :=
  (- 2 ^ 63 <=? z) && (z <? 2 ^ 63).

Definition bind_int (o : option Z) : outcome (option Z) :=
  match o with
  | Some z => if int64 z then Ok o else Raise OverflowError
  | None => Ok None
  end.

Definition is_none {A : Type} (o : option A) : bool :=
  match o with None => true | Some _ => false end.

Section WithLibrary.

(** [int(float(s))], [None] when either conversion raises. *)
Variable int_of_float_str : string -> option Z.
(** [json.dumps(v, ensure_ascii=True)] and [json.loads(s)], [None] when
    the latter raises. *)
Variable json_dumps : pyobj -> outcome string.
Variable json_loads : string -> option pyobj.

Definition _to_int (v : scalar) : option Z :=
  match v with
  | PNone => None
  | PInt z => Some z
  | PBool b => Some (Z.b2z b)
  | _ =>
      let s := PyStr.strip (py_str v) in
      if PyStr.is_empty s then None else int_of_float_str s
  end.

(** The scoring step of the loop: [r2] after the [try] block. *)
Definition with_score (compute_score_if_missing : bool)
  (score_fn : option (gmap string scalar -> outcome (Z * list string)))
  (r2 : gmap string scalar) : gmap string scalar :=
  match score_fn with
  | Some f =>
      if compute_score_if_missing && is_none (_to_int (dict_get r2 "score"))
      then
        match f r2 with
        | Ok (s, reasons) =>
            <["reason" := PStr (PyStr.join " | " (firstn 18 reasons))]>
              (<["score" := PInt s]> r2)
        | Raise _ => r2
        end
      else r2
  | None => r2
  end.

(** One iteration up to the execution of the statement: the parameters
    bound for the row, [None] when the row is skipped. *)
Definition row_params (now : Z) (source : string)
  (compute_score_if_missing : bool)
  (score_fn : option (gmap string scalar -> outcome (Z * list string)))
  (r : list (string * scalar)) : outcome (option insert_params) :=
  let src :=
    PyStr.lower (PyStr.strip (if PyStr.is_empty source then "manual"
                              else source)) in
  let! r2 := _normalize_row r src in
  let! h := get_stripped r2 "handle" in
  let handle := PyStr.lstrip_chars "@" h in
  if PyStr.is_empty handle then Ok None
  else
    let! profile_url := get_stripped r2 "profile_url" in
    let r2 := with_score compute_score_if_missing score_fn r2 in
    let! p_name := get_stripped r2 "name" in
    let! p_bio := get_stripped r2 "bio" in
    let followers := _to_int (dict_get r2 "followers") in
    let! p_location := get_stripped r2 "location" in
    let! p_website := get_stripped r2 "website" in
    let! p_phone := get_stripped r2 "phone" in
    let! p_email := get_stripped r2 "email" in
    let! p_snippet := get_stripped r2 "recent_post_snippet" in
    let! p_signal := get_stripped r2 "signal_keywords_matched" in
    let score := _to_int (dict_get r2 "score") in
    let! p_reason := get_stripped r2 "reason" in
    let! p_followers := bind_int followers in
    let! p_score := bind_int score in
    Ok (Some
          {| p_source := src;
             p_handle := handle;
             p_profile_url :=
               if PyStr.is_empty profile_url then None
               else Some profile_url;
             p_name := p_name;
             p_bio := p_bio;
             p_followers := p_followers;
             p_location := p_location;
             p_website := p_website;
             p_phone := p_phone;
             p_email := p_email;
             p_recent_post_snippet := p_snippet;
             p_signal_keywords_matched := p_signal;
             p_score := p_score;
             p_reason := p_reason;
             p_last_seen_at := now;
             p_created_at := now |}).

(** The loop of [upsert_leads_from_rows]: the table it leaves and the
    count it returns, or the exception that ends it. *)
Fixpoint upsert_loop (now : Z) (source : string)
  (compute_score_if_missing : bool)
  (score_fn : option (gmap string scalar -> outcome (Z * list string)))
  (rs : list (list (string * scalar))) (t : table) (n : Z)
  : table * outcome Z :=
  match rs with
  | [] => (t, Ok n)
  | r :: rest =>
      match row_params now source compute_score_if_missing score_fn r with
      | Raise e => (t, Raise e)
      | Ok None =>
          upsert_loop now source compute_score_if_missing score_fn
            rest t n
      | Ok (Some p) =>
          upsert_loop now source compute_score_if_missing score_fn
            rest (sql_upsert p t) (n + 1)
      end
  end.

Definition upsert_leads_from_rows (now : Z) (t : table)
  (rs : list (list (string * scalar))) (source : string)
  (compute_score_if_missing : bool)
  (score_fn : option (gmap string scalar -> outcome (Z * list string)))
  : table * outcome Z :=
  upsert_loop now source compute_score_if_missing score_fn rs t 0.

(** What [get_lead] returns: the row, with [tags] decoded. *)
Record lead_view : Type := {
  view_row : lead;
  view_tags : pyobj
}.

Definition has_id (i : Z) (l : lead) : bool := lead_id l =? i.

Definition get_lead (t : table) (i : Z) : option lead_view :=
  match List.find (has_id i) (rows t) with
  | None => None
  | Some l =>
      let text := if PyStr.is_empty (tags l) then "[]" else tags l in
      Some {| view_row := l;
              view_tags := default (PList []) (json_loads text) |}
  end.

(** The columns [update_lead] may write. *)
Inductive column : Type := c_status | c_notes | c_tags.

(** [k in allowed], with the column the key names. *)
Definition allowed (k : string) : option column :=
  if String.eqb k "status" then Some c_status
  else if String.eqb k "notes" then Some c_notes
  else if String.eqb k "tags" then Some c_tags
  else None.

(** The [for] loop of [update_lead]: the [fields] and [params] lists. *)
Fixpoint patch_fields (patch : list (string * pyobj))
  : outcome (list (column * pyobj)) :=
  match patch with
  | [] => Ok []
  | (k, v) :: rest =>
      match allowed k with
      | None => patch_fields rest
      | Some c_tags =>
          let! s := json_dumps (if obj_truthy v then v else PList []) in
          let! fs := patch_fields rest in
          Ok ((c_tags, Scalar (PStr s)) :: fs)
      | Some c =>
          let! fs := patch_fields rest in
          Ok ((c, v) :: fs)
      end
  end.

(** The value SQLite stores in a TEXT column for a bound parameter. *)
Definition bind_text (v : pyobj) : outcome (option string) :=
  match v with
  | Scalar PNone => Ok None
  | Scalar (PStr s) => Ok (Some s)
  | Scalar (PInt z) =>
      if int64 z then Ok (Some (PyStr.of_Z z)) else Raise OverflowError
  | Scalar (PBool b) => Ok (Some (if b then "1" else "0"))
  | Scalar (PFloat f) => Ok (Some (float_sqltext f))
  | PList _ => Raise InterfaceError
  | PDict _ => Raise InterfaceError
  end.

Definition set_column (c : column) (s : string) (l : lead) : lead :=
  {| lead_id := lead_id l;
     source := source l;
     handle := handle l;
     profile_url := profile_url l;
     name := name l;
     bio := bio l;
     followers := followers l;
     location := location l;
     website := website l;
     phone := phone l;
     email := email l;
     recent_post_snippet := recent_post_snippet l;
     signal_keywords_matched := signal_keywords_matched l;
     score := score l;
     reason := reason l;
     website_score := website_score l;
     website_verdict := website_verdict l;
     website_findings := website_findings l;
     website_checked_at := website_checked_at l;
     website_final_url := website_final_url l;
     website_http_status := website_http_status l;
     status := match c with c_status => s | _ => status l end;
     notes := match c with c_notes => s | _ => notes l end;
     tags := match c with c_tags => s | _ => tags l end;
     last_seen_at := last_seen_at l;
     created_at := created_at l |}.

(** The three columns are NOT NULL. *)
Definition assign (l : lead) (cv : column * option string)
  : outcome lead :=
  match snd cv with
  | None => Raise IntegrityError
  | Some s => Ok (set_column (fst cv) s l)
  end.

Fixpoint assign_all (sets : list (column * option string)) (l : lead)
  : outcome lead :=
  match sets with
  | [] => Ok l
  | cv :: rest => let! l' := assign l cv in assign_all rest l'
  end.

Fixpoint update_row (i : Z) (sets : list (column * option string))
  (l : list lead) : outcome (list lead) :=
  match l with
  | [] => Ok []
  | x :: rest =>
      if has_id i x then
        let! x' := assign_all sets x in Ok (x' :: rest)
      else
        let! rest' := update_row i sets rest in Ok (x :: rest')
  end.

(** [UPDATE leads SET f1=?, ... WHERE id=?] *)
Definition sql_update (fields : list (column * pyobj)) (i : Z)
  (t : table) : outcome table :=
  let! sets := mapM (fun cv => let! s := bind_text (snd cv) in
                               Ok (fst cv, s)) fields in
  let! rows' := update_row i sets (rows t) in
  Ok {| rows := rows'; last_rowid := last_rowid t |}.

Definition update_lead (t : table) (i : Z) (patch : list (string * pyobj))
  : table * outcome (option lead_view) :=
  match patch_fields patch with
  | Raise e => (t, Raise e)
  | Ok [] => (t, Ok (get_lead t i))
  | Ok fields =>
      match sql_update fields i t with
      | Raise e => (t, Raise e)
      | Ok t' => (t', Ok (get_lead t' i))
      end
  end.

End WithLibrary.

End Db.

(** ** app/audit.py *)

Module Audit.
Import Py.

Definition WEAK_LINK_HOSTS : list string :=
  [ "linktr.ee"; "carrd.co"; "notion.site"; "beacons.ai"; "taplink.cc";
    "stan.store"; "gumroad.com"; "calendly.com" ].

Definition PARKED_PHRASES : list string :=
  [ "domain parked"; "this domain is parked"; "buy this domain";
    "this website is coming soon"; "coming soon"; "under construction";
    "site is not configured"; "account suspended" ].

Record AuditConfig : Type := {
  timeout_s : pyfloat;
  max_bytes : Z;
  sleep_s : pyfloat
}.

(** The dictionary [audit_website] returns. *)
Record audit_result : Type := {
  website_score : Z;
  website_verdict : string;
  website_findings : string;
  website_http_status : option Z;
  website_final_url : string;
  website_checked_at : Z
}.

(** The [urlopen] request of the [try] block and what comes back. *)
Record request : Type := {
  req_url : string;
  req_headers : list (string * string);
  req_timeout : pyfloat;
  req_read : Z
}.

Record response : Type := {
  resp_status : option Z;
  resp_geturl : string;
  resp_content_type : option string;
  resp_data : string
}.

Inductive fetch_outcome : Type :=
| HTTPError : Z -> fetch_outcome
| FetchError : string -> fetch_outcome
| Response : response -> fetch_outcome.

(** A computation with the two effects of the module: reading the clock
    and fetching a URL. *)
Inductive io (A : Type) : Type :=
| Ret : A -> io A
| Now : (Z -> io A) -> io A
| Fetch : request -> (fetch_outcome -> io A) -> io A.
Arguments Ret {A} _.
Arguments Now {A} _.
Arguments Fetch {A} _ _.

(** Running a computation against a clock and a network. *)
Fixpoint run {A : Type} (clock : Z) (net : request -> fetch_outcome)
  (m : io A) : A :=
  match m with
  | Ret a => a
  | Now k => run clock net (k clock)
  | Fetch req k => run clock net (k (net req))
  end.

(** The requests a run sends, in order. *)
Fixpoint fetched {A : Type} (clock : Z) (net : request -> fetch_outcome)
  (m : io A) : list request :=
  match m with
  | Ret _ => []
  | Now k => fetched clock net (k clock)
  | Fetch req k => req :: fetched clock net (k (net req))
  end.

(** [^[a-zA-Z][a-zA-Z0-9+\-.]*://] *)
Definition scheme_char (c : ascii) : bool :=
  PyStr.is_ascii_alnum c || PyStr.one_of "+-." c.

Definition scheme_re : Regex.regex :=
  Regex.Cat (Regex.Cls PyStr.is_ascii_alpha)
    (Regex.Cat (Regex.Star (Regex.Cls scheme_char)) (Regex.lit "://")).

Definition _normalize_url (url : string) : string :=
  let url := PyStr.strip url in
  if PyStr.is_empty url then ""
  else if negb (Regex.match_start scheme_re url) then "https://" +:+ url
  else url.

(** [<title>\s*[^<]{3,}</title>] *)
Definition title_re : Regex.regex :=
  Regex.Cat (Regex.lit "<title>")
    (Regex.Cat (Regex.Star Regex.space)
       (Regex.Cat (Regex.at_least 3 (Regex.not_char "<"))
          (Regex.lit "</title>"))).

(** [<h1[^>]*>\s*[^<]{2,}] *)
Definition h1_re : Regex.regex :=
  Regex.Cat (Regex.lit "<h1")
    (Regex.Cat (Regex.Star (Regex.not_char ">"))
       (Regex.Cat (Regex.chr ">")
          (Regex.Cat (Regex.Star Regex.space)
             (Regex.at_least 2 (Regex.not_char "<"))))).

(** [len(re.findall(w + r"\b", s))] for a word [w] that ends in a word
    character and cannot overlap itself: the positions where [w] is
    followed by the end of the string or by a non-word character. *)
Definition word_end (s : string) : bool :=
  match s with
  | EmptyString => true
  | String c _ => negb (PyStr.is_word c)
  end.

Fixpoint count_word (w s : string) : Z :=
  (if PyStr.starts_with w s && word_end (PyStr.drop (String.length w) s)
   then 1 else 0)
  + match s with
    | EmptyString => 0
    | String _ s' => count_word w s'
    end.

Definition booking_kw : list string :=
  [ "book"; "booking"; "quote"; "estimate"; "call"; "whatsapp";
    "appointment"; "schedule" ].

Definition trust_kw : list string :=
  [ "review"; "reviews"; "testimonial"; "testimonials"; "before and after";
    "before & after"; "rated" ].

Definition any_in (phrases : list string) (s : string) : bool :=
  existsb (fun p => PyStr.contains p s) phrases.

(** The double-quote character, and an attribute prefix (key, equals
    sign, opening quote, start of the value) in either quoting. *)
Definition dquote : string := String "034"%char EmptyString.

Definition attr2 (key value : string) : string :=
  key +:+ "=" +:+ dquote +:+ value.
Definition attr1 (key value : string) : string :=
  key +:+ "='" +:+ value.

Definition has_viewport (html_l : string) : bool :=
  PyStr.contains (attr2 "name" "viewport" +:+ dquote) html_l
  || PyStr.contains (attr1 "name" "viewport'") html_l.

Definition has_title (html_l : string) : bool :=
  Regex.search title_re html_l.

Definition has_meta_desc (html_l : string) : bool :=
  PyStr.contains (attr2 "name" "description" +:+ dquote) html_l
  || PyStr.contains (attr1 "name" "description'") html_l.

Definition has_h1 (html_l : string) : bool := Regex.search h1_re html_l.

Definition has_tel (html_l : string) : bool :=
  PyStr.contains (attr2 "href" "tel:") html_l
  || PyStr.contains (attr1 "href" "tel:") html_l.

Definition has_mail (html_l : string) : bool :=
  PyStr.contains (attr2 "href" "mailto:") html_l
  || PyStr.contains (attr1 "href" "mailto:") html_l.

Definition has_whatsapp (html_l : string) : bool :=
  PyStr.contains "wa.me/" html_l
  || PyStr.contains "api.whatsapp.com" html_l
  || PyStr.contains "whatsapp" html_l.

Definition scripts (html_l : string) : Z := count_word "<script" html_l.

(** One check of the scored path: what it adds to [score] and what it
    appends to [findings]. *)
Definition check : Type := Z * list string.

Definition checks (html_l : string) (truncated : bool) : list check :=
  [ if has_viewport html_l then (10, [ "Has mobile viewport meta." ])
    else (-10, [ "Missing mobile viewport meta (mobile UX risk)." ]);
    if has_title html_l then (5, [])
    else (-6, [ "Missing/empty <title>." ]);
    if has_meta_desc html_l then (5, [])
    else (0, [ "Missing meta description (SEO baseline)." ]);
    if has_h1 html_l then (5, [])
    else (0, [ "Missing/weak H1 (clarity)." ]);
    if has_whatsapp html_l then (10, [ "Has WhatsApp contact." ])
    else (0, []);
    if has_tel html_l then (8, [ "Has phone link." ]) else (0, []);
    if has_mail html_l then (4, []) else (0, []);
    if any_in booking_kw html_l then (6, [])
    else (-6, [ "No obvious booking/quote CTA language." ]);
    if any_in trust_kw html_l
    then (6, [ "Has trust signals (reviews/testimonials)." ])
    else (0, [ "Weak trust signals (no clear reviews/testimonials found)." ]);
    if 35 <=? scripts html_l
    then (-8, [ "Very script-heavy (" +:+ PyStr.of_Z (scripts html_l)
                +:+ " scripts)." ])
    else if 20 <=? scripts html_l
    then (-4, [ "Somewhat script-heavy (" +:+ PyStr.of_Z (scripts html_l)
                +:+ " scripts)." ])
    else (0, []);
    if truncated
    then (-6, [ "HTML is large/truncated (page weight risk)." ])
    else (0, []) ].

Definition sum_checks (cs : list check) : Z :=
  fold_left (fun acc c => acc + fst c) cs 50.

Definition clamp (z : Z) : Z := Z.max 0 (Z.min 100 z).

Definition verdict_of (score : Z) : string :=
  if score <=? 35 then "weak_site"
  else if score <=? 65 then "basic_site"
  else "good_site".

(** The scored path: from the lower-cased page to score, verdict and
    findings. *)
Definition score_html (html_l : string) (truncated : bool)
  : Z * string * string :=
  let cs := checks html_l truncated in
  let score := clamp (sum_checks cs) in
  let verdict := verdict_of score in
  let findings := firstn 8 (concat (map snd cs)) in
  let findings :=
    if (String.eqb verdict "weak_site" || String.eqb verdict "basic_site")
       && negb (has_tel html_l || has_whatsapp html_l || has_mail html_l)
    then "No obvious contact links (phone/WhatsApp/email)." :: findings
    else findings in
  (score, verdict, PyStr.join "; " findings).

Definition headers : list (string * string) :=
  [ ("User-Agent", "GalzuLeadFinder/1.0 (+local dashboard)");
    ("Accept",
     "text/html,application/xhtml+xml,application/xml;q=0.9,*/*;q=0.8") ].

(** [v or None] for an integer status. *)
Definition or_none (o : option Z) : option Z :=
  match o with
  | Some z => if z =? 0 then None else Some z
  | None => None
  end.

Section WithLibrary.

(** [bytes.decode("utf-8", errors="replace")] *)
Variable decode : string -> string.
(** The validation [urllib.parse] applies to a netloc that holds
    brackets or characters outside ASCII; [false] when it raises. *)
Variable netloc_valid : string -> bool.

Definition is_ascii (c : ascii) : bool := (PyStr.code c <? 128)%N.

Fixpoint all_chars (p : ascii -> bool) (s : string) : bool :=
  match s with
  | EmptyString => true
  | String c s' => p c && all_chars p s'
  end.

Fixpoint remove_chars (p : ascii -> bool) (s : string) : string :=
  match s with
  | EmptyString => EmptyString
  | String c s' =>
      if p c then remove_chars p s' else String c (remove_chars p s')
  end.

(** The URL after its scheme, when it starts with one. *)
Definition after_scheme (url : string) : string :=
  let head := PyStr.take_while (fun c => negb (PyStr.is_char ":" c)) url in
  let rest := PyStr.drop (String.length head) url in
  match head, rest with
  | String c _, String _ rest' =>
      if PyStr.is_ascii_alpha c && all_chars scheme_char head
      then rest' else url
  | _, _ => url
  end.

(** [urllib.parse.urlparse(url).netloc], as [urlsplit] computes it. *)
Definition urlparse_netloc (url : string) : outcome string :=
  let url := PyStr.drop_while (fun c => (PyStr.code c <=? 32)%N) url in
  let url :=
    remove_chars
      (fun c => (PyStr.code c =? 9)%N || (PyStr.code c =? 10)%N
                || (PyStr.code c =? 13)%N) url in
  let url := after_scheme url in
  if PyStr.starts_with "//" url then
    let netloc :=
      PyStr.take_while (fun c => negb (PyStr.one_of "/?#" c))
        (PyStr.drop 2 url) in
    let lb := PyStr.contains "[" netloc in
    let rb := PyStr.contains "]" netloc in
    if xorb lb rb then Raise ValueError
    else if (lb || negb (all_chars is_ascii netloc))
            && negb (netloc_valid netloc)
    then Raise ValueError
    else Ok netloc
  else Ok "".

Definition _host (url : string) : string :=
  catch (let! netloc := urlparse_netloc url in Ok (PyStr.lower netloc)) "".

(** [any(host == h or host.endswith("." + h) for h in WEAK_LINK_HOSTS)] *)
Definition is_weak_host (host : string) : bool :=
  existsb (fun h => String.eqb host h || PyStr.ends_with ("." +:+ h) host)
    WEAK_LINK_HOSTS.

Definition audit_website (url : string) (cfg : AuditConfig)
  : io audit_result :=
  Now (fun checked_at =>
    let raw := PyStr.strip url in
    if PyStr.is_empty raw then
      Ret {| website_score := 0;
             website_verdict := "no_website";
             website_findings := "No website listed.";
             website_http_status := None;
             website_final_url := "";
             website_checked_at := checked_at |}
    else
      let norm := _normalize_url raw in
      let host := _host norm in
      if is_weak_host host then
        Ret {| website_score := 20;
               website_verdict := "weak_link_in_bio";
               website_findings :=
                 "Link-in-bio page (Linktree/Carrd/Notion/etc). Strong upgrade opportunity.";
               website_http_status := None;
               website_final_url := norm;
               website_checked_at := checked_at |}
      else
        Fetch {| req_url := norm;
                 req_headers := headers;
                 req_timeout := timeout_s cfg;
                 req_read := max_bytes cfg + 1 |}
          (fun fetched =>
             match fetched with
             | HTTPError code =>
                 Ret {| website_score := 5;
                        website_verdict := "unreachable";
                        website_findings :=
                          "HTTP error " +:+ PyStr.of_Z code +:+ ".";
                        website_http_status := Some code;
                        website_final_url := norm;
                        website_checked_at := checked_at |}
             | FetchError type_name =>
                 Ret {| website_score := 5;
                        website_verdict := "unreachable";
                        website_findings :=
                          "Could not fetch site (" +:+ type_name +:+ ").";
                        website_http_status := None;
                        website_final_url := norm;
                        website_checked_at := checked_at |}
             | Response resp =>
                 let status := or_none (resp_status resp) in
                 let final_url :=
                   if PyStr.is_empty (resp_geturl resp) then norm
                   else resp_geturl resp in
                 let ctype :=
                   PyStr.lower (default "" (resp_content_type resp)) in
                 let data := resp_data resp in
                 if negb (PyStr.contains "text/html" ctype)
                    && negb (PyStr.contains "application/xhtml" ctype)
                 then
                   Ret {| website_score := 45;
                          website_verdict := "basic_site";
                          website_findings :=
                            "Non-HTML content-type: "
                            +:+ (if PyStr.is_empty ctype then "unknown"
                                 else ctype);
                          website_http_status := status;
                          website_final_url := final_url;
                          website_checked_at := checked_at |}
                 else
                   let truncated := max_bytes cfg <? PyStr.len data in
                   let html :=
                     decode (PyStr.slice_to (max_bytes cfg) data) in
                   let html_l := PyStr.lower html in
                   if any_in PARKED_PHRASES html_l then
                     Ret {| website_score := 10;
                            website_verdict := "parked_or_placeholder";
                            website_findings :=
                              "Looks parked/placeholder/coming-soon.";
                            website_http_status := status;
                            website_final_url := final_url;
                            website_checked_at := checked_at |}
                   else
                     let '(score, verdict, findings) :=
                       score_html html_l truncated in
                     Ret {| website_score := score;
                            website_verdict := verdict;
                            website_findings := findings;
                            website_http_status := status;
                            website_final_url := final_url;
                            website_checked_at := checked_at |}
             end)).

End WithLibrary.

End Audit.

(** ** Vocabulary of the properties *)

(** The strings a pattern denotes. *)
Module Lang.
Import Regex.

Inductive matches : regex -> string -> Prop :=
| m_eps : matches Eps EmptyString
| m_cls p c : p c = true -> matches (Cls p) (String c EmptyString)
| m_cat a b s t : matches a s -> matches b t -> matches (Cat a b) (s +:+ t)
| m_alt_l a b s : matches a s -> matches (Alt a b) s
| m_alt_r a b s : matches b s -> matches (Alt a b) s
| m_star_nil a : matches (Star a) EmptyString
| m_star_app a s t :
    matches a s -> matches (Star a) t -> matches (Star a) (s +:+ t).

End Lang.

Module Spec.
Import Py.

(** *** Reason codes *)

Definition category_tags : list string :=
  [ "intent:"; "pain:"; "svc:"; "role:"; "decision:"; "contact:"; "neg:";
    "fit:" ].

Definition has_category_tag (code : string) : bool :=
  existsb (fun tag => PyStr.starts_with tag code) category_tags.

(** The codes of the website-state rule. *)
Definition website_codes : list string :=
  [ "no_website_but_contact"; "no_website"; "weak_link_in_bio";
    "has_website" ].

(** A reason code carries a category tag or is a website-state code. *)
Definition legible (code : string) : Prop :=
  has_category_tag code = true \/ In code website_codes.

Fixpoint index_of (k : string) (table : list (string * Z)) : nat :=
  match table with
  | [] => O
  | kp :: rest => if String.eqb (fst kp) k then O else S (index_of k rest)
  end.

(** The place of a reason code in the order in which [score_row] runs its
    rules and, inside a token table, its entries. *)
Definition rule_rank (code : string) : nat :=
  if PyStr.starts_with "intent:" code then 0
  else if PyStr.starts_with "pain:" code then 1
  else if PyStr.starts_with "svc:" code
  then 2 + index_of (PyStr.drop 4 code) Scoring.service_tokens
  else if PyStr.starts_with "role:" code
  then 25 + index_of (PyStr.drop 5 code) Scoring.solo_seller_tokens
  else if String.eqb code "decision:solo" then 33
  else if Db.in_list code website_codes then 34
  else if PyStr.starts_with "fit:" code then 35
  else if String.eqb code "contact:whatsapp" then 36
  else if String.eqb code "contact:phone" then 37
  else if String.eqb code "contact:phone_link" then 38
  else if String.eqb code "contact:email" then 39
  else if String.eqb code "neg:committee" then 62
  else if PyStr.starts_with "neg:" code
  then 40 + index_of (PyStr.drop 4 code) Scoring.negative
  else 63.

(** What every rule other than the WhatsApp contact rule adds, rule by
    rule. *)
Definition other_rules (c : Scoring.ctx) : list (list Scoring.entry) :=
  map (fun rule => rule c)
    (Scoring.rules_before_whatsapp ++ Scoring.rules_after_whatsapp).

(** *** Handle derivation, in the words of the specification *)

(** The text that follows the first occurrence of [marker]. *)
Fixpoint after_first (marker p : string) : string :=
  if PyStr.starts_with marker p then PyStr.drop (String.length marker) p
  else match p with
       | EmptyString => EmptyString
       | String _ p' => after_first marker p'
       end.

Definition up_to (stop : ascii) (s : string) : string :=
  PyStr.take_while (fun c => negb (PyStr.is_char stop c)) s.

(** The recognised social-domain marker of a profile URL. *)
Definition social_marker (p : string) : option string :=
  if PyStr.contains "instagram.com/" p then Some "instagram.com/"
  else if PyStr.contains "facebook.com/" p then Some "facebook.com/"
  else None.

(** The first path segment after the domain marker: the query string is
    dropped, the slashes at both ends are stripped, and what precedes the
    next slash is kept. *)
Definition first_path_segment (marker p : string) : string :=
  up_to "/" (PyStr.strip_chars "/" (up_to "?" (after_first marker p))).

(** A value a text column of a row can hold without any coercion: a
    string or nothing. *)
Definition text_value (v : scalar) : bool :=
  match v with
  | PNone => true
  | PStr _ => true
  | _ => false
  end.

Definition text_dict (out : gmap string scalar) : Prop :=
  forall k, text_value (dict_get out k) = true.

(** *** Operator-owned columns *)

(** A row with its operator-owned columns blanked: what is left is every
    other column. *)
Definition erase_operator_columns (l : Db.lead) : Db.lead :=
  Db.set_column Db.c_status EmptyString
    (Db.set_column Db.c_notes EmptyString
       (Db.set_column Db.c_tags EmptyString l)).

(** [l'] is [l] up to the columns [status], [notes] and [tags]. *)
Definition same_but_operator_columns (l l' : Db.lead) : Prop :=
  erase_operator_columns l' = erase_operator_columns l.

(** The patch entry names a column [update_lead] accepts. *)
Definition allowed_key (kv : string * pyobj) : bool :=
  match Db.allowed (fst kv) with Some _ => true | None => false end.

Definition same_operator_columns (l l' : Db.lead) : Prop :=
  Db.status l' = Db.status l /\ Db.notes l' = Db.notes l
  /\ Db.tags l' = Db.tags l.

(** *** Markup of a page *)

(** The page holds a [<title>] element whose text has at least three
    characters, none of them an opening angle bracket. *)
Definition has_title_text (html_l : string) : Prop :=
  exists t : string,
    (3 <= String.length t)%nat
    /\ Audit.all_chars (fun c => negb (PyStr.is_char "<" c)) t = true
    /\ PyStr.contains ("<title>" +:+ t +:+ "</title>") html_l = true.

End Spec.

(** ** Sample data *)

Module Sample.
Import Py.

Definition no_float (_ : string) : option Z := None.
Definition dumps (_ : pyobj) : outcome string := Ok "[]".
Definition loads (_ : string) : option pyobj := None.

Definition empty_table : Db.table :=
  {| Db.rows := []; Db.last_rowid := 0 |}.

Definition bob_first : list (string * scalar) :=
  [ ("handle", PStr "@bob"); ("website", PStr "https://bob.example");
    ("phone", PStr "555 0100") ].

Definition bob_again : list (string * scalar) :=
  [ ("Handle", PStr "bob"); ("website", PStr "  ");
    ("bio", PStr "plumber") ].

(** The table after a first ingestion of [bob_first] from source x. *)
Definition bob_table : Db.table :=
  fst (Db.upsert_leads_from_rows no_float 100 empty_table [ bob_first ]
         "x" false None).

(** The same table after the operator marked the lead as contacted. *)
Definition bob_contacted : Db.table :=
  fst (Db.update_lead dumps loads bob_table 1
         [ ("status", Scalar (PStr "contacted")) ]).

(** A small page with a viewport tag, a title, a phone link and a quote
    phrase, and no script tag. *)
Definition acme_page : string :=
  "<html><head><meta name=" +:+ Audit.dquote +:+ "viewport" +:+ Audit.dquote
  +:+ " content=" +:+ Audit.dquote +:+ "width=device-width" +:+ Audit.dquote
  +:+ "><title>Acme Plumbing</title></head><body><a href=" +:+ Audit.dquote
  +:+ "tel:5551234" +:+ Audit.dquote
  +:+ ">Phone</a><p>Get a free quote today.</p></body></html>".

Definition ten_seconds : pyfloat :=
  {| float_truth := true; float_str := "10.0"; float_sqltext := "10.0" |}.

Definition default_cfg : Audit.AuditConfig :=
  {| Audit.timeout_s := ten_seconds;
     Audit.max_bytes := 450000;
     Audit.sleep_s := ten_seconds |}.

(** A configuration whose byte cap is below the size of [acme_page]. *)
Definition small_cfg : Audit.AuditConfig :=
  {| Audit.timeout_s := ten_seconds;
     Audit.max_bytes := 170;
     Audit.sleep_s := ten_seconds |}.

(** A network that serves [acme_page] for every request, up to the number
    of bytes the request reads. *)
Definition acme_net (req : Audit.request) : Audit.fetch_outcome :=
  Audit.Response
    {| Audit.resp_status := Some 200;
       Audit.resp_geturl := Audit.req_url req;
       Audit.resp_content_type := Some "text/html; charset=utf-8";
       Audit.resp_data :=
         PyStr.take (Z.to_nat (Audit.req_read req)) acme_page |}.

Definition ascii_decode (bytes : string) : string := bytes.
Definition any_netloc (_ : string) : bool := true.

End Sample.

(** ** Further vocabulary: table invariants *)

Module Shape.
Import Py Db.

(** The identity of a stored row. *)
Definition identity (l : lead) : string * string := (source l, handle l).

(** What the schema promises of the table: UNIQUE(source, handle), a
    primary key, and row ids that never exceed the AUTOINCREMENT counter. *)
Definition well_formed (t : table) : Prop :=
  NoDup (map identity (rows t))
  /\ NoDup (map lead_id (rows t))
  /\ Forall (fun i => i <= last_rowid t) (map lead_id (rows t)).

(** The row is persisted: its parameters are bound and the statement
    runs. *)
Definition persists (ps : outcome (option insert_params)) : bool :=
  match ps with
  | Ok (Some _) => true
  | _ => false
  end.

(** The columns an ingestion always overwrites. *)
Definition refreshed_columns (l : lead) :=
  (name l, bio l, followers l, location l, recent_post_snippet l,
   signal_keywords_matched l, score l, reason l).

(** The columns only the audit sweep writes. *)
Definition audit_columns (l : lead) :=
  (website_score l, website_verdict l, website_findings l,
   website_checked_at l, website_final_url l, website_http_status l).

(** A row up to the time it was last seen. *)
Definition erase_last_seen (l : lead) : lead :=
  {| lead_id := lead_id l;
     source := source l;
     handle := handle l;
     profile_url := profile_url l;
     name := name l;
     bio := bio l;
     followers := followers l;
     location := location l;
     website := website l;
     phone := phone l;
     email := email l;
     recent_post_snippet := recent_post_snippet l;
     signal_keywords_matched := signal_keywords_matched l;
     score := score l;
     reason := reason l;
     website_score := website_score l;
     website_verdict := website_verdict l;
     website_findings := website_findings l;
     website_checked_at := website_checked_at l;
     website_final_url := website_final_url l;
     website_http_status := website_http_status l;
     status := status l;
     notes := notes l;
     tags := tags l;
     last_seen_at := 0;
     created_at := created_at l |}.

(** The parameters of a row bound at another time. *)
Definition seen_at (now : Z) (p : insert_params) : insert_params :=
  {| p_source := p_source p;
     p_handle := p_handle p;
     p_profile_url := p_profile_url p;
     p_name := p_name p;
     p_bio := p_bio p;
     p_followers := p_followers p;
     p_location := p_location p;
     p_website := p_website p;
     p_phone := p_phone p;
     p_email := p_email p;
     p_recent_post_snippet := p_recent_post_snippet p;
     p_signal_keywords_matched := p_signal_keywords_matched p;
     p_score := p_score p;
     p_reason := p_reason p;
     p_last_seen_at := now;
     p_created_at := now |}.

(** The source tag as [upsert_leads_from_rows] passes it on. *)
Definition batch_source (source : string) : string :=
  PyStr.lower
    (PyStr.strip (if PyStr.is_empty source then "manual" else source)).

(** Every value of the row is a string or missing. *)
Definition text_row (r : list (string * scalar)) : Prop :=
  Forall (fun kv => Spec.text_value (snd kv) = true) r.

(** Text values everywhere but under the key [score]. *)
Definition text_but_score (out : gmap string scalar) : Prop :=
  forall k, k <> "score" -> Spec.text_value (dict_get out k) = true.

(** Two keys that the normaliser cannot tell apart. *)
Definition same_key_text (k k' : string) : Prop :=
  PyStr.lower (PyStr.strip k) = PyStr.lower (PyStr.strip k').

(** A row without any identity, and a batch that holds it. *)
Definition nameless_row : list (string * scalar) :=
  [ ("bio", PStr "no handle here") ].

Definition mixed_batch : list (list (string * scalar)) :=
  [ nameless_row; Sample.bob_first; Sample.bob_again ].

End Shape.

(** ** Further vocabulary: audit results *)

Module Verdict.
Import Audit.

(** The verdicts of [audit_website] with the scores each can carry. *)
Definition band (verdict : string) (score : Z) : Prop :=
  (verdict = "no_website" /\ score = 0)
  \/ (verdict = "unreachable" /\ score = 5)
  \/ (verdict = "parked_or_placeholder" /\ score = 10)
  \/ (verdict = "weak_link_in_bio" /\ score = 20)
  \/ (verdict = "weak_site" /\ 0 <= score <= 35)
  \/ (verdict = "basic_site" /\ 36 <= score <= 65)
  \/ (verdict = "good_site" /\ 66 <= score <= 100).

(** The one request an audit can send. *)
Definition request_of (url : string) (cfg : AuditConfig) : request :=
  {| req_url := _normalize_url (PyStr.strip url);
     req_headers := headers;
     req_timeout := timeout_s cfg;
     req_read := max_bytes cfg + 1 |}.

(** A network that is down. *)
Definition offline (_ : request) : fetch_outcome := FetchError "URLError".

End Verdict.

(** ** Queries over the table of leads *)

Module Queries.
Import Py Db.

(** The optional [source = ?] condition of a WHERE clause. *)
Definition source_filter (source : string) (l : lead) : bool :=
  let s := PyStr.strip source in
  if PyStr.is_empty s then true else String.eqb (Db.source l) s.

(** One selected row reaching its GROUP BY bucket. *)
Definition group_count (m : gmap string Z) (l : lead) : gmap string Z :=
  <[ status l := default 0 (m !! status l) + 1 ]> m.

(** [SELECT status, COUNT( * ) ... GROUP BY status], as the dictionary
    [status_counts] builds from it. *)
Definition status_counts (t : table) (source : string) : gmap string Z :=
  fold_left group_count (List.filter (source_filter source) (rows t)) ∅.

End Queries.

Module Tally.
Import Py Db.

(** The leads of a status among those a source filter selects. *)
Definition selected (source s : string) (l : lead) : bool :=
  Queries.source_filter source l && String.eqb (status l) s.

Definition tally (source s : string) (l : list lead) : Z :=
  Z.of_nat (length (List.filter (selected source s) l)).

(** A contacted lead beside a new one. *)
Definition two_leads : table :=
  {| rows := rows Sample.bob_contacted
             ++ [ inserted_row 2
                    {| p_source := "x"; p_handle := "ann";
                       p_profile_url := None; p_name := "Ann";
                       p_bio := ""; p_followers := None; p_location := "";
                       p_website := ""; p_phone := ""; p_email := "";
                       p_recent_post_snippet := "";
                       p_signal_keywords_matched := ""; p_score := None;
                       p_reason := ""; p_last_seen_at := 5;
                       p_created_at := 5 |} ];
     last_rowid := 2 |}.

End Tally.

(** ** Further vocabulary: reasons *)

Module Reasons.
Import Scoring.

(** An entry lowers the score exactly when its code carries [neg:]. *)
Definition signed (e : entry) : Prop :=
  (PyStr.starts_with "neg:" (snd e) = true /\ fst e < 0)
  \/ (PyStr.starts_with "neg:" (snd e) = false /\ 0 < fst e).

End Reasons.

(** ** The audit sweep *)

(** [leads_needing_website_audit] and [update_website_audit] of
    [db.py], [audit_leads] of [audit.py], and the body of [_audit_job] of
    [main.py] that joins them, from the parsed [max_sites] and
    configuration on; the table of runs is left out. *)
Module Sweep.
Import Py Db.

(** [website_checked_at IS NULL] *)
Definition unchecked (l : lead) : bool := is_none (website_checked_at l).

(** NULL sorts below every integer. *)
Definition null_le (a b : option Z) : bool :=
  match a, b with
  | None, _ => true
  | Some _, None => false
  | Some x, Some y => x <=? y
  end.

Definition null_lt (a b : option Z) : bool := negb (null_le b a).

(** [ORDER BY score DESC, followers DESC, last_seen_at DESC]: the row
    [x] may stand before the row [y]. *)
Definition precedes (x y : lead) : bool :=
  if null_lt (score y) (score x) then true
  else if null_lt (score x) (score y) then false
  else if null_lt (followers y) (followers x) then true
  else if null_lt (followers x) (followers y) then false
  else last_seen_at y <=? last_seen_at x.

(** The sort of the ORDER BY clause. Rows that tie keep the order of the
    table, which SQL leaves open. *)
Fixpoint insert_by (x : lead) (l : list lead) : list lead :=
  match l with
  | [] => [x]
  | y :: rest => if precedes x y then x :: l else y :: insert_by x rest
  end.

Definition order_by (l : list lead) : list lead := fold_right insert_by [] l.

(** [LIMIT ?]: a negative bound is no bound. *)
Definition limit {A : Type} (n : Z) (l : list A) : list A :=
  if n <? 0 then l else firstn (Z.to_nat n) l.

(** The four columns of the SELECT. *)
Record candidate : Type := {
  cand_id : Z;
  cand_handle : string;
  cand_website : option string;
  cand_checked_at : option Z
}.

Definition select_candidate (l : lead) : candidate :=
  {| cand_id := lead_id l;
     cand_handle := handle l;
     cand_website := website l;
     cand_checked_at := website_checked_at l |}.

Definition leads_needing_website_audit (t : table) (max_sites : Z)
  : outcome (list candidate) :=
  if int64 max_sites then
    Ok (map select_candidate
          (limit max_sites (order_by (List.filter unchecked (rows t)))))
  else Raise OverflowError.

(** The SET clause of [update_website_audit]. *)
Definition set_audit (score : option Z) (verdict findings : string)
  (checked_at : option Z) (final_url : string) (http_status : option Z)
  (l : lead) : lead :=
  {| lead_id := lead_id l;
     source := source l;
     handle := handle l;
     profile_url := profile_url l;
     name := name l;
     bio := bio l;
     followers := followers l;
     location := location l;
     website := website l;
     phone := phone l;
     email := email l;
     recent_post_snippet := recent_post_snippet l;
     signal_keywords_matched := signal_keywords_matched l;
     score := Db.score l;
     reason := reason l;
     website_score := score;
     website_verdict := Some verdict;
     website_findings := Some findings;
     website_checked_at := checked_at;
     website_final_url := Some final_url;
     website_http_status := http_status;
     status := status l;
     notes := notes l;
     tags := tags l;
     last_seen_at := last_seen_at l;
     created_at := created_at l |}.

(** [(v or "").strip()] for a string [v]. *)
Definition or_empty_strip (v : string) : string :=
  PyStr.strip (if PyStr.is_empty v then "" else v).

(** An optional integer of the result dictionary as a Python value. *)
Definition int_value (o : option Z) : scalar :=
  match o with
  | Some z => PInt z
  | None => PNone
  end.

(** Computations of the sweep: one [audit_website] call after another,
    with a pause after each. *)
Inductive sweep (A : Type) : Type :=
| Done : A -> sweep A
| Visit : Audit.io Audit.audit_result
          -> (Audit.audit_result -> sweep A) -> sweep A
| Sleep : pyfloat -> sweep A -> sweep A.
Arguments Done {A} _.
Arguments Visit {A} _ _.
Arguments Sleep {A} _ _.

Fixpoint sweep_bind {A B : Type} (m : sweep A) (k : A -> sweep B)
  : sweep B :=
  match m with
  | Done a => k a
  | Visit a f => Visit a (fun r => sweep_bind (f r) k)
  | Sleep d m' => Sleep d (sweep_bind m' k)
  end.

(** Running a sweep: the [k]-th audit reads the clock value [clock k]
    and meets the network [net k]. *)
Fixpoint run_sweep {A : Type} (clock : nat -> Z)
  (net : nat -> Audit.request -> Audit.fetch_outcome) (k : nat)
  (m : sweep A) : A :=
  match m with
  | Done a => a
  | Visit a f =>
      run_sweep clock net (S k) (f (Audit.run (clock k) (net k) a))
  | Sleep _ m' => run_sweep clock net k m'
  end.

(** The pauses of a run, in order. *)
Fixpoint pauses {A : Type} (clock : nat -> Z)
  (net : nat -> Audit.request -> Audit.fetch_outcome) (k : nat)
  (m : sweep A) : list pyfloat :=
  match m with
  | Done _ => []
  | Visit a f =>
      pauses clock net (S k) (f (Audit.run (clock k) (net k) a))
  | Sleep d m' => d :: pauses clock net k m'
  end.

Section WithLibrary.

Variable int_of_float_str : string -> option Z.
Variable decode : string -> string.
Variable netloc_valid : string -> bool.
(** [max(0.0, x)] *)
Variable float_max0 : pyfloat -> pyfloat.

Definition update_website_audit (t : table) (lead_id : Z)
  (result : Audit.audit_result) : outcome table :=
  let! score :=
    bind_int (_to_int int_of_float_str
                (PInt (Audit.website_score result))) in
  let verdict := or_empty_strip (Audit.website_verdict result) in
  let findings := or_empty_strip (Audit.website_findings result) in
  let! checked_at :=
    bind_int (_to_int int_of_float_str
                (PInt (Audit.website_checked_at result))) in
  let final_url := or_empty_strip (Audit.website_final_url result) in
  let! http_status :=
    bind_int (_to_int int_of_float_str
                (int_value (Audit.website_http_status result))) in
  let! _ := bind_int (Some lead_id) in
  Ok {| rows :=
          map (fun l =>
                 if has_id lead_id l
                 then set_audit score verdict findings checked_at
                        final_url http_status l
                 else l) (rows t);
        last_rowid := last_rowid t |}.

(** The loop of [audit_leads], with the list [out] it appends to. *)
Fixpoint audit_loop (urls : list (Z * string)) (cfg : Audit.AuditConfig)
  (out : list (Z * Audit.audit_result))
  : sweep (list (Z * Audit.audit_result)) :=
  match urls with
  | [] => Done out
  | (lead_id, url) :: rest =>
      Visit (Audit.audit_website decode netloc_valid url cfg)
        (fun result =>
           Sleep (float_max0 (Audit.sleep_s cfg))
             (audit_loop rest cfg (out ++ [ (lead_id, result) ])))
  end.

Definition audit_leads (urls : list (Z * string)) (cfg : Audit.AuditConfig)
  : sweep (list (Z * Audit.audit_result)) :=
  audit_loop urls cfg [].

(** The second loop of [_audit_job]: every update is committed, and the
    first exception ends the loop. *)
Fixpoint store_results (results : list (Z * Audit.audit_result))
  (t : table) : table * outcome unit :=
  match results with
  | [] => (t, Ok tt)
  | (lead_id, result) :: rest =>
      match update_website_audit t lead_id result with
      | Raise e => (t, Raise e)
      | Ok t' => store_results rest t'
      end
  end.

(** The table [_audit_job] leaves, and whether the run is finished as
    [ok] or as [error]. *)
Definition _audit_job (max_sites : Z) (cfg : Audit.AuditConfig)
  (t : table) : sweep (table * outcome unit) :=
  match leads_needing_website_audit t max_sites with
  | Raise e => Done (t, Raise e)
  | Ok candidates =>
      let id_urls :=
        map (fun r => (cand_id r, default "" (cand_website r)))
          candidates in
      sweep_bind (audit_leads id_urls cfg)
        (fun results => Done (store_results results t))
  end.

(** What the sweep is to return for [urls], from the [k]-th audit on. *)
Fixpoint audited (clock : nat -> Z)
  (net : nat -> Audit.request -> Audit.fetch_outcome)
  (cfg : Audit.AuditConfig) (k : nat) (urls : list (Z * string))
  : list (Z * Audit.audit_result) :=
  match urls with
  | [] => []
  | (lead_id, url) :: rest =>
      (lead_id,
       Audit.run (clock k) (net k)
         (Audit.audit_website decode netloc_valid url cfg))
      :: audited clock net cfg (S k) rest
  end.

End WithLibrary.

(** *** Vocabulary of the properties *)

(** The columns no audit writes. *)
Definition erase_audit (l : lead) : lead :=
  set_audit None "" "" None "" None l.

(** Every integer the world hands out fits a database integer. *)
Definition fits (o : Audit.fetch_outcome) : Prop :=
  match o with
  | Audit.HTTPError code => int64 code = true
  | Audit.FetchError _ => True
  | Audit.Response resp =>
      match Audit.resp_status resp with
      | Some z => int64 z = true
      | None => True
      end
  end.

Definition sane (clock : nat -> Z)
  (net : nat -> Audit.request -> Audit.fetch_outcome) : Prop :=
  (forall k, int64 (clock k) = true) /\ (forall k req, fits (net k req)).

(** The row after an audit result is stored in it. *)
Definition stored (r : Audit.audit_result) (l : lead) : lead :=
  set_audit (Some (Audit.website_score r))
    (PyStr.strip (Audit.website_verdict r))
    (PyStr.strip (Audit.website_findings r))
    (Some (Audit.website_checked_at r))
    (PyStr.strip (Audit.website_final_url r))
    (Audit.website_http_status r) l.

(** The identifier and the integers of the result fit the database. *)
Definition storable (lead_id : Z) (r : Audit.audit_result) : Prop :=
  int64 lead_id = true
  /\ int64 (Audit.website_score r) = true
  /\ int64 (Audit.website_checked_at r) = true
  /\ match Audit.website_http_status r with
     | Some z => int64 z = true
     | None => True
     end.

Definition apply_result (l : lead) (ir : Z * Audit.audit_result) : lead :=
  if has_id (fst ir) l then stored (snd ir) l else l.

(** A clock that ticks through one hour, and a network that serves one
    page. *)
Definition ticking (k : nat) : Z := 1000 + Z.of_nat k mod 3600.
Definition one_page (_ : nat) : Audit.request -> Audit.fetch_outcome :=
  Sample.acme_net.
Definition same_float (x : pyfloat) : pyfloat := x.

(** Two unchecked leads with scores 7 and 3, and one checked lead. *)
Definition scored (i : Z) (h : string) (s : Z) (site : string) : lead :=
  inserted_row i
    {| p_source := "x"; p_handle := h; p_profile_url := None;
       p_name := ""; p_bio := ""; p_followers := None; p_location := "";
       p_website := site; p_phone := ""; p_email := "";
       p_recent_post_snippet := ""; p_signal_keywords_matched := "";
       p_score := Some s; p_reason := ""; p_last_seen_at := 1;
       p_created_at := 1 |}.

(** What an audit of a parked page returns. *)
Definition parked_result : Audit.audit_result :=
  {| Audit.website_score := 10;
     Audit.website_verdict := "parked_or_placeholder";
     Audit.website_findings := "Looks parked/placeholder/coming-soon.";
     Audit.website_http_status := Some 200;
     Audit.website_final_url := "https://acme.example";
     Audit.website_checked_at := 1000 |}.

Definition scored_leads : table :=
  {| rows := [ scored 2 "ann" 3 "acme.example";
               scored 1 "bob" 7 "";
               set_audit (Some 20) "weak_link_in_bio" "" (Some 900)
                 "https://linktr.ee/cy" None
                 (scored 3 "cy" 9 "linktr.ee/cy") ];
     last_rowid := 3 |}.

End Sweep.

(* ===================================================================== *)
(** * Part II: properties *)
(* ===================================================================== *)

(** ** Facts about strings *)

Module PyStrFacts.
Import PyStr.

Lemma append_nil_l (s : string) : EmptyString +:+ s = s.
Proof. reflexivity. Qed.

Lemma append_cons (c : ascii) (s t : string) :
  String c s +:+ t = String c (s +:+ t).
Proof. reflexivity. Qed.

Lemma append_nil_r (s : string) : s +:+ EmptyString = s.
Proof.
  induction s as [|c s IH]; [reflexivity|].
  rewrite append_cons, IH. reflexivity.
Qed.

Lemma append_assoc (s t u : string) : (s +:+ t) +:+ u = s +:+ (t +:+ u).
Proof.
  induction s as [|c s IH]; [reflexivity|].
  rewrite !append_cons, IH. reflexivity.
Qed.

Lemma length_append (s t : string) :
  String.length (s +:+ t) = (String.length s + String.length t)%nat.
Proof.
  induction s as [|c s IH]; [reflexivity|].
  rewrite append_cons. simpl. rewrite IH. reflexivity.
Qed.

Lemma is_empty_true (s : string) : is_empty s = true <-> s = EmptyString.
Proof. destruct s; simpl; split; congruence. Qed.

Lemma is_empty_false (s : string) : is_empty s = false <-> s <> EmptyString.
Proof. destruct s; simpl; split; congruence. Qed.

Lemma starts_with_append (p s : string) : starts_with p (p +:+ s) = true.
Proof.
  induction p as [|c p IH]; [reflexivity|].
  rewrite append_cons. simpl. rewrite Ascii.eqb_refl. exact IH.
Qed.

Lemma starts_with_split (p s : string) :
  starts_with p s = true -> s = p +:+ drop (String.length p) s.
Proof.
  revert s. induction p as [|c p IH]; intros s H; [reflexivity|].
  destruct s as [|d s]; [discriminate|].
  simpl in H. apply andb_true_iff in H as [Hc Hp].
  apply Ascii.eqb_eq in Hc. subst d.
  rewrite append_cons. simpl. f_equal. apply IH, Hp.
Qed.

Lemma contains_append (pre p post : string) :
  contains p (pre +:+ p +:+ post) = true.
Proof.
  induction pre as [|c pre IH].
  - rewrite append_nil_l. destruct (p +:+ post) eqn:E; simpl;
      rewrite <- E, starts_with_append; reflexivity.
  - rewrite append_cons. simpl. rewrite IH. apply orb_true_r.
Qed.

Lemma contains_split (p s : string) :
  contains p s = true -> exists pre post, s = pre +:+ p +:+ post.
Proof.
  induction s as [|c s IH]; simpl; intros H.
  - rewrite orb_false_r in H. apply starts_with_split in H.
    exists EmptyString, (drop (String.length p) EmptyString). exact H.
  - apply orb_true_iff in H as [H|H].
    + apply starts_with_split in H.
      exists EmptyString, (drop (String.length p) (String c s)). exact H.
    + destruct (IH H) as (pre & post & ->).
      exists (String c pre), post. reflexivity.
Qed.

Lemma contains_nonempty (p s : string) :
  is_empty p = false -> contains p s = true -> is_empty s = false.
Proof. destruct p, s; simpl; congruence. Qed.

(** [split(sep, 1)] cuts at the first occurrence of [sep]. *)
Lemma split_once_after_first (sep s : string) :
  contains sep s = true ->
  exists a, split_once sep s = Some (a, Spec.after_first sep s).
Proof.
  induction s as [|c s IH]; simpl; intros H.
  - rewrite orb_false_r in H. rewrite H. eauto.
  - destruct (starts_with sep (String c s)) eqn:E; [eauto|].
    simpl in H. destruct (IH H) as [a ->]. eauto.
Qed.

(** [split(c, 1)[0]] is what precedes the first [c]. *)
Lemma split_head_up_to (c : ascii) (s : string) :
  split_head (String c EmptyString) s = Spec.up_to c s.
Proof.
  unfold split_head, Spec.up_to.
  induction s as [|d s IH]; [reflexivity|].
  simpl. unfold is_char at 1.
  destruct (Ascii.eqb c d) eqn:E; simpl.
  - reflexivity.
  - destruct (split_once (String c EmptyString) s) as [[a b]|];
      simpl in *; congruence.
Qed.

End PyStrFacts.

(** ** Facts about patterns: the matcher finds every match *)

Module RegexFacts.
Import Regex Lang PyStrFacts.

Lemma append_is_nil (s t : string) :
  s +:+ t = EmptyString -> s = EmptyString /\ t = EmptyString.
Proof. destruct s; [auto|discriminate]. Qed.

Lemma nullable_complete (r : regex) (w : string) :
  matches r w -> w = EmptyString -> nullable r = true.
Proof.
  induction 1 as [ | p c Hp | a b s t Ha IHa Hb IHb | a b s Ha IHa
                 | a b s Hb IHb | a | a s t Ha IHa Ht IHt ];
    intros E; simpl; try reflexivity; try discriminate.
  - apply append_is_nil in E as [-> ->]. rewrite IHa, IHb; reflexivity.
  - rewrite IHa; auto.
  - rewrite IHb; auto using orb_true_r.
Qed.

Lemma deriv_complete (r : regex) (w : string) :
  matches r w ->
  forall c s, w = String c s -> matches (deriv c r) s.
Proof.
  induction 1 as [ | p c Hp | a b s t Ha IHa Hb IHb | a b s Ha IHa
                 | a b s Hb IHb | a | a s t Ha IHa Ht IHt ];
    intros x u E; simpl; try discriminate.
  - injection E as -> <-. rewrite Hp. constructor.
  - destruct s as [|d s].
    + rewrite append_nil_l in E.
      rewrite (nullable_complete a EmptyString Ha eq_refl).
      apply m_alt_r. eauto.
    + rewrite append_cons in E. injection E as -> <-.
      destruct (nullable a);
        [apply m_alt_l|]; apply m_cat; eauto.
  - apply m_alt_l. eauto.
  - apply m_alt_r. eauto.
  - destruct s as [|d s].
    + rewrite append_nil_l in E. eauto.
    + rewrite append_cons in E. injection E as -> <-.
      apply m_cat; eauto.
Qed.

Lemma is_void_sound (r : regex) (w : string) :
  matches r w -> is_void r = false.
Proof.
  induction 1; simpl; try reflexivity;
    repeat match goal with H : _ = false |- _ => rewrite H end;
    auto using andb_false_r.
Qed.

Lemma match_prefix_unfold (r : regex) (s : string) :
  match_prefix r s =
  nullable r
  || match s with
     | EmptyString => false
     | String c s' =>
         if is_void (deriv c r) then false
         else match_prefix (deriv c r) s'
     end.
Proof. destruct s; reflexivity. Qed.

Lemma match_prefix_complete (m post : string) :
  forall r, matches r m -> match_prefix r (m +:+ post) = true.
Proof.
  induction m as [|c m IH]; intros r H.
  - rewrite append_nil_l, match_prefix_unfold.
    rewrite (nullable_complete r EmptyString H eq_refl). reflexivity.
  - rewrite append_cons, match_prefix_unfold.
    pose proof (deriv_complete r _ H c m eq_refl) as Hd.
    rewrite (is_void_sound _ _ Hd), (IH _ Hd). apply orb_true_r.
Qed.

Lemma search_here (r : regex) (s : string) :
  match_prefix r s = true -> search r s = true.
Proof. intros H. destruct s; simpl in *; rewrite H; reflexivity. Qed.

Lemma search_complete (r : regex) (pre m post : string) :
  matches r m -> search r (pre +:+ m +:+ post) = true.
Proof.
  intros H. induction pre as [|c pre IH].
  - rewrite append_nil_l. apply search_here, match_prefix_complete, H.
  - rewrite append_cons. simpl. rewrite IH. apply orb_true_r.
Qed.

Lemma lit_matches (s : string) : matches (lit s) s.
Proof.
  induction s as [|c s IH]; simpl; [constructor|].
  change (String c s) with (String c EmptyString +:+ s).
  apply m_cat; [|exact IH].
  constructor. apply Ascii.eqb_refl.
Qed.

Lemma star_class_matches (p : ascii -> bool) (t : string) :
  Audit.all_chars p t = true -> matches (Star (Cls p)) t.
Proof.
  induction t as [|c t IH]; simpl; intros H; [constructor|].
  apply andb_true_iff in H as [Hc Ht].
  change (String c t) with (String c EmptyString +:+ t).
  apply m_star_app; [constructor; exact Hc|auto].
Qed.

Lemma at_least_matches (p : ascii -> bool) (n : nat) :
  forall t, Audit.all_chars p t = true -> (n <= String.length t)%nat ->
            matches (at_least n (Cls p)) t.
Proof.
  induction n as [|n IH]; intros t Hall Hlen; simpl.
  - apply star_class_matches, Hall.
  - destruct t as [|c t]; simpl in *; [lia|].
    apply andb_true_iff in Hall as [Hc Ht].
    change (String c t) with (String c EmptyString +:+ t).
    apply m_cat; [constructor; exact Hc|apply IH; [exact Ht|lia]].
Qed.

End RegexFacts.

(** ** Scoring *)

(** ** Scoring *)

Module ScoringFacts.
Import Py Scoring Spec PyStrFacts.

Lemma total_from (es : list entry) (z : Z) :
  fold_left (fun acc e => acc + fst e) es z = z + total es.
Proof.
  unfold total. revert z.
  induction es as [|e es IH]; intros z; simpl; [lia|].
  rewrite IH, (IH (0 + fst e)).
  generalize (fold_left (fun acc e0 => acc + fst e0) es 0). intros; lia.
Qed.

Lemma total_app (a b : list entry) : total (a ++ b) = total a + total b.
Proof.
  unfold total at 1. rewrite fold_left_app, total_from. reflexivity.
Qed.

Lemma clamp_range (z : Z) : 0 <= clamp z <= 100.
Proof. unfold clamp. lia. Qed.

Lemma clamp_mono (a b : Z) : a <= b -> clamp a <= clamp b.
Proof. unfold clamp. lia. Qed.

Lemma clamp_id (z : Z) : 0 <= z <= 100 -> clamp z = z.
Proof. unfold clamp. lia. Qed.

(** The context is a function of the eight fields the code reads. *)
Lemma row_ctx_ext (r1 r2 : gmap string scalar) :
  (forall k, In k fields -> dict_get r1 k = dict_get r2 k) ->
  row_ctx r1 = row_ctx r2.
Proof.
  intros H. unfold row_ctx.
  assert (Hf : forall k, In k fields -> field r1 k = field r2 k).
  { intros k Hk. unfold field. rewrite (H k Hk). reflexivity. }
  rewrite (map_ext_in _ _ _ Hf).
  rewrite (Hf "website"), (Hf "phone"); [reflexivity| |];
    unfold fields; simpl; tauto.
Qed.

Lemma sublist_map {A B : Type} (f : A -> B) (l1 l2 : list A) :
  l1 `sublist_of` l2 -> map f l1 `sublist_of` map f l2.
Proof. induction 1; simpl; constructor; assumption. Qed.

Lemma sublist_filter_bool {A : Type} (p : A -> bool) (l : list A) :
  List.filter p l `sublist_of` l.
Proof.
  induction l as [|x l IH]; simpl; [constructor|].
  destruct (p x); constructor; exact IH.
Qed.

Lemma sublist_sorted {A : Type} (R : A -> A -> Prop) (l1 l2 : list A) :
  l1 `sublist_of` l2 -> StronglySorted R l2 -> StronglySorted R l1.
Proof.
  induction 1 as [|x l1 l2 Hs IH|x l1 l2 Hs IH]; intros Hsorted.
  - constructor.
  - apply StronglySorted_inv in Hsorted as [Hl2 Hx].
    constructor; [auto|].
    rewrite List.Forall_forall in *. intros y Hy. apply Hx.
    apply list_elem_of_In. eapply elem_of_sublist; [|exact Hs].
    apply list_elem_of_In, Hy.
  - apply StronglySorted_inv in Hsorted as [Hl2 _]. auto.
Qed.

Lemma seq_sorted (n a : nat) : StronglySorted lt (seq a n).
Proof.
  revert a. induction n as [|n IH]; intros a; simpl; constructor; [auto|].
  rewrite List.Forall_forall. intros y Hy. apply in_seq in Hy. lia.
Qed.

Lemma token_rule_legible (tag : string) (table : list (string * Z))
  (c : ctx) :
  In tag category_tags ->
  Forall legible (map snd (token_rule tag table c)).
Proof.
  intros Htag. unfold token_rule. rewrite map_map. simpl.
  rewrite List.Forall_forall. intros code Hin.
  apply in_map_iff in Hin as (kp & <- & _). left.
  unfold has_category_tag. apply existsb_exists.
  exists tag. split; [exact Htag|apply starts_with_append].
Qed.

Lemma token_rule_ranks (tag : string) (table : list (string * Z))
  (c : ctx) :
  map rule_rank (map snd (token_rule tag table c))
  `sublist_of` map (fun kp => rule_rank (tag +:+ fst kp)) table.
Proof.
  unfold token_rule. rewrite !map_map. simpl.
  apply sublist_map, sublist_filter_bool.
Qed.

Ltac split_rule :=
  match goal with
  | |- context [List.filter ?p ?l] => destruct (List.filter p l)
  | |- context [if ?b then _ else _] => destruct b
  | |- context [match ?x with ws_none => _ | _ => _ end] => destruct x
  end.

Lemma fire_before (c : ctx) :
  fire rules_before_whatsapp c =
  rule_intent c ++ rule_pain c ++ rule_service c ++ rule_role c
  ++ rule_owner c ++ rule_website c ++ rule_fit c.
Proof.
  unfold fire, rules_before_whatsapp, concat, map.
  rewrite app_nil_r. reflexivity.
Qed.

Lemma fire_after (c : ctx) :
  fire rules_after_whatsapp c =
  rule_phone c ++ rule_tel c ++ rule_email c ++ rule_negative c
  ++ rule_committee c.
Proof.
  unfold fire, rules_after_whatsapp, concat, map.
  rewrite app_nil_r. reflexivity.
Qed.

Lemma fired_legible (c : ctx) : Forall legible (map snd (fired c)).
Proof.
  unfold fired. rewrite fire_before, fire_after, !map_app, !Forall_app.
  repeat split;
    try (apply token_rule_legible; unfold category_tags; simpl; tauto).
  - unfold rule_intent, matched. split_rule; repeat constructor.
  - unfold rule_pain, matched. split_rule; repeat constructor.
  - unfold rule_owner. split_rule; repeat constructor.
  - unfold rule_website, website_rule.
    repeat split_rule;
      (constructor;
       [right; unfold website_codes; simpl; tauto|constructor]).
  - unfold rule_fit. repeat split_rule; repeat constructor.
  - unfold rule_whatsapp. split_rule; repeat constructor.
  - unfold rule_phone. split_rule; repeat constructor.
  - unfold rule_tel. split_rule; repeat constructor.
  - unfold rule_email. split_rule; repeat constructor.
  - unfold rule_committee, matched. split_rule; repeat constructor.
Qed.

Ltac one_rank :=
  repeat split_rule; simpl;
  try apply sublist_nil_l;
  try (apply sublist_skip; apply sublist_nil_l).

Lemma fired_ranks (c : ctx) :
  map rule_rank (map snd (fired c)) `sublist_of` seq 0 63.
Proof.
  change (seq 0 63) with
    (([0] ++ [1]
      ++ map (fun kp => rule_rank ("svc:" +:+ fst kp)) service_tokens
      ++ map (fun kp => rule_rank ("role:" +:+ fst kp)) solo_seller_tokens
      ++ [33] ++ [34] ++ [35])
     ++ [36]
     ++ ([37] ++ [38] ++ [39]
         ++ map (fun kp => rule_rank ("neg:" +:+ fst kp)) negative
         ++ [62]))%nat.
  unfold fired. rewrite fire_before, fire_after, !map_app.
  repeat apply sublist_app; try apply token_rule_ranks.
  - unfold rule_intent, matched. one_rank.
  - unfold rule_pain, matched. one_rank.
  - unfold rule_owner. one_rank.
  - unfold rule_website, website_rule. one_rank.
  - unfold rule_fit. one_rank.
  - unfold rule_whatsapp. one_rank.
  - unfold rule_phone. one_rank.
  - unfold rule_tel. one_rank.
  - unfold rule_email. one_rank.
  - unfold rule_committee, matched. one_rank.
Qed.

Lemma other_rules_split (c c' : ctx) :
  other_rules c' = other_rules c ->
  fire rules_before_whatsapp c' = fire rules_before_whatsapp c
  /\ fire rules_after_whatsapp c' = fire rules_after_whatsapp c.
Proof.
  unfold other_rules, fire. rewrite !map_app. intros H.
  apply app_inj_1 in H as [-> ->]; [split; reflexivity|].
  rewrite !length_map. reflexivity.
Qed.

Lemma rule_whatsapp_fires (c : ctx) :
  rule_whatsapp c <> [] -> rule_whatsapp c = [ (18, "contact:whatsapp") ].
Proof. unfold rule_whatsapp. destruct (_ || _); congruence. Qed.

Lemma raw_score_split (r : gmap string scalar) :
  raw_score r =
  total (fire rules_before_whatsapp (row_ctx r))
  + total (rule_whatsapp (row_ctx r))
  + total (fire rules_after_whatsapp (row_ctx r)).
Proof.
  unfold raw_score, fired. rewrite !total_app. apply Z.add_assoc.
Qed.

Lemma score_row_fst (r : gmap string scalar) :
  fst (score_row r) = clamp (raw_score r).
Proof. unfold score_row, raw_score. reflexivity. Qed.

Lemma score_row_snd (r : gmap string scalar) :
  snd (score_row r) = map snd (fired (row_ctx r)).
Proof. unfold score_row. reflexivity. Qed.

End ScoringFacts.

(** *** The claims about scoring *)

(** C4. [score_row] is a pure function of the eight fields it reads: two rows
    that agree on them get the same score and the same reasons, and the
    score is an integer between 0 and 100. *)
Theorem score_row_pure_and_bounded (r1 r2 : gmap string Py.scalar) :
  (forall k, In k Scoring.fields -> Py.dict_get r1 k = Py.dict_get r2 k) ->
  Scoring.score_row r1 = Scoring.score_row r2
  /\ 0 <= fst (Scoring.score_row r1) <= 100.
Proof.
  intros H. split.
  - unfold Scoring.score_row.
    rewrite (ScoringFacts.row_ctx_ext r1 r2 H). reflexivity.
  - rewrite ScoringFacts.score_row_fst. apply ScoringFacts.clamp_range.
Qed.

Lemma score_row_pure_and_bounded_witness :
  Scoring.score_row {[ "bio" := Py.PStr "Plumber, call today" ]} =
  Scoring.score_row
    (<[ "status" := Py.PStr "won" ]> {[ "bio" := Py.PStr "Plumber, call today" ]})
  /\ 0 <= fst (Scoring.score_row {[ "bio" := Py.PStr "Plumber, call today" ]})
     <= 100.
Proof.
  apply score_row_pure_and_bounded.
  intros k Hk. unfold Scoring.fields in Hk. simpl in Hk.
  repeat (destruct Hk as [<-|Hk]; [vm_compute; reflexivity|]).
  contradiction.
Defined.

(** C5, as stated, fails: the website-state rule adds a code without a
    category tag. The empty row gets the single reason [no_website]. *)
Lemma reasons_not_all_tagged :
  ~ Forall (fun code => Spec.has_category_tag code = true)
      (snd (Scoring.score_row ∅)).
Proof.
  intros H.
  assert (E : snd (Scoring.score_row ∅) = [ "no_website" ])
    by (vm_compute; reflexivity).
  rewrite E in H. inversion H as [|x l Hx Hl]. vm_compute in Hx. discriminate.
Qed.

(** C5, amended. Every reason code of [score_row] carries one of the eight
    category tags or is one of the four website-state codes, and the codes
    stand in the order in which the rules run (strictly increasing rule
    rank), not by magnitude. *)
Theorem reasons_legible_in_rule_order (r : gmap string Py.scalar) :
  Forall Spec.legible (snd (Scoring.score_row r))
  /\ StronglySorted lt (map Spec.rule_rank (snd (Scoring.score_row r))).
Proof.
  rewrite ScoringFacts.score_row_snd. split.
  - apply ScoringFacts.fired_legible.
  - eapply ScoringFacts.sublist_sorted;
      [apply ScoringFacts.fired_ranks|apply ScoringFacts.seq_sorted].
Qed.




(** ** Normalisation and merge *)

Module DbFacts.
Import Py Db Spec PyStrFacts.

Lemma eqb_empty (s : string) : String.eqb s "" = PyStr.is_empty s.
Proof. destruct s; reflexivity. Qed.

(** [COALESCE(NULLIF(excluded.c, ''), leads.c)]: the incoming value wins
    exactly when it is a non-empty text. *)
Lemma keep_if_new_nonempty (incoming : string) (stored : option string) :
  COALESCE (NULLIF (Some incoming) "") stored =
  if PyStr.is_empty incoming then stored else Some incoming.
Proof.
  unfold NULLIF, COALESCE. rewrite eqb_empty.
  destruct (PyStr.is_empty incoming); reflexivity.
Qed.

Lemma same_key_do_update (src hdl : string) (excluded l : lead) :
  same_key src hdl (do_update excluded l) = same_key src hdl l.
Proof. reflexivity. Qed.

Lemma update_where_found (hit : lead -> bool) (f : lead -> lead)
  (l : list lead) (old : lead) :
  (forall x, hit (f x) = hit x) ->
  List.find hit l = Some old ->
  exists l', update_where hit f l = Some l'
             /\ List.find hit l' = Some (f old).
Proof.
  intros Hf. induction l as [|x l IH]; simpl; [discriminate|].
  destruct (hit x) eqn:E.
  - intros [= ->]. eexists. split; [reflexivity|].
    simpl. rewrite Hf, E. reflexivity.
  - intros H. destruct (IH H) as (l' & -> & Hl').
    eexists. split; [reflexivity|]. simpl. rewrite E. exact Hl'.
Qed.

(** A conflicting INSERT updates the stored row in place. *)
Lemma sql_upsert_conflict (p : insert_params) (t : table) (old : lead) :
  find_lead (p_source p) (p_handle p) t = Some old ->
  find_lead (p_source p) (p_handle p) (sql_upsert p t) =
  Some (do_update (inserted_row (last_rowid t + 1) p) old).
Proof.
  unfold find_lead, sql_upsert. intros H.
  destruct (update_where_found (same_key (p_source p) (p_handle p))
              (do_update (inserted_row (last_rowid t + 1) p))
              (rows t) old) as (l' & -> & Hl'); [reflexivity|exact H|].
  exact Hl'.
Qed.

(** Whatever row a statement meets, the row found under a key keeps its
    operator-owned columns. *)
Lemma update_where_operator_columns (hit : lead -> bool) (f : lead -> lead)
  (src hdl : string) (l l' : list lead) (old : lead) :
  (forall x, same_key src hdl (f x) = same_key src hdl x) ->
  (forall x, same_operator_columns x (f x)) ->
  List.find (same_key src hdl) l = Some old ->
  update_where hit f l = Some l' ->
  exists new, List.find (same_key src hdl) l' = Some new
              /\ same_operator_columns old new.
Proof.
  intros Hkey Hf. revert l'.
  induction l as [|x l IH]; simpl; intros l' Hfind Hup; [discriminate|].
  destruct (hit x) eqn:Ehit.
  - injection Hup as <-. simpl. rewrite Hkey.
    destruct (same_key src hdl x) eqn:Ekey.
    + injection Hfind as ->. eauto.
    + exists old. split; [exact Hfind|repeat split].
  - destruct (update_where hit f l) as [l0|] eqn:El0; [|discriminate].
    injection Hup as <-. simpl.
    destruct (same_key src hdl x) eqn:Ekey.
    + injection Hfind as ->. exists old. repeat split.
    + apply (IH l0); [exact Hfind|reflexivity].
Qed.

Lemma find_app_l {A : Type} (f : A -> bool) (l k : list A) (x : A) :
  List.find f l = Some x -> List.find f (l ++ k) = Some x.
Proof.
  induction l as [|y l IH]; simpl; [discriminate|].
  destruct (f y); auto.
Qed.

Lemma sql_upsert_operator_columns (p : insert_params) (t : table)
  (src hdl : string) (old : lead) :
  find_lead src hdl t = Some old ->
  exists new, find_lead src hdl (sql_upsert p t) = Some new
              /\ same_operator_columns old new.
Proof.
  unfold find_lead, sql_upsert. intros H.
  destruct (update_where _ _ (rows t)) as [l'|] eqn:E; simpl.
  - eapply update_where_operator_columns; [| |exact H|exact E].
    + intros x. reflexivity.
    + intros x. repeat split.
  - exists old. split; [apply find_app_l, H|repeat split].
Qed.

Lemma same_operator_columns_trans (a b c : lead) :
  same_operator_columns a b -> same_operator_columns b c ->
  same_operator_columns a c.
Proof. unfold same_operator_columns. intuition congruence. Qed.

Section WithLibrary.
Variable int_of_float_str : string -> option Z.
Variable json_dumps : pyobj -> outcome string.
Variable json_loads : string -> option pyobj.

Lemma upsert_loop_operator_columns now source flag score_fn
  (rs : list (list (string * scalar))) :
  forall (t : table) (n : Z) (src hdl : string) (old : lead),
    find_lead src hdl t = Some old ->
    exists new,
      find_lead src hdl
        (fst (upsert_loop int_of_float_str now source flag score_fn
                rs t n)) = Some new
      /\ same_operator_columns old new.
Proof.
  induction rs as [|r rs IH]; intros t n src hdl old H; simpl.
  - exists old. split; [exact H|repeat split].
  - destruct (row_params int_of_float_str now source flag score_fn r)
      as [[p|]|e]; simpl.
    + destruct (sql_upsert_operator_columns p t src hdl old H)
        as (mid & Hmid & Hcols).
      destruct (IH (sql_upsert p t) (n + 1) src hdl mid Hmid)
        as (new & Hnew & Hcols').
      exists new. split; [exact Hnew|].
      eapply same_operator_columns_trans; eassumption.
    + apply IH, H.
    + exists old. split; [exact H|repeat split].
Qed.

Lemma upsert_single now t r source flag score_fn p :
  row_params int_of_float_str now source flag score_fn r = Ok (Some p) ->
  upsert_leads_from_rows int_of_float_str now t [r] source flag score_fn
  = (sql_upsert p t, Ok 1).
Proof.
  intros H. unfold upsert_leads_from_rows, upsert_loop.
  rewrite H. reflexivity.
Qed.

Lemma erase_set_column (c : column) (s : string) (l : lead) :
  erase_operator_columns (set_column c s l) = erase_operator_columns l.
Proof. destruct c; reflexivity. Qed.

Lemma assign_all_frame (sets : list (column * option string)) :
  forall l l', assign_all sets l = Ok l' ->
               same_but_operator_columns l l'.
Proof.
  unfold same_but_operator_columns.
  induction sets as [|[c [s|]] sets IH]; simpl; intros l l' H.
  - injection H as <-. reflexivity.
  - unfold assign in H. simpl in H.
    rewrite (IH _ _ H). apply erase_set_column.
  - discriminate.
Qed.

Lemma same_but_refl (l : list lead) :
  Forall2 same_but_operator_columns l l.
Proof. induction l; constructor; [reflexivity|assumption]. Qed.

Lemma update_row_frame (i : Z) (sets : list (column * option string))
  (l : list lead) :
  forall l', update_row i sets l = Ok l' ->
             Forall2 same_but_operator_columns l l'.
Proof.
  induction l as [|x l IH]; simpl; intros l' H.
  - injection H as <-. constructor.
  - destruct (has_id i x).
    + destruct (assign_all sets x) as [x'|e] eqn:E; simpl in H;
        [|discriminate].
      injection H as <-.
      constructor; [eapply assign_all_frame, E|apply same_but_refl].
    + destruct (update_row i sets l) as [l0|e]; simpl in H;
        [|discriminate].
      injection H as <-. constructor; [reflexivity|auto].
Qed.

Lemma update_lead_frame (t : table) (i : Z)
  (patch : list (string * pyobj)) :
  Forall2 same_but_operator_columns (rows t)
    (rows (fst (update_lead json_dumps json_loads t i patch))).
Proof.
  unfold update_lead.
  destruct (patch_fields json_dumps patch) as [[|f fs]|e]; simpl;
    try apply same_but_refl.
  destruct (sql_update (f :: fs) i t) as [t'|e] eqn:E; simpl;
    [|apply same_but_refl].
  unfold sql_update in E.
  destruct (mapM _ (f :: fs)) as [sets|e]; simpl in E; [|discriminate].
  destruct (update_row i sets (rows t)) as [l'|e] eqn:El; simpl in E;
    [|discriminate].
  injection E as <-. simpl. eapply update_row_frame, El.
Qed.

Lemma allowed_iff (k : string) :
  is_Some (allowed k) <-> In k [ "status"; "notes"; "tags" ].
Proof.
  unfold allowed. simpl. split.
  - destruct (String.eqb k "status") eqn:E1;
      [apply String.eqb_eq in E1; auto|].
    destruct (String.eqb k "notes") eqn:E2;
      [apply String.eqb_eq in E2; auto|].
    destruct (String.eqb k "tags") eqn:E3;
      [apply String.eqb_eq in E3; auto|].
    intros [x Hx]. discriminate.
  - intros [<-|[<-|[<-|[]]]]; simpl; eauto.
Qed.

Lemma patch_fields_filter (patch : list (string * pyobj)) :
  patch_fields json_dumps patch =
  patch_fields json_dumps (List.filter allowed_key patch).
Proof.
  induction patch as [|[k v] patch IH]; [reflexivity|].
  unfold allowed_key at 1. simpl.
  destruct (allowed k) as [c|] eqn:E; simpl.
  - rewrite E, IH. reflexivity.
  - exact IH.
Qed.

End WithLibrary.

End DbFacts.

(** *** The claims about the merge and the operator update *)

(** C1. When a lead is already stored under the identity of an incoming
    row, the merge keeps the stored [website] if the incoming one is empty
    and replaces it if the incoming one is non-empty; the same holds for
    [phone], [email] and [profile_url]. *)
Theorem merge_keeps_unless_new_nonempty
  (int_of_float_str : string -> option Z) (now : Z) (t : Db.table)
  (r : list (string * Py.scalar)) (source : string) (flag : bool)
  (score_fn : option (gmap string Py.scalar -> Py.outcome (Z * list string)))
  (p : Db.insert_params) (old : Db.lead) :
  Db.row_params int_of_float_str now source flag score_fn r = Py.Ok (Some p) ->
  Db.find_lead (Db.p_source p) (Db.p_handle p) t = Some old ->
  exists t' new,
    Db.upsert_leads_from_rows int_of_float_str now t [ r ] source flag score_fn
    = (t', Py.Ok 1)
    /\ Db.find_lead (Db.p_source p) (Db.p_handle p) t' = Some new
    /\ Db.website new =
       (if PyStr.is_empty (Db.p_website p) then Db.website old
        else Some (Db.p_website p))
    /\ Db.phone new =
       (if PyStr.is_empty (Db.p_phone p) then Db.phone old
        else Some (Db.p_phone p))
    /\ Db.email new =
       (if PyStr.is_empty (Db.p_email p) then Db.email old
        else Some (Db.p_email p))
    /\ Db.profile_url new =
       match Db.p_profile_url p with
       | Some u => if PyStr.is_empty u then Db.profile_url old else Some u
       | None => Db.profile_url old
       end.
Proof.
  intros Hrow Hold.
  exists (Db.sql_upsert p t),
         (Db.do_update (Db.inserted_row (Db.last_rowid t + 1) p) old).
  split; [apply DbFacts.upsert_single, Hrow|].
  split; [apply DbFacts.sql_upsert_conflict, Hold|].
  unfold Db.do_update, Db.inserted_row.
  cbn [Db.website Db.phone Db.email Db.profile_url].
  rewrite !DbFacts.keep_if_new_nonempty.
  repeat split.
  destruct (Db.p_profile_url p) as [u|]; [|reflexivity].
  apply DbFacts.keep_if_new_nonempty.
Qed.

Lemma merge_keeps_unless_new_nonempty_witness :
  exists t' new,
    Db.upsert_leads_from_rows Sample.no_float 200 Sample.bob_table
      [ Sample.bob_again ] "x" false None = (t', Py.Ok 1)
    /\ Db.find_lead "x" "bob" t' = Some new
    /\ Db.website new = Some "https://bob.example"
    /\ Db.phone new = Some "555 0100".
Proof.
  edestruct (merge_keeps_unless_new_nonempty Sample.no_float 200
               Sample.bob_table Sample.bob_again "x" false None)
    as (t' & new & Hrun & Hfind & Hweb & Hphone & _).
  - vm_compute. reflexivity.
  - vm_compute. reflexivity.
  - exists t', new. repeat split; assumption.
Defined.

(** C2. Ingestion never touches the operator-owned columns: whatever batch
    is ingested, the lead stored under an identity keeps its [status],
    [notes] and [tags]. The operator update path writes no other column,
    and the keys it accepts are exactly [status], [notes] and [tags]. *)
Theorem operator_columns_are_operator_only
  (int_of_float_str : string -> option Z)
  (json_dumps : Py.pyobj -> Py.outcome string)
  (json_loads : string -> option Py.pyobj)
  (now : Z) (t : Db.table) (rs : list (list (string * Py.scalar)))
  (source : string) (flag : bool)
  (score_fn : option (gmap string Py.scalar -> Py.outcome (Z * list string)))
  (src hdl : string) (old : Db.lead)
  (i : Z) (patch : list (string * Py.pyobj)) :
  Db.find_lead src hdl t = Some old ->
  (exists new,
     Db.find_lead src hdl
       (fst (Db.upsert_leads_from_rows int_of_float_str now t rs source flag
               score_fn)) = Some new
     /\ Spec.same_operator_columns old new)
  /\ Forall2 Spec.same_but_operator_columns (Db.rows t)
       (Db.rows (fst (Db.update_lead json_dumps json_loads t i patch)))
  /\ (forall k, is_Some (Db.allowed k) <-> In k [ "status"; "notes"; "tags" ]).
Proof.
  intros Hold. split; [|split].
  - apply DbFacts.upsert_loop_operator_columns, Hold.
  - apply DbFacts.update_lead_frame.
  - apply DbFacts.allowed_iff.
Qed.

Lemma operator_columns_are_operator_only_witness :
  exists new,
    Db.find_lead "x" "bob"
      (fst (Db.upsert_leads_from_rows Sample.no_float 300
              Sample.bob_contacted [ Sample.bob_again; Sample.bob_first ]
              "x" false None)) = Some new
    /\ Db.status new = "contacted".
Proof.
  edestruct (fun old =>
               operator_columns_are_operator_only Sample.no_float
                 Sample.dumps Sample.loads 300 Sample.bob_contacted
                 [ Sample.bob_again; Sample.bob_first ] "x" false None
                 "x" "bob" old 1 [])
    as ((new & Hfind & Hstatus & _) & _).
  - vm_compute. reflexivity.
  - exists new. split; [exact Hfind|exact Hstatus].
Defined.



(** *** Facts about the normaliser *)

Module NormalizeFacts.
Import Py Db Spec PyStrFacts.

Lemma segment_after_spec (marker p : string) :
  PyStr.contains marker p = true ->
  segment_after marker p = Ok (first_path_segment marker p).
Proof.
  intros H. destruct (split_once_after_first marker p H) as [a E].
  unfold segment_after, first_path_segment. rewrite E.
  rewrite !split_head_up_to. reflexivity.
Qed.

Lemma marker_nonempty (p marker : string) :
  social_marker p = Some marker -> PyStr.is_empty p = false.
Proof.
  unfold social_marker.
  destruct (PyStr.contains "instagram.com/" p) eqn:E1.
  - intros _. eapply contains_nonempty; [|exact E1]. reflexivity.
  - destruct (PyStr.contains "facebook.com/" p) eqn:E2; [|discriminate].
    intros _. eapply contains_nonempty; [|exact E2]. reflexivity.
Qed.

(** The [try] block computes the first path segment of the
    specification. *)
Lemma derive_handle_spec (p marker : string) :
  social_marker p = Some marker ->
  derive_handle p EmptyString = first_path_segment marker p.
Proof.
  intros H. unfold derive_handle.
  rewrite (marker_nonempty p marker H).
  cbn [negb andb PyStr.is_empty].
  unfold social_marker in H.
  destruct (PyStr.contains "instagram.com/" p) eqn:E1.
  - injection H as <-. rewrite (segment_after_spec _ _ E1). reflexivity.
  - destruct (PyStr.contains "facebook.com/" p) eqn:E2; [|discriminate].
    injection H as <-. rewrite (segment_after_spec _ _ E2). reflexivity.
Qed.

Lemma lookup_fill_ne (k k' : string) (aliases : list string)
  (out : gmap string scalar) :
  k <> k' -> fill k aliases out !! k' = out !! k'.
Proof.
  intros H. unfold fill. destruct (truthy (dict_get out k)); [reflexivity|].
  apply lookup_insert_ne, H.
Qed.

(** After the handle is stored, nothing in the rest of [_normalize_row]
    writes it again. *)
Lemma handle_survives (out : gmap string scalar) (h u : string) :
  fill "recent_post_snippet" [ "snippet"; "caption"; "post_text" ]
    (fill "phone" [ "phone_number"; "tel"; "mobile" ]
       (fill "website" [ "website_url"; "site" ]
          (fill "bio" [ "description"; "about" ]
             (<["profile_url" := PStr u]> (<["handle" := PStr h]> out)))))
  !! "handle" = Some (PStr h).
Proof.
  rewrite !lookup_fill_ne by discriminate.
  rewrite lookup_insert_ne by discriminate.
  apply lookup_insert_eq.
Qed.

Lemma text_value_or (a b : scalar) :
  text_value a = true -> text_value b = true -> text_value (py_or a b) = true.
Proof. unfold py_or. destruct (truthy a); auto. Qed.

Lemma method_strip_text (v : scalar) :
  text_value v = true -> truthy v = true \/ v = PStr EmptyString ->
  exists s, method_strip v = Ok s.
Proof.
  destruct v; simpl; try discriminate; eauto.
  intros _ [H|H]; discriminate.
Qed.

Lemma text_dict_insert (out : gmap string scalar) (k : string) (v : scalar) :
  text_value v = true -> text_dict out -> text_dict (<[k := v]> out).
Proof.
  intros Hv Hout k'. unfold dict_get.
  destruct (decide (k = k')) as [->|Hne].
  - rewrite lookup_insert_eq. exact Hv.
  - rewrite lookup_insert_ne by exact Hne. apply Hout.
Qed.

Lemma lower_keys_text (r : list (string * scalar)) :
  Forall (fun kv => text_value (snd kv) = true) r -> text_dict (lower_keys r).
Proof.
  unfold lower_keys.
  assert (G : forall acc, text_dict acc ->
                Forall (fun kv => text_value (snd kv) = true) r ->
                text_dict
                  (fold_left
                     (fun out kv =>
                        <[PyStr.lower (PyStr.strip (fst kv)) := snd kv]> out)
                     r acc)).
  { induction r as [|kv r IH]; intros acc Hacc Hr; simpl; [exact Hacc|].
    inversion Hr as [|? ? Hkv Hrest]; subst.
    apply IH; [apply text_dict_insert; assumption|exact Hrest]. }
  apply G. intros k. unfold dict_get. rewrite lookup_empty. reflexivity.
Qed.

(** A chain [a or b or ... or ""] over text values is a string. *)
Lemma first_of_text (out : gmap string scalar) (keys : list string) :
  text_dict out -> exists s, first_of out keys = PStr s.
Proof.
  intros Hout. induction keys as [|k keys [s IH]]; simpl; [eauto|].
  unfold py_or. rewrite IH.
  pose proof (Hout k) as Hk.
  destruct (dict_get out k) eqn:E; simpl in *; try discriminate; eauto.
  destruct (negb (PyStr.is_empty s0)); eauto.
Qed.

Lemma get_stripped_text (out : gmap string scalar) (k : string) :
  text_dict out -> exists s, get_stripped out k = Ok s.
Proof.
  intros Hout. unfold get_stripped.
  destruct (first_of_text out [ k ] Hout) as [s Hs].
  simpl in Hs. rewrite Hs. simpl. eauto.
Qed.

(** On rows whose values are strings or missing, the normaliser returns. *)
Lemma normalize_row_total_on_text_rows (r : list (string * scalar))
  (source : string) :
  Forall (fun kv => text_value (snd kv) = true) r ->
  exists out, _normalize_row r source = Ok out.
Proof.
  intros Hr. pose proof (lower_keys_text r Hr) as Hout.
  unfold _normalize_row, alias_handle, alias_profile_url.
  destruct (first_of_text (lower_keys r)
              [ "handle"; "username"; "user"; "page" ] Hout) as [h ->].
  destruct (first_of_text (lower_keys r)
              [ "profile_url"; "profile"; "profilelink"; "profile_link" ]
              Hout) as [u ->].
  destruct (get_stripped_text (lower_keys r) "url" Hout) as [w Hw].
  cbn [method_strip bind]. rewrite Hw. cbn [bind].
  set (purl := if PyStr.is_empty (PyStr.strip u)
               then (if PyStr.contains "instagram.com/" w
                        || PyStr.contains "facebook.com/" w
                     then Ok w else Ok (PyStr.strip u))
               else Ok (PyStr.strip u)).
  assert (Hp : exists q, purl = Ok q).
  { unfold purl. destruct (PyStr.is_empty (PyStr.strip u)); eauto.
    destruct (_ || _); eauto. }
  destruct Hp as [q ->]. cbn [bind].
  destruct (_ && _).
  - destruct (first_of_text (lower_keys r) [ "name" ] Hout) as [n Hn].
    simpl in Hn. unfold py_or at 1. rewrite Hn.
    destruct (truthy (PStr q)); cbn [method_strip bind]; eauto.
  - cbn [bind]. eauto.
Qed.

End NormalizeFacts.

(** *** The claims about the normaliser *)

(** C3 fails on the code: a handle that is not a string reaches [.strip()]
    outside any [try] block and the normaliser raises. *)
Theorem normalize_row_raises_on_int_handle :
  Db._normalize_row [ ("handle", Py.PInt 123) ] "manual"
  = Py.Raise Py.AttributeError.
Proof. vm_compute. reflexivity. Qed.

(** C7, as stated, fails for a map source when the first path segment is
    empty: the segment is the empty string, and the handle the normaliser
    returns is the profile URL itself. *)
Lemma empty_segment_on_map_source :
  let r := [ ("profile_url", Py.PStr "https://instagram.com/") ] in
  Db.alias_handle (Db.lower_keys r) = Py.Ok EmptyString
  /\ Db.alias_profile_url (Db.lower_keys r) = Py.Ok "https://instagram.com/"
  /\ Spec.social_marker "https://instagram.com/" = Some "instagram.com/"
  /\ Spec.first_path_segment "instagram.com/" "https://instagram.com/"
     = EmptyString
  /\ Py.bind (Db._normalize_row r "google_maps")
       (fun out => Py.Ok (Py.dict_get out "handle"))
     = Py.Ok (Py.PStr "https://instagram.com/").
Proof. repeat split; vm_compute; reflexivity. Qed.

(** C7, amended. When the alias lookup leaves the handle empty and the
    profile URL holds a recognised social-domain marker, the normaliser
    returns, and the handle is the first path segment after the marker
    (query string dropped, slashes stripped), except that an empty segment
    under a map source is replaced by the profile URL. *)
Theorem handle_from_profile_url (r : list (string * Py.scalar))
  (source p marker : string) :
  Db.alias_handle (Db.lower_keys r) = Py.Ok EmptyString ->
  Db.alias_profile_url (Db.lower_keys r) = Py.Ok p ->
  Spec.social_marker p = Some marker ->
  exists out,
    Db._normalize_row r source = Py.Ok out
    /\ out !! "handle" =
       Some (Py.PStr
               (if PyStr.is_empty (Spec.first_path_segment marker p)
                   && Db.in_list (PyStr.lower (PyStr.strip source))
                        Db.map_sources
                then PyStr.strip p
                else Spec.first_path_segment marker p)).
Proof.
  intros Hh Hp Hm. unfold Db._normalize_row.
  rewrite Hh, Hp. cbn [Py.bind].
  rewrite (NormalizeFacts.derive_handle_spec p marker Hm).
  destruct (_ && _).
  - unfold Py.py_or at 1. cbn [Py.truthy].
    rewrite (NormalizeFacts.marker_nonempty p marker Hm).
    cbn [negb Py.method_strip Py.bind].
    eexists. split; [reflexivity|apply NormalizeFacts.handle_survives].
  - cbn [Py.bind].
    eexists. split; [reflexivity|apply NormalizeFacts.handle_survives].
Qed.

Lemma handle_from_profile_url_witness :
  exists out,
    Db._normalize_row
      [ ("Profile", Py.PStr "https://www.instagram.com/acme_plumbing/?hl=en") ]
      "instagram" = Py.Ok out
    /\ out !! "handle" = Some (Py.PStr "acme_plumbing").
Proof.
  edestruct (handle_from_profile_url
               [ ("Profile",
                  Py.PStr "https://www.instagram.com/acme_plumbing/?hl=en") ]
               "instagram") as (out & Hrun & Hhandle).
  - vm_compute. reflexivity.
  - vm_compute. reflexivity.
  - vm_compute. reflexivity.
  - exists out. split; [exact Hrun|].
    rewrite Hhandle. vm_compute. reflexivity.
Defined.

(** ** Website audit *)

Module AuditFacts.
Import Py Audit Spec PyStrFacts RegexFacts.

Lemma count_word_absent (w s : string) :
  PyStr.contains w s = false -> count_word w s = 0.
Proof.
  induction s as [|c s IH]; simpl; intros H;
    apply orb_false_iff in H as [Hstart Hrest]; rewrite Hstart; simpl.
  - reflexivity.
  - apply IH, Hrest.
Qed.

(** A [<title>] element with three characters of text is found by the
    pattern of the code. *)
Lemma has_title_from_text (html_l : string) :
  has_title_text html_l -> has_title html_l = true.
Proof.
  intros (t & Hlen & Hchars & Hin).
  apply contains_split in Hin as (pre & post & ->).
  unfold has_title. apply search_complete.
  unfold title_re.
  apply Lang.m_cat; [apply lit_matches|].
  change (t +:+ "</title>") with (EmptyString +:+ (t +:+ "</title>")).
  apply Lang.m_cat; [apply Lang.m_star_nil|].
  apply Lang.m_cat; [|apply lit_matches].
  apply at_least_matches; assumption.
Qed.

Lemma fst_if {A B : Type} (b : bool) (p q : A * B) :
  fst (if b then p else q) = if b then fst p else fst q.
Proof. destruct b; reflexivity. Qed.

(** The checks that the premises settle add 29 to the base of 50; of the
    others only the truncation check can subtract. *)
Lemma sum_checks_good (html_l : string) (truncated : bool) :
  has_viewport html_l = true ->
  has_title html_l = true ->
  has_tel html_l = true ->
  any_in booking_kw html_l = true ->
  PyStr.contains "<script" html_l = false ->
  73 <= sum_checks (checks html_l truncated) <= 109
  /\ (truncated = false -> 79 <= sum_checks (checks html_l truncated)).
Proof.
  intros Hv Ht Htel Hbook Hscript.
  unfold checks, sum_checks, scripts.
  rewrite Hv, Ht, Htel, Hbook, (count_word_absent _ _ Hscript).
  change (35 <=? 0) with false. change (20 <=? 0) with false.
  cbn [fold_left]. rewrite !fst_if. cbn [fst].
  destruct (has_meta_desc html_l), (has_h1 html_l), (has_whatsapp html_l),
    (has_mail html_l), (any_in trust_kw html_l), truncated;
    (split; [lia|intros H; first [discriminate H|lia]]).
Qed.

Lemma verdict_good (z : Z) :
  73 <= z -> verdict_of (clamp z) = "good_site" /\ 73 <= clamp z.
Proof.
  intros H. unfold verdict_of, clamp.
  destruct (Z.leb_spec (Z.max 0 (Z.min 100 z)) 35); [lia|].
  destruct (Z.leb_spec (Z.max 0 (Z.min 100 z)) 65); [lia|].
  split; [reflexivity|lia].
Qed.

Lemma score_html_good (html_l : string) (truncated : bool)
  (score : Z) (verdict findings : string) :
  has_viewport html_l = true ->
  has_title html_l = true ->
  has_tel html_l = true ->
  any_in booking_kw html_l = true ->
  PyStr.contains "<script" html_l = false ->
  score_html html_l truncated = (score, verdict, findings) ->
  verdict = "good_site" /\ 73 <= score /\ (truncated = false -> 79 <= score).
Proof.
  intros Hv Ht Htel Hbook Hscript.
  destruct (sum_checks_good html_l truncated Hv Ht Htel Hbook Hscript)
    as [[Hlow Hhigh] Hfull].
  unfold score_html. cbv zeta.
  generalize dependent (sum_checks (checks html_l truncated)).
  intros z Hlow Hhigh Hfull. intros [= <- <- _].
  destruct (verdict_good z Hlow) as [-> Hz].
  repeat split; [exact Hz|].
  intros Hnot. specialize (Hfull Hnot). unfold clamp. lia.
Qed.

End AuditFacts.

(** *** The claims about the website audit *)






(* ===================================================================== *)
(** * Part III: further properties of the code *)
(* ===================================================================== *)

(** ** The merge, beyond the claims *)

Module MergeFacts.
Import Py Db Spec Shape PyStrFacts DbFacts.

Lemma drop_while_head (p : ascii -> bool) (s : string) :
  match PyStr.drop_while p s with
  | EmptyString => True
  | String c _ => p c = false
  end.
Proof.
  induction s as [|c s IH]; simpl; [exact I|].
  destruct (p c) eqn:E; [exact IH|exact E].
Qed.

Lemma lstrip_at_no_at (s : string) :
  PyStr.starts_with "@" (PyStr.lstrip_chars "@" s) = false.
Proof.
  unfold PyStr.lstrip_chars, PyStr.lstrip_by.
  pose proof (drop_while_head (PyStr.one_of "@") s) as H.
  destruct (PyStr.drop_while (PyStr.one_of "@") s) as [|c rest];
    [reflexivity|].
  unfold PyStr.one_of in H.
  cbn [String.list_ascii_of_string existsb] in H.
  unfold PyStr.is_char in H. rewrite orb_false_r in H.
  cbn [PyStr.starts_with]. rewrite andb_true_r, Ascii.eqb_sym. exact H.
Qed.

Lemma update_where_none (hit : lead -> bool) (f : lead -> lead)
  (l : list lead) :
  List.find hit l = None -> update_where hit f l = None.
Proof.
  induction l as [|x l IH]; simpl; [reflexivity|].
  destruct (hit x); [discriminate|].
  intros H. rewrite (IH H). reflexivity.
Qed.

Lemma update_where_some (hit : lead -> bool) (f : lead -> lead)
  (l l' : list lead) :
  update_where hit f l = Some l' -> exists x, List.find hit l = Some x.
Proof.
  revert l'. induction l as [|x l IH]; simpl; intros l' H; [discriminate|].
  destruct (hit x); [eauto|].
  destruct (update_where hit f l) as [l0|]; [|discriminate]. eauto.
Qed.

Lemma find_app_none {A : Type} (f : A -> bool) (l k : list A) :
  List.find f l = None -> List.find f (l ++ k) = List.find f k.
Proof.
  induction l as [|y l IH]; simpl; [reflexivity|].
  destruct (f y); [discriminate|exact IH].
Qed.

Lemma same_key_refl (l : lead) : same_key (source l) (handle l) l = true.
Proof. unfold same_key. rewrite !String.eqb_refl. reflexivity. Qed.

Lemma same_key_identity (src hdl : string) (l : lead) :
  same_key src hdl l = true <-> identity l = (src, hdl).
Proof.
  unfold same_key, identity. rewrite andb_true_iff, !String.eqb_eq.
  split; [intros [-> ->]; reflexivity|intros [= -> ->]; auto].
Qed.

(** A statement for one identity leaves the row found under any other
    identity as it was. *)
Lemma sql_upsert_other_identity (p : insert_params) (t : table)
  (src hdl : string) :
  (src, hdl) <> (p_source p, p_handle p) ->
  find_lead src hdl (sql_upsert p t) = find_lead src hdl t.
Proof.
  intros Hne. unfold find_lead, sql_upsert.
  destruct (update_where _ _ (rows t)) as [l'|] eqn:E; simpl.
  - revert l' E. induction (rows t) as [|x l IH]; simpl; intros l' E;
      [discriminate|].
    destruct (same_key (p_source p) (p_handle p) x) eqn:Ehit.
    + injection E as <-. simpl. rewrite same_key_do_update.
      destruct (same_key src hdl x) eqn:Ex; [|reflexivity].
      apply same_key_identity in Ehit. apply same_key_identity in Ex.
      congruence.
    + destruct (update_where _ _ l) as [l0|]; [|discriminate].
      injection E as <-. simpl.
      destruct (same_key src hdl x); [reflexivity|]. apply IH. reflexivity.
  - destruct (List.find (same_key src hdl) (rows t)) as [x|] eqn:Ef.
    + apply find_app_l, Ef.
    + rewrite (find_app_none _ _ _ Ef). simpl.
      destruct (same_key src hdl _) eqn:Ex; [|reflexivity].
      apply same_key_identity in Ex. unfold identity in Ex. simpl in Ex.
      congruence.
Qed.

Lemma update_where_map {B : Type} (g : lead -> B) (hit : lead -> bool)
  (f : lead -> lead) (l l' : list lead) :
  update_where hit f l = Some l' ->
  (forall x, g (f x) = g x) -> map g l' = map g l.
Proof.
  intros H Hg. revert l' H.
  induction l as [|x l IH]; simpl; intros l' H; [discriminate|].
  destruct (hit x).
  - injection H as <-. simpl. rewrite Hg. reflexivity.
  - destruct (update_where hit f l) as [l0|]; [|discriminate].
    injection H as <-. simpl. rewrite (IH l0); reflexivity.
Qed.

Lemma find_none_forall {A : Type} (f : A -> bool) (l : list A) :
  List.find f l = None -> forall x, In x l -> f x = false.
Proof.
  induction l as [|y l IH]; simpl; intros H x Hx; [contradiction|].
  destruct (f y) eqn:E; [discriminate|].
  destruct Hx as [<-|Hx]; auto.
Qed.

Lemma NoDup_snoc {A : Type} (l : list A) (x : A) :
  NoDup l -> ~ In x l -> NoDup (l ++ [x]).
Proof.
  intros Hl Hx. apply NoDup_app. split; [exact Hl|split].
  - intros y Hy Hy'. apply list_elem_of_singleton in Hy'. subst y.
    apply Hx, list_elem_of_In, Hy.
  - apply NoDup_singleton.
Qed.

(** One statement keeps the table well formed. *)
Lemma sql_upsert_well_formed (p : insert_params) (t : table) :
  well_formed t -> well_formed (sql_upsert p t).
Proof.
  intros (Hkeys & Hids & Hmax). unfold well_formed, sql_upsert.
  destruct (update_where _ _ (rows t)) as [l'|] eqn:E; simpl.
  - rewrite (update_where_map identity _ _ _ _ E (fun x => eq_refl)).
    rewrite (update_where_map lead_id _ _ _ _ E (fun x => eq_refl)).
    repeat split; assumption.
  - assert (Hnone : List.find (same_key (p_source p) (p_handle p)) (rows t)
                    = None).
    { destruct (List.find _ (rows t)) as [x|] eqn:Ef; [|reflexivity].
      destruct (update_where_found
                  (same_key (p_source p) (p_handle p))
                  (do_update (inserted_row (last_rowid t + 1) p))
                  (rows t) x (fun y => eq_refl) Ef) as (l' & El' & _).
      congruence. }
    rewrite !map_app.
    change (map identity [inserted_row (last_rowid t + 1) p])
      with [(p_source p, p_handle p)].
    change (map lead_id [inserted_row (last_rowid t + 1) p])
      with [last_rowid t + 1].
    repeat split.
    + apply NoDup_snoc; [exact Hkeys|].
      intros Hin. apply in_map_iff in Hin as (y & Hy & Hyin).
      pose proof (find_none_forall _ _ Hnone y Hyin) as Hf.
      apply same_key_identity in Hy. congruence.
    + apply NoDup_snoc; [exact Hids|].
      intros Hin. rewrite List.Forall_forall in Hmax.
      specialize (Hmax _ Hin). lia.
    + apply Forall_app. split.
      * rewrite List.Forall_forall in *. intros x Hx.
        specialize (Hmax x Hx). lia.
      * repeat constructor. lia.
Qed.

Section WithLibrary.
Variable int_of_float_str : string -> option Z.
Variable json_dumps : pyobj -> outcome string.
Variable json_loads : string -> option pyobj.

Ltac step_bind H :=
  match type of H with
  | Py.bind ?m _ = _ =>
      destruct m eqn:?; cbn [Py.bind] in H; [|discriminate H]
  end.

(** What every bound row looks like. *)
Lemma row_params_shape now source flag score_fn r p :
  row_params int_of_float_str now source flag score_fn r = Ok (Some p) ->
  p_source p =
  PyStr.lower
    (PyStr.strip (if PyStr.is_empty source then "manual" else source))
  /\ PyStr.is_empty (p_handle p) = false
  /\ PyStr.starts_with "@" (p_handle p) = false
  /\ p_last_seen_at p = now
  /\ p_created_at p = now.
Proof.
  unfold row_params. intros H.
  step_bind H. step_bind H.
  destruct (PyStr.is_empty (PyStr.lstrip_chars "@" s)) eqn:Eh;
    [discriminate|].
  repeat step_bind H.
  injection H as <-. cbn.
  repeat split; [exact Eh|apply lstrip_at_no_at].
Qed.

Lemma upsert_loop_well_formed now source flag score_fn
  (rs : list (list (string * scalar))) :
  forall (t : table) (n : Z),
    well_formed t ->
    well_formed
      (fst (upsert_loop int_of_float_str now source flag score_fn rs t n)).
Proof.
  induction rs as [|r rs IH]; intros t n H; simpl; [exact H|].
  destruct (row_params int_of_float_str now source flag score_fn r)
    as [[p|]|e]; simpl; auto using sql_upsert_well_formed.
Qed.

Lemma erase_identity (l : lead) :
  identity (erase_operator_columns l) = identity l
  /\ lead_id (erase_operator_columns l) = lead_id l.
Proof. split; reflexivity. Qed.

Lemma frame_keeps_shape (l l' : list lead) :
  Forall2 same_but_operator_columns l l' ->
  map identity l' = map identity l /\ map lead_id l' = map lead_id l.
Proof.
  induction 1 as [|x y l l' Hxy _ [IH1 IH2]]; simpl; [auto|].
  unfold same_but_operator_columns in Hxy.
  pose proof (erase_identity x) as [Hx1 Hx2].
  pose proof (erase_identity y) as [Hy1 Hy2].
  rewrite IH1, IH2, <- Hx1, <- Hy1, <- Hx2, <- Hy2, Hxy. auto.
Qed.

Lemma update_lead_last_rowid (t : table) (i : Z)
  (patch : list (string * pyobj)) :
  last_rowid (fst (update_lead json_dumps json_loads t i patch))
  = last_rowid t.
Proof.
  unfold update_lead.
  destruct (patch_fields json_dumps patch) as [[|f fs]|e]; simpl;
    try reflexivity.
  destruct (sql_update (f :: fs) i t) as [t'|e] eqn:E; simpl;
    [|reflexivity].
  unfold sql_update in E.
  destruct (mapM _ (f :: fs)) as [sets|e]; simpl in E; [|discriminate].
  destruct (update_row i sets (rows t)) as [l'|e]; simpl in E;
    [|discriminate].
  injection E as <-. reflexivity.
Qed.

Lemma upsert_loop_other_identity now source flag score_fn
  (rs : list (list (string * scalar))) (src hdl : string) :
  (forall r p,
     In r rs ->
     row_params int_of_float_str now source flag score_fn r = Ok (Some p) ->
     (src, hdl) <> (p_source p, p_handle p)) ->
  forall (t : table) (n : Z),
    find_lead src hdl
      (fst (upsert_loop int_of_float_str now source flag score_fn rs t n))
    = find_lead src hdl t.
Proof.
  induction rs as [|r rs IH]; intros Hne t n; simpl; [reflexivity|].
  destruct (row_params int_of_float_str now source flag score_fn r)
    as [[p|]|e] eqn:E; simpl.
  - rewrite IH; [|intros r' p' Hin; apply Hne; right; exact Hin].
    apply sql_upsert_other_identity. apply (Hne r p); [left; reflexivity|].
    exact E.
  - apply IH. intros r' p' Hin. apply Hne. right. exact Hin.
  - reflexivity.
Qed.

Lemma upsert_loop_count now source flag score_fn
  (rs : list (list (string * scalar))) :
  forall (t : table) (n m : Z),
    snd (upsert_loop int_of_float_str now source flag score_fn rs t n)
    = Ok m ->
    m = n + Z.of_nat
              (length
                 (List.filter
                    (fun r =>
                       persists
                         (row_params int_of_float_str now source flag
                            score_fn r)) rs))
    /\ Z.of_nat
         (length
            (rows
               (fst (upsert_loop int_of_float_str now source flag score_fn
                       rs t n))))
       <= Z.of_nat (length (rows t)) + (m - n).
Proof.
  induction rs as [|r rs IH]; intros t n m; simpl.
  - intros [= <-]. split; lia.
  - destruct (row_params int_of_float_str now source flag score_fn r)
      as [[p|]|e] eqn:E; simpl.
    + intros H. destruct (IH _ _ _ H) as [-> Hlen]. split; [lia|].
      assert (Hone : Z.of_nat (length (rows (sql_upsert p t)))
                     <= Z.of_nat (length (rows t)) + 1).
      { unfold sql_upsert.
        destruct (update_where _ _ (rows t)) as [l'|] eqn:El; simpl.
        - pose proof (update_where_map (fun _ => tt) _ _ _ _ El
                        (fun x => eq_refl)) as Hm.
          apply (f_equal (@length unit)) in Hm.
          rewrite !length_map in Hm. lia.
        - rewrite length_app. simpl. lia. }
      lia.
    + intros H. destruct (IH _ _ _ H) as [-> Hlen]. split; lia.
    + discriminate.
Qed.

End WithLibrary.

End MergeFacts.

(** X1. A row whose identity is not stored yet is appended as a new lead:
    the table grows by exactly that row, which gets the next row id, the
    schema defaults for the operator columns ([new], empty notes, [[]]),
    no audit data, and both timestamps equal to the time of the batch. *)
Theorem new_identity_is_inserted
  (int_of_float_str : string -> option Z) (now : Z) (t : Db.table)
  (r : list (string * Py.scalar)) (source : string) (flag : bool)
  (score_fn : option (gmap string Py.scalar -> Py.outcome (Z * list string)))
  (p : Db.insert_params) :
  Db.row_params int_of_float_str now source flag score_fn r = Py.Ok (Some p) ->
  Db.find_lead (Db.p_source p) (Db.p_handle p) t = None ->
  exists new,
    Db.upsert_leads_from_rows int_of_float_str now t [ r ] source flag score_fn
    = ({| Db.rows := Db.rows t ++ [ new ];
          Db.last_rowid := Db.last_rowid t + 1 |}, Py.Ok 1)
    /\ Db.find_lead (Db.p_source p) (Db.p_handle p)
         {| Db.rows := Db.rows t ++ [ new ];
            Db.last_rowid := Db.last_rowid t + 1 |} = Some new
    /\ Shape.identity new = (Db.p_source p, Db.p_handle p)
    /\ Db.lead_id new = Db.last_rowid t + 1
    /\ Db.created_at new = now
    /\ Db.last_seen_at new = now
    /\ (Db.status new, Db.notes new, Db.tags new) = ("new", "", "[]")
    /\ Shape.audit_columns new = (None, None, None, None, None, None)
    /\ Db.website new = Some (Db.p_website p).
Proof.
  intros Hrow Hnone.
  destruct (MergeFacts.row_params_shape _ _ _ _ _ _ _ Hrow)
    as (_ & _ & _ & Hseen & Hcreated).
  exists (Db.inserted_row (Db.last_rowid t + 1) p).
  split.
  { rewrite (DbFacts.upsert_single _ _ _ _ _ _ _ _ Hrow).
    unfold Db.sql_upsert.
    rewrite (MergeFacts.update_where_none _ _ _ Hnone). reflexivity. }
  split.
  { unfold Db.find_lead. cbn [Db.rows].
    unfold Db.find_lead in Hnone.
    rewrite (MergeFacts.find_app_none _ _ _ Hnone).
    cbn [List.find].
    change (Db.same_key (Db.p_source p) (Db.p_handle p)
              (Db.inserted_row (Db.last_rowid t + 1) p))
      with (String.eqb (Db.p_source p) (Db.p_source p)
            && String.eqb (Db.p_handle p) (Db.p_handle p)).
    rewrite !String.eqb_refl. reflexivity. }
  repeat split; assumption.
Qed.

Lemma new_identity_is_inserted_witness :
  exists new,
    Db.upsert_leads_from_rows Sample.no_float 100 Sample.empty_table
      [ Sample.bob_first ] "x" false None
    = ({| Db.rows := [ new ]; Db.last_rowid := 1 |}, Py.Ok 1)
    /\ Db.handle new = "bob"
    /\ Db.status new = "new".
Proof.
  edestruct (new_identity_is_inserted Sample.no_float 100 Sample.empty_table
               Sample.bob_first "x" false None)
    as (new & Hrun & _ & Hid & _ & _ & _ & Hop & _).
  - vm_compute. reflexivity.
  - reflexivity.
  - exists new. split; [exact Hrun|].
    injection Hid as _ Hh. injection Hop as Hs _ _. split; assumption.
Defined.

(** X2. When the identity is already stored, the merge overwrites the
    descriptive and scoring columns with the incoming values, blank or
    not, and sets [last_seen_at] to the time of the batch; the row id,
    [created_at] and the audit columns stay, and no row is added. *)
Theorem merge_refreshes_observation
  (int_of_float_str : string -> option Z) (now : Z) (t : Db.table)
  (r : list (string * Py.scalar)) (source : string) (flag : bool)
  (score_fn : option (gmap string Py.scalar -> Py.outcome (Z * list string)))
  (p : Db.insert_params) (old : Db.lead) :
  Db.row_params int_of_float_str now source flag score_fn r = Py.Ok (Some p) ->
  Db.find_lead (Db.p_source p) (Db.p_handle p) t = Some old ->
  exists new,
    Db.find_lead (Db.p_source p) (Db.p_handle p)
      (fst (Db.upsert_leads_from_rows int_of_float_str now t [ r ] source
              flag score_fn)) = Some new
    /\ Shape.refreshed_columns new =
       (Some (Db.p_name p), Some (Db.p_bio p), Db.p_followers p,
        Some (Db.p_location p), Some (Db.p_recent_post_snippet p),
        Some (Db.p_signal_keywords_matched p), Db.p_score p,
        Some (Db.p_reason p))
    /\ Db.last_seen_at new = now
    /\ Db.created_at new = Db.created_at old
    /\ Db.lead_id new = Db.lead_id old
    /\ Shape.audit_columns new = Shape.audit_columns old
    /\ length
         (Db.rows
            (fst (Db.upsert_leads_from_rows int_of_float_str now t [ r ]
                    source flag score_fn)))
       = length (Db.rows t).
Proof.
  intros Hrow Hold.
  destruct (MergeFacts.row_params_shape _ _ _ _ _ _ _ Hrow)
    as (_ & _ & _ & Hseen & _).
  rewrite (DbFacts.upsert_single _ _ _ _ _ _ _ _ Hrow). cbn [fst].
  exists (Db.do_update (Db.inserted_row (Db.last_rowid t + 1) p) old).
  split; [apply DbFacts.sql_upsert_conflict, Hold|].
  repeat split; try exact Hseen.
  unfold Db.sql_upsert. unfold Db.find_lead in Hold.
  destruct (DbFacts.update_where_found
              (Db.same_key (Db.p_source p) (Db.p_handle p))
              (Db.do_update (Db.inserted_row (Db.last_rowid t + 1) p))
              (Db.rows t) old (fun y => eq_refl) Hold) as (l' & El' & _).
  rewrite El'. cbn [Db.rows].
  pose proof (MergeFacts.update_where_map (fun _ => tt) _ _ _ _ El'
                (fun x => eq_refl)) as Hm.
  apply (f_equal (@length unit)) in Hm. rewrite !length_map in Hm.
  exact Hm.
Qed.

Lemma merge_refreshes_observation_witness :
  exists new,
    Db.find_lead "x" "bob"
      (fst (Db.upsert_leads_from_rows Sample.no_float 200 Sample.bob_table
              [ Sample.bob_again ] "x" false None)) = Some new
    /\ Db.bio new = Some "plumber"
    /\ Db.last_seen_at new = 200
    /\ Db.created_at new = 100.
Proof.
  edestruct (merge_refreshes_observation Sample.no_float 200
               Sample.bob_table Sample.bob_again "x" false None)
    as (new & Hfind & Hcols & Hseen & Hcreated & _).
  - vm_compute. reflexivity.
  - vm_compute. reflexivity.
  - exists new. split; [exact Hfind|].
    injection Hcols as _ Hbio _ _ _ _ _ _.
    repeat split; assumption.
Defined.

(** X3. Ingestion and the operator update keep the table well formed:
    identities stay unique, row ids stay unique, and no row id exceeds the
    AUTOINCREMENT counter, whatever the batch or the patch and also when
    the call ends in an exception. *)
Theorem table_stays_well_formed
  (int_of_float_str : string -> option Z)
  (json_dumps : Py.pyobj -> Py.outcome string)
  (json_loads : string -> option Py.pyobj)
  (now : Z) (t : Db.table) (rs : list (list (string * Py.scalar)))
  (source : string) (flag : bool)
  (score_fn : option (gmap string Py.scalar -> Py.outcome (Z * list string)))
  (i : Z) (patch : list (string * Py.pyobj)) :
  Shape.well_formed t ->
  Shape.well_formed
    (fst (Db.upsert_leads_from_rows int_of_float_str now t rs source flag
            score_fn))
  /\ Shape.well_formed
       (fst (Db.update_lead json_dumps json_loads t i patch)).
Proof.
  intros H. split.
  - apply MergeFacts.upsert_loop_well_formed, H.
  - destruct H as (Hkeys & Hids & Hmax). unfold Shape.well_formed.
    destruct (MergeFacts.frame_keeps_shape _ _
                (DbFacts.update_lead_frame json_dumps json_loads t i patch))
      as [-> ->].
    rewrite MergeFacts.update_lead_last_rowid. auto.
Qed.

Lemma table_stays_well_formed_witness :
  Shape.well_formed
    (fst (Db.upsert_leads_from_rows Sample.no_float 100 Sample.empty_table
            Shape.mixed_batch "x" false None))
  /\ Shape.well_formed
       (fst (Db.update_lead Sample.dumps Sample.loads Sample.empty_table 1
               [ ("status", Py.Scalar (Py.PStr "won")) ])).
Proof.
  apply table_stays_well_formed.
  repeat split; simpl; constructor.
Defined.

(** X4. Ingestion touches only the identities of its batch: a lead whose
    identity no persisted row of the batch carries is found unchanged
    afterwards, in every column. *)
Theorem ingestion_leaves_other_identities
  (int_of_float_str : string -> option Z) (now : Z) (t : Db.table)
  (rs : list (list (string * Py.scalar))) (source : string) (flag : bool)
  (score_fn : option (gmap string Py.scalar -> Py.outcome (Z * list string)))
  (src hdl : string) :
  (forall r p,
     In r rs ->
     Db.row_params int_of_float_str now source flag score_fn r
     = Py.Ok (Some p) ->
     (src, hdl) <> (Db.p_source p, Db.p_handle p)) ->
  Db.find_lead src hdl
    (fst (Db.upsert_leads_from_rows int_of_float_str now t rs source flag
            score_fn))
  = Db.find_lead src hdl t.
Proof.
  intros H. apply MergeFacts.upsert_loop_other_identity, H.
Qed.

Lemma ingestion_leaves_other_identities_witness :
  Db.find_lead "x" "bob"
    (fst (Db.upsert_leads_from_rows Sample.no_float 300 Sample.bob_contacted
            [ [ ("handle", Py.PStr "alice"); ("bio", Py.PStr "painter") ] ]
            "x" false None))
  = Db.find_lead "x" "bob" Sample.bob_contacted.
Proof.
  apply ingestion_leaves_other_identities.
  intros r p [<-|[]] Hp.
  vm_compute in Hp. injection Hp as <-. discriminate.
Defined.

(** X5. The count a batch returns is the number of its rows that were
    persisted; rows without a derivable handle are skipped, not counted and
    not an error, and the table grows by at most that count. *)
Theorem batch_count_is_persisted_rows
  (int_of_float_str : string -> option Z) (now : Z) (t : Db.table)
  (rs : list (list (string * Py.scalar))) (source : string) (flag : bool)
  (score_fn : option (gmap string Py.scalar -> Py.outcome (Z * list string)))
  (n : Z) :
  snd (Db.upsert_leads_from_rows int_of_float_str now t rs source flag
         score_fn) = Py.Ok n ->
  n = Z.of_nat
        (length
           (List.filter
              (fun r =>
                 Shape.persists
                   (Db.row_params int_of_float_str now source flag score_fn
                      r)) rs))
  /\ Z.of_nat
       (length
          (Db.rows
             (fst (Db.upsert_leads_from_rows int_of_float_str now t rs
                     source flag score_fn))))
     <= Z.of_nat (length (Db.rows t)) + n.
Proof.
  intros H. unfold Db.upsert_leads_from_rows in *.
  destruct (MergeFacts.upsert_loop_count _ _ _ _ _ _ _ _ _ H) as [Hn Hlen].
  split; [lia|lia].
Qed.

Lemma batch_count_is_persisted_rows_witness :
  2 = Z.of_nat
        (length
           (List.filter
              (fun r =>
                 Shape.persists
                   (Db.row_params Sample.no_float 100 "x" false None r))
              Shape.mixed_batch))
  /\ Z.of_nat
       (length
          (Db.rows
             (fst (Db.upsert_leads_from_rows Sample.no_float 100
                     Sample.empty_table Shape.mixed_batch "x" false None))))
     <= Z.of_nat (length (Db.rows Sample.empty_table)) + 2.
Proof.
  apply (batch_count_is_persisted_rows Sample.no_float 100
           Sample.empty_table Shape.mixed_batch "x" false None 2).
  vm_compute. reflexivity.
Defined.

(** X6. Every row that ingestion persists has a non-empty handle without
    a leading [@], the source tag stripped and lower-cased ([manual] when
    none is given), and both timestamps equal to the time of the batch. *)
Theorem persisted_identity_is_clean
  (int_of_float_str : string -> option Z) (now : Z)
  (r : list (string * Py.scalar)) (source : string) (flag : bool)
  (score_fn : option (gmap string Py.scalar -> Py.outcome (Z * list string)))
  (p : Db.insert_params) :
  Db.row_params int_of_float_str now source flag score_fn r = Py.Ok (Some p) ->
  Db.p_source p =
  PyStr.lower
    (PyStr.strip (if PyStr.is_empty source then "manual" else source))
  /\ PyStr.is_empty (Db.p_handle p) = false
  /\ PyStr.starts_with "@" (Db.p_handle p) = false
  /\ Db.p_last_seen_at p = now
  /\ Db.p_created_at p = now.
Proof. apply MergeFacts.row_params_shape. Qed.

Lemma persisted_identity_is_clean_witness :
  exists p,
    Db.row_params Sample.no_float 100 "" false None Sample.bob_first
    = Py.Ok (Some p)
    /\ Db.p_source p = "manual"
    /\ PyStr.starts_with "@" (Db.p_handle p) = false.
Proof.
  eexists. split; [vm_compute; reflexivity|].
  edestruct (persisted_identity_is_clean Sample.no_float 100
               Sample.bob_first "" false None) as (Hs & _ & Hat & _).
  - vm_compute. reflexivity.
  - split; [exact Hs|exact Hat].
Defined.

(** ** The normaliser, beyond the claims *)

Module RowFacts.
Import Py Db Spec Shape PyStrFacts NormalizeFacts.

Lemma text_dict_fill (k : string) (aliases : list string)
  (out : gmap string scalar) :
  text_dict out -> text_dict (fill k aliases out).
Proof.
  intros H. unfold fill. destruct (truthy (dict_get out k)); [exact H|].
  apply text_dict_insert; [|exact H].
  destruct (first_of_text out aliases H) as [s ->]. reflexivity.
Qed.

(** On a text row the normaliser returns a row of text values. *)
Lemma normalize_row_text (r : list (string * scalar)) (source : string) :
  text_row r ->
  exists out, _normalize_row r source = Ok out /\ text_dict out.
Proof.
  intros Hr. pose proof (lower_keys_text r Hr) as Hout.
  unfold _normalize_row, alias_handle, alias_profile_url.
  destruct (first_of_text (lower_keys r)
              [ "handle"; "username"; "user"; "page" ] Hout) as [h ->].
  destruct (first_of_text (lower_keys r)
              [ "profile_url"; "profile"; "profilelink"; "profile_link" ]
              Hout) as [u ->].
  destruct (get_stripped_text (lower_keys r) "url" Hout) as [w Hw].
  cbn [method_strip bind]. rewrite Hw. cbn [bind].
  set (purl := if PyStr.is_empty (PyStr.strip u)
               then (if PyStr.contains "instagram.com/" w
                        || PyStr.contains "facebook.com/" w
                     then Ok w else Ok (PyStr.strip u))
               else Ok (PyStr.strip u)).
  assert (Hp : exists q, purl = Ok q).
  { unfold purl. destruct (PyStr.is_empty (PyStr.strip u)); eauto.
    destruct (_ || _); eauto. }
  destruct Hp as [q ->]. cbn [bind].
  assert (Hfinal : forall hd : string,
            text_dict
              (fill "recent_post_snippet" [ "snippet"; "caption"; "post_text" ]
                 (fill "phone" [ "phone_number"; "tel"; "mobile" ]
                    (fill "website" [ "website_url"; "site" ]
                       (fill "bio" [ "description"; "about" ]
                          (<["profile_url" := PStr q]>
                             (<["handle" := PStr hd]> (lower_keys r)))))))).
  { intros hd. repeat apply text_dict_fill.
    repeat (apply text_dict_insert; [reflexivity|]). exact Hout. }
  destruct (_ && _).
  - destruct (first_of_text (lower_keys r) [ "name" ] Hout) as [n Hn].
    simpl in Hn. unfold py_or at 1. rewrite Hn.
    destruct (truthy (PStr q)); cbn [method_strip bind];
      eexists; (split; [reflexivity|apply Hfinal]).
  - cbn [bind]. eexists. split; [reflexivity|apply Hfinal].
Qed.

Lemma get_stripped_but_score (out : gmap string scalar) (k : string) :
  text_but_score out -> k <> "score" -> exists s, get_stripped out k = Ok s.
Proof.
  intros Hout Hk. unfold get_stripped, py_or.
  pose proof (Hout k Hk) as Ht.
  destruct (dict_get out k) eqn:E; simpl in *; try discriminate; eauto.
  destruct (negb (PyStr.is_empty s)); simpl; eauto.
Qed.

Lemma bind_int_outcome (o : option Z) :
  (exists v, bind_int o = Ok v) \/ bind_int o = Raise OverflowError.
Proof.
  destruct o as [z|]; simpl; [|eauto]. destruct (int64 z); eauto.
Qed.

Section WithLibrary.
Variable int_of_float_str : string -> option Z.

Lemma with_score_text flag score_fn (out : gmap string scalar) :
  text_dict out ->
  text_but_score (with_score int_of_float_str flag score_fn out).
Proof.
  intros Hout. unfold with_score.
  assert (Hbase : text_but_score out) by (intros k _; apply Hout).
  destruct score_fn as [f|]; [|exact Hbase].
  destruct (_ && _); [|exact Hbase].
  destruct (f out) as [[s reasons]|e]; [|exact Hbase].
  intros k Hk. unfold dict_get.
  destruct (decide ("reason" = k)) as [<-|Hne].
  - rewrite lookup_insert_eq. reflexivity.
  - rewrite lookup_insert_ne by exact Hne.
    rewrite lookup_insert_ne by congruence. apply Hout.
Qed.

(** A text row is bound or skipped; the only exception left is the
    overflow of an integer column. *)
Lemma row_params_text now source flag score_fn r :
  text_row r ->
  (exists ps, row_params int_of_float_str now source flag score_fn r = Ok ps)
  \/ row_params int_of_float_str now source flag score_fn r
     = Raise OverflowError.
Proof.
  intros Hr. unfold row_params.
  destruct (normalize_row_text r
              (PyStr.lower
                 (PyStr.strip
                    (if PyStr.is_empty source then "manual" else source)))
              Hr) as (out & -> & Hout).
  cbn [bind].
  destruct (get_stripped_text out "handle" Hout) as [h ->]. cbn [bind].
  destruct (PyStr.is_empty (PyStr.lstrip_chars "@" h)); [eauto|].
  destruct (get_stripped_text out "profile_url" Hout) as [u ->]. cbn [bind].
  pose proof (with_score_text flag score_fn out Hout) as Hs.
  set (r2 := with_score int_of_float_str flag score_fn out) in *.
  repeat match goal with
         | |- context [get_stripped r2 ?k] =>
             let s := fresh "s" in
             let E := fresh "E" in
             destruct (get_stripped_but_score r2 k Hs ltac:(discriminate))
               as [s E];
             rewrite E; cbn [bind]
         end.
  destruct (bind_int_outcome (_to_int int_of_float_str (dict_get r2 "followers")))
    as [[v ->]| ->]; cbn [bind]; [|auto].
  destruct (bind_int_outcome (_to_int int_of_float_str (dict_get r2 "score")))
    as [[v' ->]| ->]; cbn [bind]; eauto.
Qed.

Lemma upsert_loop_text now source flag score_fn
  (rs : list (list (string * scalar))) :
  Forall text_row rs ->
  forall (t : table) (n : Z),
    (exists m,
       snd (upsert_loop int_of_float_str now source flag score_fn rs t n)
       = Ok m)
    \/ snd (upsert_loop int_of_float_str now source flag score_fn rs t n)
       = Raise OverflowError.
Proof.
  induction 1 as [|r rs Hr _ IH]; intros t n; simpl; [eauto|].
  destruct (row_params_text now source flag score_fn r Hr)
    as [[[p|] ->]| ->]; simpl; auto.
Qed.

End WithLibrary.

Lemma lower_keys_same (r r' : list (string * scalar)) :
  Forall2 (fun kv kv' => same_key_text (fst kv) (fst kv')
                         /\ snd kv = snd kv') r r' ->
  lower_keys r = lower_keys r'.
Proof.
  unfold lower_keys. intros H. generalize (∅ : gmap string scalar).
  induction H as [|kv kv' r r' [Hk Hv] _ IH]; intros acc; simpl;
    [reflexivity|].
  unfold same_key_text in Hk. rewrite Hk, Hv. apply IH.
Qed.

Lemma lower_keys_last (r : list (string * scalar)) (k : string)
  (v : scalar) :
  lower_keys (r ++ [ (k, v) ]) !! PyStr.lower (PyStr.strip k) = Some v.
Proof.
  unfold lower_keys. rewrite fold_left_app. simpl. apply lookup_insert_eq.
Qed.

Lemma derive_handle_no_marker (p : string) :
  social_marker p = None -> derive_handle p EmptyString = EmptyString.
Proof.
  unfold social_marker, derive_handle.
  destruct (PyStr.contains "instagram.com/" p); [discriminate|].
  destruct (PyStr.contains "facebook.com/" p); [discriminate|].
  intros _. destruct (_ && _); reflexivity.
Qed.

End RowFacts.

(** X7. A batch whose rows hold only strings and missing values (what a
    CSV import provides) cannot end in [AttributeError] or any other
    exception but the overflow of a 64-bit integer column: it returns its
    count or raises [OverflowError]. *)
Theorem text_rows_only_overflow
  (int_of_float_str : string -> option Z) (now : Z) (t : Db.table)
  (rs : list (list (string * Py.scalar))) (source : string) (flag : bool)
  (score_fn : option (gmap string Py.scalar -> Py.outcome (Z * list string))) :
  Forall Shape.text_row rs ->
  (exists n,
     snd (Db.upsert_leads_from_rows int_of_float_str now t rs source flag
            score_fn) = Py.Ok n)
  \/ snd (Db.upsert_leads_from_rows int_of_float_str now t rs source flag
            score_fn) = Py.Raise Py.OverflowError.
Proof. intros H. apply RowFacts.upsert_loop_text, H. Qed.

Lemma text_rows_only_overflow_witness :
  (exists n,
     snd (Db.upsert_leads_from_rows Sample.no_float 100 Sample.empty_table
            Shape.mixed_batch "x" true
            (Some (fun r => Py.Ok (Scoring.score_row r)))) = Py.Ok n)
  \/ snd (Db.upsert_leads_from_rows Sample.no_float 100 Sample.empty_table
            Shape.mixed_batch "x" true
            (Some (fun r => Py.Ok (Scoring.score_row r))))
     = Py.Raise Py.OverflowError.
Proof.
  apply text_rows_only_overflow.
  repeat constructor.
Defined.

(** X8. The casing and the surrounding blanks of the keys of a row do not
    matter: two rows whose keys agree after stripping and lower-casing, with
    the same values in the same order, are normalised and bound alike. When
    two keys of one row collide in this way, the later value is the one the
    normaliser sees. *)
Theorem keys_are_case_insensitive
  (int_of_float_str : string -> option Z) (now : Z)
  (r r' : list (string * Py.scalar)) (source : string) (flag : bool)
  (score_fn : option (gmap string Py.scalar -> Py.outcome (Z * list string))) :
  Forall2 (fun kv kv' => Shape.same_key_text (fst kv) (fst kv')
                         /\ snd kv = snd kv') r r' ->
  Db._normalize_row r source = Db._normalize_row r' source
  /\ Db.row_params int_of_float_str now source flag score_fn r
     = Db.row_params int_of_float_str now source flag score_fn r'
  /\ (forall k v,
        Db.lower_keys (r ++ [ (k, v) ]) !! PyStr.lower (PyStr.strip k)
        = Some v).
Proof.
  intros H. apply RowFacts.lower_keys_same in H.
  assert (E : forall s, Db._normalize_row r s = Db._normalize_row r' s).
  { intros s. unfold Db._normalize_row. rewrite H. reflexivity. }
  split; [apply E|split].
  - unfold Db.row_params. rewrite E. reflexivity.
  - intros k v. apply RowFacts.lower_keys_last.
Qed.

Lemma keys_are_case_insensitive_witness :
  Db._normalize_row [ (" Handle", Py.PStr "bob"); ("PHONE ", Py.PStr "555") ]
    "x"
  = Db._normalize_row [ ("handle", Py.PStr "bob"); ("phone", Py.PStr "555") ]
      "x".
Proof.
  apply (keys_are_case_insensitive Sample.no_float 0
           [ (" Handle", Py.PStr "bob"); ("PHONE ", Py.PStr "555") ]
           [ ("handle", Py.PStr "bob"); ("phone", Py.PStr "555") ]
           "x" false None).
  repeat constructor.
Defined.

(** X9. The map-source fallback. When the alias lookup leaves the handle
    empty and the profile URL carries no social-domain marker, a map source
    takes the profile URL as the handle, or the stripped name when there is
    no profile URL and the name is a string. *)
Theorem map_source_handle_fallback (r : list (string * Py.scalar))
  (source p : string) :
  Db.alias_handle (Db.lower_keys r) = Py.Ok EmptyString ->
  Db.alias_profile_url (Db.lower_keys r) = Py.Ok p ->
  Spec.social_marker p = None ->
  Db.in_list (PyStr.lower (PyStr.strip source)) Db.map_sources = true ->
  (PyStr.is_empty p = false ->
   exists out,
     Db._normalize_row r source = Py.Ok out
     /\ out !! "handle" = Some (Py.PStr (PyStr.strip p)))
  /\ (PyStr.is_empty p = true ->
      forall n,
        Py.dict_get (Db.lower_keys r) "name" = Py.PStr n ->
        exists out,
          Db._normalize_row r source = Py.Ok out
          /\ out !! "handle" = Some (Py.PStr (PyStr.strip n))).
Proof.
  intros Hh Hp Hm Hmap. unfold Db._normalize_row.
  rewrite Hh, Hp. cbn [Py.bind].
  rewrite (RowFacts.derive_handle_no_marker p Hm), Hmap.
  cbn [PyStr.is_empty andb]. split.
  - intros Hne. unfold Py.py_or at 1. cbn [Py.truthy]. rewrite Hne.
    cbn [negb Py.method_strip Py.bind].
    eexists. split; [reflexivity|apply NormalizeFacts.handle_survives].
  - intros He n Hn. unfold Py.py_or at 1. cbn [Py.truthy]. rewrite He.
    cbn [negb]. rewrite Hn. unfold Py.py_or.
    destruct n as [|c n]; cbn [Py.truthy PyStr.is_empty negb];
      cbn [Py.method_strip Py.bind];
      eexists; (split; [reflexivity|apply NormalizeFacts.handle_survives]).
Qed.

Lemma map_source_handle_fallback_witness :
  exists out,
    Db._normalize_row
      [ ("name", Py.PStr "Acme Plumbing");
        ("profile_url", Py.PStr "https://www.google.com/maps/place/acme") ]
      "Google_Maps" = Py.Ok out
    /\ out !! "handle"
       = Some (Py.PStr "https://www.google.com/maps/place/acme").
Proof.
  edestruct (map_source_handle_fallback
               [ ("name", Py.PStr "Acme Plumbing");
                 ("profile_url",
                  Py.PStr "https://www.google.com/maps/place/acme") ]
               "Google_Maps") as [Hurl _].
  - vm_compute. reflexivity.
  - vm_compute. reflexivity.
  - vm_compute. reflexivity.
  - vm_compute. reflexivity.
  - destruct Hurl as (out & Hrun & Hhandle); [reflexivity|].
    exists out. split; [exact Hrun|].
    rewrite Hhandle. vm_compute. reflexivity.
Defined.

(** X10. A row with no derivable handle is skipped, not an error: when the
    alias lookup leaves the handle empty, the profile URL carries no
    social-domain marker and the source is not a map source, the row is
    normalised with an empty handle and no statement is run for it. *)
Theorem row_without_handle_is_skipped
  (int_of_float_str : string -> option Z) (now : Z)
  (r : list (string * Py.scalar)) (source p : string) (flag : bool)
  (score_fn : option (gmap string Py.scalar -> Py.outcome (Z * list string))) :
  Db.alias_handle (Db.lower_keys r) = Py.Ok EmptyString ->
  Db.alias_profile_url (Db.lower_keys r) = Py.Ok p ->
  Spec.social_marker p = None ->
  Db.in_list (PyStr.lower (PyStr.strip (Shape.batch_source source)))
    Db.map_sources = false ->
  Db.row_params int_of_float_str now source flag score_fn r = Py.Ok None
  /\ forall t,
       Db.upsert_leads_from_rows int_of_float_str now t [ r ] source flag
         score_fn = (t, Py.Ok 0).
Proof.
  intros Hh Hp Hm Hmap.
  assert (E : Db.row_params int_of_float_str now source flag score_fn r
              = Py.Ok None).
  { unfold Db.row_params, Db._normalize_row.
    fold (Shape.batch_source source).
    rewrite Hh, Hp. cbn [Py.bind].
    rewrite (RowFacts.derive_handle_no_marker p Hm), Hmap.
    cbn [PyStr.is_empty andb Py.bind].
    unfold Db.get_stripped at 1. unfold Py.dict_get at 1.
    rewrite NormalizeFacts.handle_survives. reflexivity. }
  split; [exact E|].
  intros t. unfold Db.upsert_leads_from_rows, Db.upsert_loop.
  rewrite E. reflexivity.
Qed.

Lemma row_without_handle_is_skipped_witness :
  Db.row_params Sample.no_float 100 "x" false None Shape.nameless_row
  = Py.Ok None
  /\ forall t,
       Db.upsert_leads_from_rows Sample.no_float 100 t
         [ Shape.nameless_row ] "x" false None = (t, Py.Ok 0).
Proof.
  apply (row_without_handle_is_skipped Sample.no_float 100
           Shape.nameless_row "x" EmptyString false None);
    vm_compute; reflexivity.
Defined.

(** ** The operator update, beyond the claims *)

Module UpdateFacts.
Import Py Db Spec Shape DbFacts.

Section WithLibrary.
Variable json_dumps : pyobj -> outcome string.
Variable json_loads : string -> option pyobj.

Lemma assign_all_id (sets : list (column * option string)) (l l' : lead) :
  assign_all sets l = Ok l' -> lead_id l' = lead_id l.
Proof.
  intros H. apply assign_all_frame in H.
  unfold same_but_operator_columns in H.
  apply (f_equal lead_id) in H. exact H.
Qed.

Lemma update_row_found (i : Z) (sets : list (column * option string))
  (l : list lead) (x x' : lead) :
  List.find (has_id i) l = Some x ->
  assign_all sets x = Ok x' ->
  exists l', update_row i sets l = Ok l'
             /\ List.find (has_id i) l' = Some x'.
Proof.
  intros Hfind Hset. induction l as [|y l IH]; simpl in *; [discriminate|].
  destruct (has_id i y) eqn:E.
  - injection Hfind as ->. rewrite Hset. cbn [bind].
    eexists. split; [reflexivity|]. simpl.
    unfold has_id in *. rewrite (assign_all_id _ _ _ Hset), E. reflexivity.
  - destruct (IH Hfind) as (l' & -> & Hl'). cbn [bind].
    eexists. split; [reflexivity|]. simpl. rewrite E. exact Hl'.
Qed.

Lemma update_row_raises (i : Z) (sets : list (column * option string))
  (l : list lead) (x : lead) (e : exn) :
  List.find (has_id i) l = Some x ->
  assign_all sets x = Raise e ->
  update_row i sets l = Raise e.
Proof.
  intros Hfind Hset. induction l as [|y l IH]; simpl in *; [discriminate|].
  destruct (has_id i y).
  - injection Hfind as ->. rewrite Hset. reflexivity.
  - rewrite (IH Hfind). reflexivity.
Qed.

Lemma update_row_missing (i : Z) (sets : list (column * option string))
  (l : list lead) :
  List.find (has_id i) l = None -> update_row i sets l = Ok l.
Proof.
  induction l as [|y l IH]; simpl; [reflexivity|].
  destruct (has_id i y); [discriminate|].
  intros H. rewrite (IH H). reflexivity.
Qed.

Lemma get_lead_found (t : table) (i : Z) (l : lead) :
  List.find (has_id i) (rows t) = Some l ->
  get_lead json_loads t i =
  Some {| view_row := l;
          view_tags :=
            default (PList [])
              (json_loads (if PyStr.is_empty (tags l) then "[]"
                           else tags l)) |}.
Proof. intros H. unfold get_lead. rewrite H. reflexivity. Qed.

Lemma table_eta (t : table) :
  {| rows := rows t; last_rowid := last_rowid t |} = t.
Proof. destruct t; reflexivity. Qed.

(** One accepted key with a bindable value: the statement that runs. *)
Lemma update_lead_one (t : table) (i : Z) (k : string) (c : column)
  (v w : pyobj) (s : string) (l : lead) :
  List.find (has_id i) (rows t) = Some l ->
  patch_fields json_dumps [ (k, v) ] = Ok [ (c, w) ] ->
  bind_text w = Ok (Some s) ->
  exists t',
    update_lead json_dumps json_loads t i [ (k, v) ]
    = (t', Ok (get_lead json_loads t' i))
    /\ List.find (has_id i) (rows t') = Some (set_column c s l).
Proof.
  intros Hfind Hfields Hbind. unfold update_lead. rewrite Hfields.
  unfold sql_update. cbn [mapM bind fst snd]. rewrite Hbind. cbn [bind].
  destruct (update_row_found i [ (c, Some s) ] (rows t) l (set_column c s l)
              Hfind eq_refl) as (l' & -> & Hl').
  cbn [bind]. eexists. split; [reflexivity|exact Hl'].
Qed.

End WithLibrary.

End UpdateFacts.

(** X11. The operator update writes what it is given and returns the
    updated record. For a stored lead, a string under [status] or [notes]
    becomes the value of that column, and a value under [tags] is stored
    as its JSON text; the record returned is the one a later [get_lead]
    reads, with [tags] decoded from that text. *)
Theorem operator_edit_is_stored
  (json_dumps : Py.pyobj -> Py.outcome string)
  (json_loads : string -> option Py.pyobj)
  (t : Db.table) (i : Z) (l : Db.lead) :
  List.find (Db.has_id i) (Db.rows t) = Some l ->
  (forall k c s,
     Db.allowed k = Some c -> c <> Db.c_tags ->
     exists t',
       Db.update_lead json_dumps json_loads t i
         [ (k, Py.Scalar (Py.PStr s)) ]
       = (t', Py.Ok (Db.get_lead json_loads t' i))
       /\ List.find (Db.has_id i) (Db.rows t') = Some (Db.set_column c s l))
  /\ (forall v s,
        json_dumps (if Py.obj_truthy v then v else Py.PList []) = Py.Ok s ->
        exists t',
          Db.update_lead json_dumps json_loads t i [ ("tags", v) ]
          = (t', Py.Ok (Db.get_lead json_loads t' i))
          /\ Db.get_lead json_loads t' i
             = Some {| Db.view_row := Db.set_column Db.c_tags s l;
                       Db.view_tags :=
                         default (Py.PList [])
                           (json_loads (if PyStr.is_empty s then "[]"
                                        else s)) |}).
Proof.
  intros Hfind. split.
  - intros k c s Hk Hc.
    apply (UpdateFacts.update_lead_one json_dumps json_loads t i k c
             (Py.Scalar (Py.PStr s)) (Py.Scalar (Py.PStr s)) s l Hfind);
      [|reflexivity].
    unfold Db.patch_fields. rewrite Hk.
    destruct c; [reflexivity|reflexivity|contradiction].
  - intros v s Hdump.
    destruct (UpdateFacts.update_lead_one json_dumps json_loads t i "tags"
                Db.c_tags v (Py.Scalar (Py.PStr s)) s l Hfind)
      as (t' & Hrun & Hrow); [|reflexivity|].
    + unfold Db.patch_fields.
      change (Db.allowed "tags") with (Some Db.c_tags).
      cbn iota. rewrite Hdump. reflexivity.
    + exists t'. split; [exact Hrun|].
      rewrite (UpdateFacts.get_lead_found json_loads t' i _ Hrow).
      reflexivity.
Qed.

Lemma operator_edit_is_stored_witness :
  exists t',
    Db.update_lead Sample.dumps Sample.loads Sample.bob_table 1
      [ ("notes", Py.Scalar (Py.PStr "call back on Monday")) ]
    = (t', Py.Ok (Db.get_lead Sample.loads t' 1))
    /\ option_map Db.notes (List.find (Db.has_id 1) (Db.rows t'))
       = Some "call back on Monday".
Proof.
  edestruct (operator_edit_is_stored Sample.dumps Sample.loads
               Sample.bob_table 1) as [Hcol _].
  - vm_compute. reflexivity.
  - destruct (Hcol "notes" Db.c_notes "call back on Monday" eq_refl
                ltac:(discriminate)) as (t' & Hrun & Hrow).
    exists t'. split; [exact Hrun|]. rewrite Hrow. reflexivity.
Defined.



(** X13. The operator columns are NOT NULL: a patch that sets [status] or
    [notes] of a stored lead to [None] raises [IntegrityError] and leaves
    the table as it was. *)
Theorem null_operator_value_is_rejected
  (json_dumps : Py.pyobj -> Py.outcome string)
  (json_loads : string -> option Py.pyobj)
  (t : Db.table) (i : Z) (l : Db.lead) (k : string) (c : Db.column) :
  List.find (Db.has_id i) (Db.rows t) = Some l ->
  Db.allowed k = Some c -> c <> Db.c_tags ->
  Db.update_lead json_dumps json_loads t i [ (k, Py.Scalar Py.PNone) ]
  = (t, Py.Raise Py.IntegrityError).
Proof.
  intros Hfind Hk Hc. unfold Db.update_lead, Db.patch_fields. rewrite Hk.
  assert (E : Db.sql_update [ (c, Py.Scalar Py.PNone) ] i t
              = Py.Raise Py.IntegrityError).
  { unfold Db.sql_update. cbn [Py.mapM Py.bind Db.bind_text fst snd].
    rewrite (UpdateFacts.update_row_raises i [ (c, None) ] (Db.rows t) l
               Py.IntegrityError Hfind eq_refl).
    reflexivity. }
  destruct c; [| |contradiction]; cbn [Py.bind]; rewrite E; reflexivity.
Qed.

Lemma null_operator_value_is_rejected_witness :
  Db.update_lead Sample.dumps Sample.loads Sample.bob_table 1
    [ ("status", Py.Scalar Py.PNone) ]
  = (Sample.bob_table, Py.Raise Py.IntegrityError).
Proof.
  eapply (null_operator_value_is_rejected Sample.dumps Sample.loads
            Sample.bob_table 1 _ "status" Db.c_status).
  - vm_compute. reflexivity.
  - reflexivity.
  - discriminate.
Defined.

(** ** The website audit, beyond the claims *)

Module UrlFacts.
Import Py Audit PyStrFacts.

Lemma rstrip_by_idem (p : ascii -> bool) (s : string) :
  PyStr.rstrip_by p (PyStr.rstrip_by p s) = PyStr.rstrip_by p s.
Proof.
  induction s as [|c s IH]; [reflexivity|].
  cbn [PyStr.rstrip_by]. cbv zeta.
  destruct (PyStr.is_empty (PyStr.rstrip_by p s) && p c) eqn:E;
    [reflexivity|].
  cbn [PyStr.rstrip_by]. cbv zeta. rewrite IH, E. reflexivity.
Qed.

(** Stripping on the right leaves the first character alone unless
    nothing is left. *)
Lemma lstrip_rstrip (p : ascii -> bool) (s : string) :
  PyStr.drop_while p s = s ->
  PyStr.drop_while p (PyStr.rstrip_by p s) = PyStr.rstrip_by p s.
Proof.
  destruct s as [|c s]; [reflexivity|].
  cbn [PyStr.drop_while PyStr.rstrip_by]. cbv zeta.
  destruct (p c) eqn:E.
  - intros H. exfalso.
    assert (L : (String.length (PyStr.drop_while p s)
                 <= String.length s)%nat).
    { clear. induction s as [|a s IH]; simpl; [lia|].
      destruct (p a); simpl; lia. }
    rewrite H in L. simpl in L. lia.
  - intros _. rewrite andb_false_r. cbn [PyStr.drop_while]. rewrite E.
    reflexivity.
Qed.

Lemma drop_while_idem (p : ascii -> bool) (s : string) :
  PyStr.drop_while p (PyStr.drop_while p s) = PyStr.drop_while p s.
Proof.
  induction s as [|c s IH]; [reflexivity|].
  cbn [PyStr.drop_while]. destruct (p c) eqn:E; [exact IH|].
  cbn [PyStr.drop_while]. rewrite E. reflexivity.
Qed.

Lemma strip_by_idem (p : ascii -> bool) (s : string) :
  PyStr.strip_by p (PyStr.strip_by p s) = PyStr.strip_by p s.
Proof.
  unfold PyStr.strip_by, PyStr.lstrip_by.
  rewrite (lstrip_rstrip p _ (drop_while_idem p s)).
  apply rstrip_by_idem.
Qed.

Lemma strip_idem (s : string) : PyStr.strip (PyStr.strip s) = PyStr.strip s.
Proof. apply strip_by_idem. Qed.

Lemma rstrip_by_append (p : ascii -> bool) (a s : string) :
  PyStr.is_empty (PyStr.rstrip_by p s) = false ->
  PyStr.rstrip_by p (a +:+ s) = a +:+ PyStr.rstrip_by p s.
Proof.
  intros H. induction a as [|c a IH]; [rewrite !append_nil_l; reflexivity|].
  rewrite !append_cons. cbn [PyStr.rstrip_by]. cbv zeta.
  rewrite IH. destruct (a +:+ PyStr.rstrip_by p s) eqn:E; [|reflexivity].
  exfalso. destruct a; [rewrite append_nil_l in E|rewrite append_cons in E];
    [rewrite E in H|]; discriminate.
Qed.

(** A scheme in front of a stripped, non-empty string: nothing to strip. *)
Lemma strip_https (s : string) :
  PyStr.is_empty (PyStr.strip s) = false ->
  PyStr.strip ("https://" +:+ PyStr.strip s) = "https://" +:+ PyStr.strip s.
Proof.
  intros H. unfold PyStr.strip at 1. unfold PyStr.strip_by, PyStr.lstrip_by.
  change (PyStr.drop_while PyStr.is_space ("https://" +:+ PyStr.strip s))
    with ("https://" +:+ PyStr.strip s).
  rewrite rstrip_by_append.
  - fold (PyStr.strip_by PyStr.is_space). fold PyStr.strip.
    change (PyStr.rstrip_by PyStr.is_space (PyStr.strip s))
      with (PyStr.rstrip_by PyStr.is_space
              (PyStr.rstrip_by PyStr.is_space
                 (PyStr.lstrip_by PyStr.is_space s))).
    rewrite rstrip_by_idem. reflexivity.
  - change (PyStr.rstrip_by PyStr.is_space (PyStr.strip s))
      with (PyStr.rstrip_by PyStr.is_space
              (PyStr.rstrip_by PyStr.is_space
                 (PyStr.lstrip_by PyStr.is_space s))).
    rewrite rstrip_by_idem. exact H.
Qed.

Lemma https_has_scheme (s : string) :
  Regex.match_start scheme_re ("https://" +:+ s) = true.
Proof.
  change ("https://" +:+ s)
    with (String "h" (String "t" (String "t" (String "p" (String "s"
           (String ":" (String "/" (String "/" s)))))))).
  destruct s; vm_compute; reflexivity.
Qed.

(** What [_normalize_url] returns is blank or starts with a scheme, and
    is left alone by [strip]. *)
Lemma normalize_url_shape (url : string) :
  (PyStr.is_empty (PyStr.strip url) = true /\ _normalize_url url = "")
  \/ (PyStr.is_empty (PyStr.strip url) = false
      /\ PyStr.is_empty (_normalize_url url) = false
      /\ Regex.match_start scheme_re (_normalize_url url) = true
      /\ PyStr.strip (_normalize_url url) = _normalize_url url).
Proof.
  unfold _normalize_url. cbv zeta.
  destruct (PyStr.is_empty (PyStr.strip url)) eqn:E; [left; auto|right].
  split; [reflexivity|].
  destruct (Regex.match_start scheme_re (PyStr.strip url)) eqn:M;
    cbn [negb].
  - split; [exact E|split; [exact M|apply strip_idem]].
  - split; [reflexivity|split; [apply https_has_scheme|apply strip_https, E]].
Qed.

Lemma normalize_url_idem (url : string) :
  _normalize_url (_normalize_url url) = _normalize_url url.
Proof.
  destruct (normalize_url_shape url) as [[_ ->]|(_ & Hne & Hscheme & Hstrip)];
    [reflexivity|].
  unfold _normalize_url at 1. cbv zeta. rewrite Hstrip, Hne, Hscheme.
  reflexivity.
Qed.

Lemma normalize_url_strip (url : string) :
  _normalize_url (PyStr.strip url) = _normalize_url url.
Proof. unfold _normalize_url. cbv zeta. rewrite strip_idem. reflexivity. Qed.

Section WithLibrary.
Variable decode : string -> string.
Variable netloc_valid : string -> bool.

(** The audit sees its URL only through these two values. *)
Lemma audit_website_ext (url url' : string) (cfg : AuditConfig) (clock : Z)
  (net : request -> fetch_outcome) :
  PyStr.is_empty (PyStr.strip url') = PyStr.is_empty (PyStr.strip url) ->
  _normalize_url (PyStr.strip url') = _normalize_url (PyStr.strip url) ->
  run clock net (audit_website decode netloc_valid url' cfg)
  = run clock net (audit_website decode netloc_valid url cfg)
  /\ fetched clock net (audit_website decode netloc_valid url' cfg)
     = fetched clock net (audit_website decode netloc_valid url cfg).
Proof.
  intros He Hn. unfold audit_website. cbn [run fetched].
  rewrite He, Hn. split; reflexivity.
Qed.

Lemma score_html_parts (html_l : string) (truncated : bool) :
  fst (fst (score_html html_l truncated))
  = clamp (sum_checks (checks html_l truncated))
  /\ snd (fst (score_html html_l truncated))
     = verdict_of (clamp (sum_checks (checks html_l truncated))).
Proof. unfold score_html. split; reflexivity. Qed.

Lemma verdict_of_band (z : Z) : Verdict.band (verdict_of (clamp z)) (clamp z).
Proof.
  unfold Verdict.band, verdict_of.
  assert (R : 0 <= clamp z <= 100) by (unfold clamp; lia).
  destruct (Z.leb_spec (clamp z) 35);
    [right; right; right; right; left; split; [reflexivity|lia]|].
  destruct (Z.leb_spec (clamp z) 65).
  - right; right; right; right; right; left. split; [reflexivity|lia].
  - right; right; right; right; right; right. split; [reflexivity|lia].
Qed.

(** Verdict and score agree, and the timestamp is the clock read at the
    start. *)
Lemma audit_result_band (url : string) (cfg : AuditConfig) (clock : Z)
  (net : request -> fetch_outcome) :
  let result := run clock net (audit_website decode netloc_valid url cfg) in
  Verdict.band (website_verdict result) (website_score result)
  /\ website_checked_at result = clock.
Proof.
  intros result. subst result. unfold audit_website. cbn [run].
  destruct (PyStr.is_empty (PyStr.strip url));
    [cbn [run website_verdict website_score website_checked_at];
     split; [left; auto|reflexivity]|].
  destruct (is_weak_host _);
    [cbn [run website_verdict website_score website_checked_at];
     split; [do 3 right; left; auto|reflexivity]|].
  cbn [run].
  destruct (net _) as [code|name|resp];
    [cbn [run website_verdict website_score website_checked_at];
     split; [right; left; auto|reflexivity]..|].
  destruct (negb _ && negb _);
    [cbn [run website_verdict website_score website_checked_at];
     split; [do 5 right; left; split; [reflexivity|lia]|reflexivity]|].
  destruct (any_in PARKED_PHRASES _);
    [cbn [run website_verdict website_score website_checked_at];
     split; [do 2 right; left; auto|reflexivity]|].
  match goal with
  | |- context [score_html ?h ?t] =>
      destruct (score_html_parts h t) as [Hs Hv];
      destruct (score_html h t) as [[score verdict] findings]
  end.
  cbn [fst snd] in Hs, Hv. subst score verdict.
  cbn [run website_verdict website_score website_checked_at].
  split; [apply verdict_of_band|reflexivity].
Qed.

(** The status an audit reports is one the network gave. *)
Lemma audit_result_status (url : string) (cfg : AuditConfig) (clock : Z)
  (net : request -> fetch_outcome) :
  let result := run clock net (audit_website decode netloc_valid url cfg) in
  website_http_status result = None
  \/ (exists req, net req = HTTPError
                             (default 0 (website_http_status result)))
  \/ (exists req resp,
        net req = Response resp
        /\ website_http_status result = or_none (resp_status resp)).
Proof.
  intros result. subst result. unfold audit_website. cbn [run].
  destruct (PyStr.is_empty (PyStr.strip url)); [left; reflexivity|].
  destruct (is_weak_host _); [left; reflexivity|].
  cbn [run].
  match goal with
  | |- context [net ?r] => destruct (net r) as [code|name|resp] eqn:E
  end.
  - right; left. eexists. rewrite E. reflexivity.
  - left. reflexivity.
  - right; right. eexists _, resp. split; [exact E|].
    destruct (negb _ && negb _); [reflexivity|].
    destruct (any_in PARKED_PHRASES _); [reflexivity|].
    destruct (score_html _ _) as [[score verdict] findings].
    reflexivity.
Qed.

End WithLibrary.

End UrlFacts.

(** X14. Whatever the URL, the clock and the network, the verdict of
    [audit_website] and its score agree: each fixed verdict carries its
    fixed score, the three graded verdicts carry a score of their band
    (0 to 35, 36 to 65, 66 to 100), and the timestamp is the clock read
    at the start. In particular the score lies between 0 and 100. *)
Theorem audit_verdict_matches_score
  (decode : string -> string) (netloc_valid : string -> bool)
  (url : string) (cfg : Audit.AuditConfig) (clock : Z)
  (net : Audit.request -> Audit.fetch_outcome) :
  let result :=
    Audit.run clock net (Audit.audit_website decode netloc_valid url cfg) in
  Verdict.band (Audit.website_verdict result) (Audit.website_score result)
  /\ 0 <= Audit.website_score result <= 100
  /\ Audit.website_checked_at result = clock.
Proof.
  intros result.
  destruct (UrlFacts.audit_result_band decode netloc_valid url cfg clock net)
    as [B T].
  fold result in B, T.
  repeat split; [exact B| | |exact T]; unfold Verdict.band in B; lia.
Qed.


(** X16. Normalising a URL is idempotent, and auditing the normalised URL
    is auditing the URL: same result and same request, whatever the clock
    and the network. *)
Theorem audit_of_normalized_url
  (decode : string -> string) (netloc_valid : string -> bool)
  (url : string) (cfg : Audit.AuditConfig) (clock : Z)
  (net : Audit.request -> Audit.fetch_outcome) :
  Audit._normalize_url (Audit._normalize_url url) = Audit._normalize_url url
  /\ Audit.run clock net
       (Audit.audit_website decode netloc_valid
          (Audit._normalize_url url) cfg)
     = Audit.run clock net
         (Audit.audit_website decode netloc_valid url cfg)
  /\ Audit.fetched clock net
       (Audit.audit_website decode netloc_valid
          (Audit._normalize_url url) cfg)
     = Audit.fetched clock net
         (Audit.audit_website decode netloc_valid url cfg).
Proof.
  split; [apply UrlFacts.normalize_url_idem|].
  apply UrlFacts.audit_website_ext.
  - destruct (UrlFacts.normalize_url_shape url)
      as [[E ->]|(E & Hne & _ & ->)]; [rewrite E; reflexivity|].
    rewrite E. exact Hne.
  - rewrite !UrlFacts.normalize_url_strip.
    apply UrlFacts.normalize_url_idem.
Qed.

(** X17. When the request fails, the site is reported unreachable with
    score 5 against the normalised URL, and an HTTP error keeps its status
    code; nothing of a page is consulted. *)
Theorem failed_fetch_is_unreachable
  (decode : string -> string) (netloc_valid : string -> bool)
  (url : string) (cfg : Audit.AuditConfig) (clock : Z)
  (net : Audit.request -> Audit.fetch_outcome) :
  PyStr.is_empty (PyStr.strip url) = false ->
  Audit.is_weak_host
    (Audit._host netloc_valid (Audit._normalize_url (PyStr.strip url)))
  = false ->
  (forall resp, net (Verdict.request_of url cfg) <> Audit.Response resp) ->
  let result :=
    Audit.run clock net (Audit.audit_website decode netloc_valid url cfg) in
  Audit.website_verdict result = "unreachable"
  /\ Audit.website_score result = 5
  /\ Audit.website_final_url result = Audit._normalize_url url
  /\ Audit.website_http_status result
     = match net (Verdict.request_of url cfg) with
       | Audit.HTTPError code => Some code
       | _ => None
       end.
Proof.
  intros E W Hfail result. subst result.
  unfold Audit.audit_website. cbn [Audit.run]. rewrite E, W.
  cbn [Audit.run]. fold (Verdict.request_of url cfg).
  rewrite <- (UrlFacts.normalize_url_strip url).
  destruct (net (Verdict.request_of url cfg)) as [code|name|resp];
    [cbn; auto..|].
  exfalso. exact (Hfail resp eq_refl).
Qed.

Lemma failed_fetch_is_unreachable_witness :
  let result :=
    Audit.run 0 Verdict.offline
      (Audit.audit_website Sample.ascii_decode Sample.any_netloc
         " acme.example " Sample.default_cfg) in
  Audit.website_verdict result = "unreachable"
  /\ Audit.website_score result = 5
  /\ Audit.website_final_url result = "https://acme.example"
  /\ Audit.website_http_status result = None.
Proof.
  apply (failed_fetch_is_unreachable Sample.ascii_decode Sample.any_netloc
           " acme.example " Sample.default_cfg 0 Verdict.offline).
  - vm_compute. reflexivity.
  - vm_compute. reflexivity.
  - intros resp. discriminate.
Defined.

(** ** Status counts *)

Module TallyFacts.
Import Py Db Queries Tally MergeFacts.

(** One bucket of the GROUP BY fold: what the fold adds to it. *)
Lemma group_fold (s : string) (l : list lead) :
  forall m : gmap string Z,
    let n := Z.of_nat (length (List.filter
                                 (fun x => String.eqb (status x) s) l)) in
    fold_left group_count l m !! s
    = if n =? 0 then m !! s else Some (default 0 (m !! s) + n).
Proof.
  induction l as [|x l IH]; intros m; [reflexivity|].
  cbn [fold_left List.filter]. cbv zeta in *. rewrite IH.
  unfold group_count.
  destruct (String.eqb_spec (status x) s) as [->|Hne].
  - rewrite lookup_insert_eq. cbn [length default].
    generalize (length (List.filter (fun x0 => String.eqb (status x0) s) l)).
    intros k. generalize (default 0 (m !! s)). intros d.
    destruct (Z.eqb_spec (Z.of_nat k) 0) as [E|E];
      destruct (Z.eqb_spec (Z.of_nat (S k)) 0); try lia.
    + f_equal. lia.
    + unfold id. f_equal. lia.
  - rewrite lookup_insert_ne by exact Hne. reflexivity.
Qed.

Lemma filter_filter {A : Type} (p q : A -> bool) (l : list A) :
  List.filter q (List.filter p l) = List.filter (fun x => p x && q x) l.
Proof.
  induction l as [|x l IH]; [reflexivity|].
  cbn [List.filter]. destruct (p x); cbn [List.filter andb].
  - rewrite IH. reflexivity.
  - exact IH.
Qed.

Lemma status_counts_lookup (t : table) (source s : string) :
  status_counts t source !! s
  = if tally source s (rows t) =? 0 then None
    else Some (tally source s (rows t)).
Proof.
  unfold status_counts. rewrite group_fold. cbv zeta.
  rewrite filter_filter. rewrite lookup_empty. reflexivity.
Qed.

(** The tally looks at the source and the status of a row only. *)
Lemma tally_ext (source s : string) (l l' : list lead) :
  map (fun x => (Db.source x, status x)) l'
  = map (fun x => (Db.source x, status x)) l ->
  tally source s l' = tally source s l.
Proof.
  unfold tally. intros H. f_equal. revert l' H.
  induction l as [|x l IH]; intros [|x' l'] H; try discriminate;
    [reflexivity|].
  cbn [map] in H. injection H as Hsrc Hst Hrest.
  cbn [List.filter].
  assert (E : selected source s x' = selected source s x).
  { unfold selected, source_filter. cbv zeta. rewrite Hsrc, Hst.
    reflexivity. }
  rewrite E.
  destruct (selected source s x); cbn [length]; rewrite (IH l' Hrest);
    reflexivity.
Qed.

Lemma tally_app (source s : string) (l k : list lead) :
  tally source s (l ++ k) = tally source s l + tally source s k.
Proof.
  unfold tally. rewrite List.filter_app, length_app. lia.
Qed.

Lemma sql_upsert_tally (p : insert_params) (t : table) (source s : string) :
  s <> "new" ->
  tally source s (rows (sql_upsert p t)) = tally source s (rows t).
Proof.
  intros Hs. unfold sql_upsert.
  destruct (update_where _ _ (rows t)) as [l'|] eqn:E; cbn [rows].
  - apply tally_ext.
    apply (update_where_map (fun x => (Db.source x, status x)) _ _ _ _ E).
    intros x. reflexivity.
  - rewrite tally_app.
    assert (Z : tally source s [ inserted_row (last_rowid t + 1) p ] = 0).
    { unfold tally, selected. cbn [List.filter status inserted_row].
      destruct (String.eqb_spec "new" s) as [<-|_]; [contradiction|].
      rewrite andb_false_r. reflexivity. }
    rewrite Z. lia.
Qed.

Section WithLibrary.
Variable int_of_float_str : string -> option Z.

Lemma upsert_loop_tally now src flag score_fn
  (rs : list (list (string * scalar))) (source s : string) :
  s <> "new" ->
  forall (t : table) (n : Z),
    tally source s
      (rows (fst (upsert_loop int_of_float_str now src flag score_fn
                    rs t n)))
    = tally source s (rows t).
Proof.
  intros Hs. induction rs as [|r rs IH]; intros t n; [reflexivity|].
  cbn [upsert_loop].
  destruct (row_params int_of_float_str now src flag score_fn r)
    as [[p|]|e]; cbn [fst].
  - rewrite IH. apply sql_upsert_tally, Hs.
  - apply IH.
  - reflexivity.
Qed.

End WithLibrary.

End TallyFacts.

(** X18. The status counts are exact: each status present among the
    selected leads is listed with the number of selected leads that have
    it, and no status is listed with a count of zero. Without a source
    (or with a blank one) every lead is selected, otherwise the leads of
    that source. *)
Theorem status_counts_are_exact (t : Db.table) (source s : string) :
  Queries.status_counts t source !! s
  = if Tally.tally source s (Db.rows t) =? 0 then None
    else Some (Tally.tally source s (Db.rows t)).
Proof. apply TallyFacts.status_counts_lookup. Qed.

(** X19. Ingestion never moves a lead between statuses: whatever the
    batch, and also when it ends in an exception, the count of every
    status other than [new] is what it was, under every source filter. *)
Theorem ingestion_keeps_status_counts
  (int_of_float_str : string -> option Z) (now : Z) (t : Db.table)
  (rs : list (list (string * Py.scalar))) (src : string) (flag : bool)
  (score_fn : option (gmap string Py.scalar
                      -> Py.outcome (Z * list string)))
  (source s : string) :
  s <> "new" ->
  Queries.status_counts
    (fst (Db.upsert_leads_from_rows int_of_float_str now t rs src flag
            score_fn)) source !! s
  = Queries.status_counts t source !! s.
Proof.
  intros Hs. rewrite !TallyFacts.status_counts_lookup.
  unfold Db.upsert_leads_from_rows.
  rewrite (TallyFacts.upsert_loop_tally int_of_float_str now src flag
             score_fn rs source s Hs).
  reflexivity.
Qed.

Lemma ingestion_keeps_status_counts_witness :
  Queries.status_counts
    (fst (Db.upsert_leads_from_rows Sample.no_float 300 Tally.two_leads
            Shape.mixed_batch "x" false None)) "" !! "contacted"
  = Queries.status_counts Tally.two_leads "" !! "contacted".
Proof.
  apply (ingestion_keeps_status_counts Sample.no_float 300 Tally.two_leads
           Shape.mixed_batch "x" false None "" "contacted").
  discriminate.
Defined.

(** ** Scoring, beyond the claims *)

Module ReasonFacts.
Import Py Scoring Spec Reasons PyStrFacts ScoringFacts.

Lemma tagged_not_website (code : string) :
  has_category_tag code = true -> ~ In code website_codes.
Proof.
  intros Ht Hin. unfold website_codes in Hin. simpl in Hin.
  destruct Hin as [<-|[<-|[<-|[<-|[]]]]]; vm_compute in Ht; discriminate.
Qed.

Lemma token_rule_tagged (tag : string) (table : list (string * Z))
  (c : ctx) :
  In tag category_tags ->
  Forall (fun code => has_category_tag code = true)
    (map snd (token_rule tag table c)).
Proof.
  intros Htag. unfold token_rule. rewrite map_map. simpl.
  rewrite List.Forall_forall. intros code Hin.
  apply in_map_iff in Hin as (kp & <- & _).
  unfold has_category_tag. apply existsb_exists.
  exists tag. split; [exact Htag|apply starts_with_append].
Qed.

(** The reasons around the website-state code. *)
Lemma fired_split (c : ctx) :
  map snd (fired c)
  = map snd (rule_intent c ++ rule_pain c ++ rule_service c
             ++ rule_role c ++ rule_owner c)
    ++ snd (fst (website_rule c))
    :: map snd (rule_fit c ++ rule_whatsapp c ++ rule_phone c
                ++ rule_tel c ++ rule_email c ++ rule_negative c
                ++ rule_committee c).
Proof.
  unfold fired. rewrite fire_before, fire_after. unfold rule_website.
  rewrite !map_app. cbn [map]. rewrite <- !app_assoc. reflexivity.
Qed.

Lemma website_code (c : ctx) :
  In (snd (fst (website_rule c))) website_codes
  /\ 3 <= fst (fst (website_rule c)).
Proof.
  unfold website_rule, website_codes.
  repeat split_rule; cbn; (split; [tauto|lia]).
Qed.

Lemma before_tagged (c : ctx) :
  Forall (fun code => has_category_tag code = true)
    (map snd (rule_intent c ++ rule_pain c ++ rule_service c
              ++ rule_role c ++ rule_owner c)).
Proof.
  rewrite !map_app, !Forall_app.
  repeat split;
    try (apply token_rule_tagged; unfold category_tags; simpl; tauto).
  - unfold rule_intent, matched. split_rule; repeat constructor.
  - unfold rule_pain, matched. split_rule; repeat constructor.
  - unfold rule_owner. split_rule; repeat constructor.
Qed.

Lemma after_tagged (c : ctx) :
  Forall (fun code => has_category_tag code = true)
    (map snd (rule_fit c ++ rule_whatsapp c ++ rule_phone c
              ++ rule_tel c ++ rule_email c ++ rule_negative c
              ++ rule_committee c)).
Proof.
  rewrite !map_app, !Forall_app.
  repeat split;
    try (apply token_rule_tagged; unfold category_tags; simpl; tauto).
  - unfold rule_fit. repeat split_rule; repeat constructor.
  - unfold rule_whatsapp. split_rule; repeat constructor.
  - unfold rule_phone. split_rule; repeat constructor.
  - unfold rule_tel. split_rule; repeat constructor.
  - unfold rule_email. split_rule; repeat constructor.
  - unfold rule_committee, matched. split_rule; repeat constructor.
Qed.

Lemma sorted_lt_NoDup {A : Type} (f : A -> nat) (l : list A) :
  StronglySorted lt (map f l) -> NoDup l.
Proof.
  induction l as [|x l IH]; cbn [map]; intros H; [constructor|].
  apply StronglySorted_inv in H as [Hl Hx]. constructor; [|apply IH, Hl].
  intros Hin. rewrite List.Forall_forall in Hx.
  specialize (Hx (f x)).
  assert (f x < f x)%nat; [|lia].
  apply Hx. apply in_map. apply list_elem_of_In. exact Hin.
Qed.

Ltac positive_entry :=
  first [ apply List.Forall_nil
        | apply List.Forall_cons;
          [right; split; [reflexivity|cbn; lia]|apply List.Forall_nil] ].

Lemma token_rule_signed (tag : string) (table : list (string * Z))
  (c : ctx) (neg : bool) :
  (forall k, PyStr.starts_with "neg:" (tag +:+ k) = neg) ->
  forallb (fun kp => if neg then snd kp <? 0 else 0 <? snd kp) table
  = true ->
  Forall signed (token_rule tag table c).
Proof.
  intros Htag Htable. unfold token_rule.
  rewrite List.Forall_forall. intros e Hin.
  apply in_map_iff in Hin as (kp & <- & Hkp).
  apply filter_In in Hkp as [Hkp _].
  rewrite forallb_forall in Htable. specialize (Htable kp Hkp).
  unfold signed. cbn [fst snd]. rewrite Htag.
  destruct neg; [left|right]; (split; [reflexivity|lia]).
Qed.

Lemma fired_signed (c : ctx) : Forall signed (fired c).
Proof.
  unfold fired. rewrite fire_before, fire_after, !Forall_app.
  repeat split.
  - unfold rule_intent. generalize (matched booking_phrases c).
    intros [|p m]; constructor; [|constructor].
    right. cbn [fst snd]. split; [reflexivity|].
    unfold count. generalize (length (p :: m)). intros n. lia.
  - unfold rule_pain. generalize (matched pain_phrases c).
    intros [|p m]; constructor; [|constructor].
    right. cbn [fst snd]. split; [reflexivity|].
    unfold count. generalize (length (p :: m)). intros n. lia.
  - apply (token_rule_signed "svc:" service_tokens c false);
      [intros k|]; reflexivity.
  - apply (token_rule_signed "role:" solo_seller_tokens c false);
      [intros k|]; reflexivity.
  - unfold rule_owner. split_rule; positive_entry.
  - unfold rule_website, website_rule. repeat split_rule; positive_entry.
  - unfold rule_fit. repeat split_rule; positive_entry.
  - unfold rule_whatsapp. split_rule; positive_entry.
  - unfold rule_phone. split_rule; positive_entry.
  - unfold rule_tel. split_rule; positive_entry.
  - unfold rule_email. split_rule; positive_entry.
  - apply (token_rule_signed "neg:" negative c true);
      [intros k|]; reflexivity.
  - unfold rule_committee. generalize (matched committee_phrases c).
    intros [|p m]; constructor; [|constructor].
    left. cbn [fst snd]. split; [reflexivity|].
    unfold count. generalize (length (p :: m)). intros n. lia.
Qed.

Lemma total_nonneg (es : list entry) :
  Forall (fun e => 0 < fst e) es -> 0 <= total es.
Proof.
  induction 1 as [|e es He _ IH].
  - unfold total. cbn. lia.
  - change (e :: es) with ([e] ++ es). rewrite total_app.
    unfold total at 1. cbn [fold_left]. lia.
Qed.

End ReasonFacts.

(** X20. Every result of [score_row] names exactly one website state:
    one of the four website-state codes occurs once among the reasons,
    and every other reason carries a category tag, which none of those
    four codes does. In particular the list of reasons is never empty. *)
Theorem one_website_state_per_result (r : gmap string Py.scalar) :
  exists (before : list string) (code : string) (after : list string),
    snd (Scoring.score_row r) = before ++ code :: after
    /\ In code Spec.website_codes
    /\ Forall (fun other => Spec.has_category_tag other = true
                            /\ ~ In other Spec.website_codes)
         (before ++ after).
Proof.
  rewrite ScoringFacts.score_row_snd, ReasonFacts.fired_split.
  eexists _, _, _. split; [reflexivity|].
  split; [apply (proj1 (ReasonFacts.website_code (Scoring.row_ctx r)))|].
  apply Forall_app. split.
  - eapply List.Forall_impl; [|apply ReasonFacts.before_tagged].
    intros code H. split; [exact H|apply ReasonFacts.tagged_not_website, H].
  - eapply List.Forall_impl; [|apply ReasonFacts.after_tagged].
    intros code H. split; [exact H|apply ReasonFacts.tagged_not_website, H].
Qed.

(** X21. No reason code is listed twice. *)
Theorem reasons_are_distinct (r : gmap string Py.scalar) :
  NoDup (snd (Scoring.score_row r)).
Proof.
  rewrite ScoringFacts.score_row_snd.
  apply (ReasonFacts.sorted_lt_NoDup Spec.rule_rank).
  eapply ScoringFacts.sublist_sorted;
    [apply ScoringFacts.fired_ranks|apply ScoringFacts.seq_sorted].
Qed.

(** X22. Only a reason tagged [neg:] lowers the score: a row none of
    whose reasons carries that tag scores at least 3, the least the
    website-state rule adds. *)
Theorem score_without_deductions (r : gmap string Py.scalar) :
  Forall (fun code => PyStr.starts_with "neg:" code = false)
    (snd (Scoring.score_row r)) ->
  3 <= fst (Scoring.score_row r).
Proof.
  rewrite ScoringFacts.score_row_snd, ScoringFacts.score_row_fst.
  unfold Scoring.raw_score. generalize (Scoring.row_ctx r). intros c Hneg.
  assert (Hpos : Forall (fun e => 0 < fst e) (Scoring.fired c)).
  { pose proof (ReasonFacts.fired_signed c) as Hs.
    rewrite List.Forall_forall in *. intros e He.
    destruct (Hs e He) as [[Ht _]|[_ Hp]]; [|exact Hp].
    rewrite (Hneg (snd e)) in Ht; [discriminate|].
    apply in_map, He. }
  assert (Hsum : 3 <= Scoring.total (Scoring.fired c)).
  { revert Hpos. unfold Scoring.fired.
    rewrite ScoringFacts.fire_before. unfold Scoring.rule_website.
    rewrite !Forall_app, !ScoringFacts.total_app.
    intros ((H1 & H2 & H3 & H4 & H5 & _ & H7) & H8 & H9).
    apply ReasonFacts.total_nonneg in H1, H2, H3, H4, H5, H7, H8, H9.
    pose proof (proj2 (ReasonFacts.website_code c)) as Hw.
    assert (E : Scoring.total [ fst (Scoring.website_rule c) ]
                = fst (fst (Scoring.website_rule c)))
      by (unfold Scoring.total; cbn [fold_left]; lia).
    rewrite E.
    lia. }
  revert Hsum. generalize (Scoring.total (Scoring.fired c)).
  intros z Hz. unfold Scoring.clamp. lia.
Qed.

Lemma score_without_deductions_witness :
  3 <= fst (Scoring.score_row
              {[ "name" := Py.PStr "Acme"; "website" := Py.PStr "acme.example" ]}).
Proof.
  apply score_without_deductions. vm_compute. repeat constructor.
Defined.

(** ** The audit sweep *)

Module SweepFacts.
Import Py Db Sweep.

(** *** The queue *)

Lemma insert_by_perm (x : lead) (l : list lead) :
  Permutation (insert_by x l) (x :: l).
Proof.
  induction l as [|y l IH]; cbn [insert_by]; [reflexivity|].
  destruct (precedes x y); [reflexivity|].
  etransitivity; [apply perm_skip, IH|apply perm_swap].
Qed.

Lemma order_by_perm (l : list lead) : Permutation (order_by l) l.
Proof.
  induction l as [|x l IH]; [reflexivity|].
  unfold order_by. cbn [fold_right].
  etransitivity; [apply insert_by_perm|apply perm_skip, IH].
Qed.

Lemma null_le_total (a b : option Z) :
  null_le a b = false -> null_le b a = true.
Proof.
  destruct a as [x|], b as [y|]; cbn; try congruence.
  intros H. apply Z.leb_gt in H. apply Z.leb_le. lia.
Qed.

Lemma null_le_trans (a b c : option Z) :
  null_le a b = true -> null_le b c = true -> null_le a c = true.
Proof.
  destruct a as [x|], b as [y|], c as [z|]; cbn; try congruence.
  rewrite !Z.leb_le. lia.
Qed.

(** [x] scores at least as much as [y]. *)
Lemma precedes_true (x y : lead) :
  precedes x y = true -> null_le (score y) (score x) = true.
Proof.
  unfold precedes, null_lt.
  destruct (null_le (score x) (score y)) eqn:Exy; cbn [negb].
  - destruct (null_le (score y) (score x)); [reflexivity|discriminate].
  - intros _. apply null_le_total, Exy.
Qed.

Lemma precedes_false (x y : lead) :
  precedes x y = false -> null_le (score x) (score y) = true.
Proof.
  unfold precedes, null_lt.
  destruct (null_le (score x) (score y)); [reflexivity|discriminate].
Qed.

Lemma insert_by_sorted (x : lead) (l : list lead) :
  StronglySorted (fun a b => null_le (score b) (score a) = true) l ->
  StronglySorted (fun a b => null_le (score b) (score a) = true)
    (insert_by x l).
Proof.
  induction 1 as [|y l Hl IH Hy]; cbn [insert_by].
  - repeat constructor.
  - destruct (precedes x y) eqn:E.
    + constructor; [constructor; assumption|].
      apply precedes_true in E. constructor; [exact E|].
      eapply List.Forall_impl; [|exact Hy].
      intros z Hz. exact (null_le_trans _ _ _ Hz E).
    + constructor; [exact IH|].
      apply precedes_false in E.
      rewrite List.Forall_forall in *. intros z Hz.
      apply (Permutation_in _ (insert_by_perm x l)) in Hz.
      destruct Hz as [<-|Hz]; [exact E|apply Hy, Hz].
Qed.

Lemma order_by_sorted (l : list lead) :
  StronglySorted (fun a b => null_le (score b) (score a) = true)
    (order_by l).
Proof.
  induction l as [|x l IH]; [constructor|].
  unfold order_by. cbn [fold_right]. apply insert_by_sorted, IH.
Qed.

Lemma sorted_cut {A : Type} (R : A -> A -> Prop) (k : nat) (l : list A) :
  StronglySorted R l ->
  Forall (fun x => Forall (R x) (skipn k l)) (firstn k l).
Proof.
  intros H. revert k. induction H as [|x l Hl IH Hx]; intros [|k];
    cbn [firstn skipn]; try constructor.
  - rewrite List.Forall_forall in *. intros y Hy.
    apply Hx. rewrite <- (firstn_skipn k l). apply in_or_app. right.
    exact Hy.
  - apply IH.
Qed.

(** *** Storing results *)

Lemma or_empty_strip_eq (v : string) : or_empty_strip v = PyStr.strip v.
Proof. destruct v; reflexivity. Qed.

Lemma int64_small (z : Z) : 0 <= z <= 100 -> int64 z = true.
Proof.
  intros H. unfold int64. apply andb_true_intro.
  change (2 ^ 63) with 9223372036854775808.
  split; [apply Z.leb_le|apply Z.ltb_lt]; lia.
Qed.

Lemma apply_result_id (l : lead) (ir : Z * Audit.audit_result) :
  lead_id (apply_result l ir) = lead_id l.
Proof. unfold apply_result. destruct (has_id _ _); reflexivity. Qed.

Lemma apply_result_erase (l : lead) (ir : Z * Audit.audit_result) :
  erase_audit (apply_result l ir) = erase_audit l.
Proof. unfold apply_result. destruct (has_id _ _); reflexivity. Qed.

Lemma apply_all_id (results : list (Z * Audit.audit_result)) :
  forall l, lead_id (fold_left apply_result results l) = lead_id l.
Proof.
  induction results as [|ir rs IH]; intros l; [reflexivity|].
  cbn [fold_left]. rewrite IH. apply apply_result_id.
Qed.

Lemma apply_all_erase (results : list (Z * Audit.audit_result)) :
  forall l, erase_audit (fold_left apply_result results l) = erase_audit l.
Proof.
  induction results as [|ir rs IH]; intros l; [reflexivity|].
  cbn [fold_left]. rewrite IH. apply apply_result_erase.
Qed.

Lemma apply_all_other (results : list (Z * Audit.audit_result)) :
  forall l, ~ In (lead_id l) (map fst results) ->
            fold_left apply_result results l = l.
Proof.
  induction results as [|[i r] rs IH]; intros l Hl; [reflexivity|].
  cbn [fold_left map fst] in *.
  assert (E : apply_result l (i, r) = l).
  { unfold apply_result, has_id. cbn [fst].
    destruct (Z.eqb_spec (lead_id l) i) as [<-|_]; [|reflexivity].
    exfalso. apply Hl. left. reflexivity. }
  rewrite E. apply IH. intros H. apply Hl. right. exact H.
Qed.

Lemma stored_stored (r r' : Audit.audit_result) (l : lead) :
  stored r (stored r' l) = stored r l.
Proof. reflexivity. Qed.

Lemma apply_all_stored (results : list (Z * Audit.audit_result)) :
  forall l r0,
    exists r, (r = r0 \/ In (lead_id l, r) results)
              /\ fold_left apply_result results (stored r0 l) = stored r l.
Proof.
  induction results as [|[i r] rs IH]; intros l r0.
  - exists r0. split; [left; reflexivity|reflexivity].
  - cbn [fold_left]. unfold apply_result at 2. cbn [fst snd].
    unfold has_id.
    change (lead_id (stored r0 l)) with (lead_id l).
    destruct (Z.eqb_spec (lead_id l) i) as [<-|_].
    + rewrite stored_stored.
      destruct (IH l r) as (r1 & [->|Hin] & E).
      * exists r. split; [right; left; reflexivity|exact E].
      * exists r1. split; [right; right; exact Hin|exact E].
    + destruct (IH l r0) as (r1 & [->|Hin] & E).
      * exists r0. split; [left; reflexivity|exact E].
      * exists r1. split; [right; right; exact Hin|exact E].
Qed.

Lemma apply_all_hit (results : list (Z * Audit.audit_result)) :
  forall l, In (lead_id l) (map fst results) ->
            exists r, In (lead_id l, r) results
                      /\ fold_left apply_result results l = stored r l.
Proof.
  induction results as [|[i r] rs IH]; intros l Hl; [destruct Hl|].
  cbn [fold_left]. unfold apply_result at 2. cbn [fst snd]. unfold has_id.
  destruct (Z.eqb_spec (lead_id l) i) as [<-|Hne].
  - destruct (apply_all_stored rs l r) as (r1 & [->|Hin] & E).
    + exists r. split; [left; reflexivity|exact E].
    + exists r1. split; [right; exact Hin|exact E].
  - cbn [map fst] in Hl. destruct Hl as [Hl|Hl]; [congruence|].
    destruct (IH l Hl) as (r1 & Hin & E).
    exists r1. split; [right; exact Hin|exact E].
Qed.

Lemma Forall2_map_self {A B : Type} (P : A -> B -> Prop) (F : A -> B)
  (l : list A) :
  (forall x, In x l -> P x (F x)) -> Forall2 P l (map F l).
Proof.
  induction l as [|x l IH]; intros H; cbn [map]; constructor.
  - apply H. left. reflexivity.
  - apply IH. intros y Hy. apply H. right. exact Hy.
Qed.

Section WithLibrary.
Variable int_of_float_str : string -> option Z.
Variable decode : string -> string.
Variable netloc_valid : string -> bool.
Variable float_max0 : pyfloat -> pyfloat.

Lemma update_ok (t : table) (i : Z) (r : Audit.audit_result) :
  storable i r ->
  update_website_audit int_of_float_str t i r
  = Ok {| rows := map (fun l => apply_result l (i, r)) (rows t);
          last_rowid := last_rowid t |}.
Proof.
  intros (Hi & Hs & Hc & Hh). unfold update_website_audit.
  cbn [_to_int bind_int]. rewrite Hs, Hc. cbn [bind].
  rewrite !or_empty_strip_eq.
  assert (E : bind_int (_to_int int_of_float_str
                          (int_value (Audit.website_http_status r)))
              = Ok (Audit.website_http_status r)).
  { destruct (Audit.website_http_status r) as [z|]; cbn; [|reflexivity].
    rewrite Hh. reflexivity. }
  rewrite E, Hi. reflexivity.
Qed.

Lemma update_overflow (t : table) (i : Z) (r : Audit.audit_result) :
  ~ storable i r ->
  update_website_audit int_of_float_str t i r = Raise OverflowError.
Proof.
  intros H. unfold update_website_audit, storable in *.
  cbn [_to_int bind_int].
  destruct (int64 (Audit.website_score r)); [|reflexivity].
  destruct (int64 (Audit.website_checked_at r)); [|reflexivity].
  cbn [bind].
  destruct (Audit.website_http_status r) as [z|]; cbn [int_value _to_int
    bind_int].
  - destruct (int64 z); [|reflexivity]. cbn [bind].
    destruct (int64 i); [|reflexivity]. exfalso. apply H. auto.
  - cbn [bind]. destruct (int64 i); [|reflexivity].
    exfalso. apply H. auto.
Qed.

Lemma store_results_ok (results : list (Z * Audit.audit_result)) :
  Forall (fun ir => storable (fst ir) (snd ir)) results ->
  forall t,
    rows (fst (store_results int_of_float_str results t))
    = map (fun l => fold_left apply_result results l) (rows t)
    /\ last_rowid (fst (store_results int_of_float_str results t))
       = last_rowid t
    /\ snd (store_results int_of_float_str results t) = Ok tt.
Proof.
  induction 1 as [|[i r] rs Hir _ IH]; intros t.
  - cbn [store_results fst snd fold_left]. rewrite map_id. auto.
  - cbn [store_results]. rewrite (update_ok t i r Hir).
    destruct (IH {| rows := map (fun l => apply_result l (i, r)) (rows t);
                    last_rowid := last_rowid t |}) as (Hr & Hl & Ho).
    rewrite Hr, Hl, Ho. cbn [rows last_rowid fold_left].
    rewrite map_map. auto.
Qed.

(** *** The loop over the URLs *)

Lemma audit_loop_run (cfg : Audit.AuditConfig) (clock : nat -> Z)
  (net : nat -> Audit.request -> Audit.fetch_outcome)
  (urls : list (Z * string)) :
  forall k out,
    run_sweep clock net k
      (audit_loop decode netloc_valid float_max0 urls cfg out)
    = out ++ audited decode netloc_valid clock net cfg k urls
    /\ pauses clock net k
         (audit_loop decode netloc_valid float_max0 urls cfg out)
       = repeat (float_max0 (Audit.sleep_s cfg)) (length urls).
Proof.
  induction urls as [|[i u] urls IH]; intros k out.
  - cbn. rewrite app_nil_r. auto.
  - cbn [audit_loop run_sweep pauses audited length repeat].
    destruct (IH (S k)
                (out ++ [ (i, Audit.run (clock k) (net k)
                                (Audit.audit_website decode netloc_valid
                                   u cfg)) ])) as [-> ->].
    rewrite <- app_assoc. auto.
Qed.

Lemma run_sweep_bind {A B : Type} (clock : nat -> Z)
  (net : nat -> Audit.request -> Audit.fetch_outcome)
  (g : A -> B) (m : sweep A) :
  forall k,
    run_sweep clock net k (sweep_bind m (fun a => Done (g a)))
    = g (run_sweep clock net k m).
Proof.
  induction m as [a|a f IH|d m IH]; intros k; cbn; auto.
Qed.

Lemma audited_ids (cfg : Audit.AuditConfig) (clock : nat -> Z)
  (net : nat -> Audit.request -> Audit.fetch_outcome)
  (urls : list (Z * string)) :
  forall k,
    map fst (audited decode netloc_valid clock net cfg k urls)
    = map fst urls.
Proof.
  induction urls as [|[i u] urls IH]; intros k; [reflexivity|].
  cbn [audited map fst]. rewrite IH. reflexivity.
Qed.

Lemma audited_in (cfg : Audit.AuditConfig) (clock : nat -> Z)
  (net : nat -> Audit.request -> Audit.fetch_outcome)
  (urls : list (Z * string)) (i : Z) (r : Audit.audit_result) :
  forall k,
    In (i, r) (audited decode netloc_valid clock net cfg k urls) ->
    exists k' url,
      In (i, url) urls
      /\ r = Audit.run (clock k') (net k')
               (Audit.audit_website decode netloc_valid url cfg).
Proof.
  induction urls as [|[j u] urls IH]; intros k H; [destruct H|].
  cbn [audited] in H. destruct H as [H|H].
  - apply pair_equal_spec in H as [<- <-].
    exists k, u. split; [left; reflexivity|reflexivity].
  - destruct (IH (S k) H) as (k' & url & Hin & E).
    exists k', url. split; [right; exact Hin|exact E].
Qed.

(** In a sane world every result of an audit can be stored. *)
Lemma audit_storable (cfg : Audit.AuditConfig) (clock : nat -> Z)
  (net : nat -> Audit.request -> Audit.fetch_outcome)
  (k : nat) (i : Z) (url : string) :
  sane clock net -> int64 i = true ->
  storable i (Audit.run (clock k) (net k)
                (Audit.audit_website decode netloc_valid url cfg)).
Proof.
  intros [Hclock Hnet] Hi.
  destruct (UrlFacts.audit_result_band decode netloc_valid url cfg
              (clock k) (net k)) as [B T].
  pose proof (UrlFacts.audit_result_status decode netloc_valid url cfg
                (clock k) (net k)) as S.
  cbv zeta in B, T, S. revert B T S.
  generalize (Audit.run (clock k) (net k)
                (Audit.audit_website decode netloc_valid url cfg)).
  intros r B T S. unfold storable.
  split; [exact Hi|]. split; [|split].
  - apply int64_small. unfold Verdict.band in B. lia.
  - rewrite T. apply Hclock.
  - destruct (Audit.website_http_status r) as [z|] eqn:E; [|exact I].
    destruct S as [S|[(req & S)|(req & resp & S & S')]]; [discriminate| |].
    + specialize (Hnet k req). rewrite S in Hnet. exact Hnet.
    + specialize (Hnet k req). rewrite S in Hnet. cbn [fits] in Hnet.
      unfold Audit.or_none in S'.
      destruct (Audit.resp_status resp) as [w|]; [|discriminate].
      destruct (w =? 0); [discriminate|]. injection S' as ->. exact Hnet.
Qed.

End WithLibrary.

End SweepFacts.

Module JobFacts.
Import Py Db Sweep SweepFacts.

Lemma limit_all {A : Type} (n : Z) (l : list A) :
  n < 0 \/ Z.of_nat (length l) <= n -> limit n l = l.
Proof.
  intros H. unfold limit. destruct (Z.ltb_spec n 0); [reflexivity|].
  apply firstn_all2. lia.
Qed.

Lemma limit_cut {A : Type} (n : Z) (l : list A) :
  exists rest,
    limit n l ++ rest = l
    /\ (n < 0 -> rest = [])
    /\ rest = (if n <? 0 then [] else skipn (Z.to_nat n) l)
    /\ (0 <= n -> Z.of_nat (length (limit n l))
                  = Z.min n (Z.of_nat (length l))).
Proof.
  unfold limit. destruct (Z.ltb_spec n 0).
  - exists []. rewrite app_nil_r. repeat split; auto. lia.
  - exists (skipn (Z.to_nat n) l). rewrite firstn_skipn.
    repeat split; auto; [lia|]. intros _. rewrite length_firstn. lia.
Qed.

Lemma erase_audit_shape (l l' : list lead) :
  map erase_audit l' = map erase_audit l ->
  map Shape.identity l' = map Shape.identity l
  /\ map lead_id l' = map lead_id l.
Proof.
  intros H. split.
  - apply (f_equal (map Shape.identity)) in H.
    rewrite !map_map in H. exact H.
  - apply (f_equal (map lead_id)) in H. rewrite !map_map in H. exact H.
Qed.

Lemma erase_audit_well_formed (t t' : table) :
  map erase_audit (rows t') = map erase_audit (rows t) ->
  last_rowid t' = last_rowid t ->
  Shape.well_formed t -> Shape.well_formed t'.
Proof.
  intros H Hl. destruct (erase_audit_shape _ _ H) as [Hi Hd].
  unfold Shape.well_formed. rewrite Hi, Hd, Hl. auto.
Qed.

Lemma map_apply_erase (results : list (Z * Audit.audit_result))
  (l : list lead) :
  map erase_audit (map (fun x => fold_left apply_result results x) l)
  = map erase_audit l.
Proof.
  rewrite map_map. apply map_ext. intros x. apply apply_all_erase.
Qed.

End JobFacts.

(** X23. The audit queue holds the best unchecked leads: what
    [leads_needing_website_audit] returns are leads of the table that no
    audit has checked, each once; with a bound they are as many as the
    bound allows, without one (a negative bound) all of them; and no
    unchecked lead that is left out scores more than one that is
    chosen, a missing score counting as the least. *)
Theorem audit_queue_takes_best_unchecked
  (t : Db.table) (max_sites : Z) (cs : list Sweep.candidate) :
  Sweep.leads_needing_website_audit t max_sites = Py.Ok cs ->
  exists chosen rest : list Db.lead,
    cs = map Sweep.select_candidate chosen
    /\ Permutation (chosen ++ rest)
         (List.filter Sweep.unchecked (Db.rows t))
    /\ (max_sites < 0 -> rest = [])
    /\ (0 <= max_sites ->
        Z.of_nat (length chosen)
        = Z.min max_sites
            (Z.of_nat (length (List.filter Sweep.unchecked (Db.rows t)))))
    /\ Forall (fun s =>
                 Forall (fun l =>
                           Sweep.null_le (Db.score l) (Db.score s) = true)
                   rest) chosen.
Proof.
  unfold Sweep.leads_needing_website_audit.
  destruct (Db.int64 max_sites); [|discriminate]. intros [= <-].
  set (sorted := Sweep.order_by (List.filter Sweep.unchecked (Db.rows t))).
  destruct (JobFacts.limit_cut max_sites sorted)
    as (rest & Hcut & Hneg & Hrest & Hlen).
  exists (Sweep.limit max_sites sorted), rest.
  split; [reflexivity|]. split; [|split; [exact Hneg|split]].
  - rewrite Hcut. apply SweepFacts.order_by_perm.
  - intros Hn. rewrite (Hlen Hn). f_equal. f_equal.
    apply Permutation_length, SweepFacts.order_by_perm.
  - rewrite Hrest. unfold Sweep.limit.
    destruct (max_sites <? 0).
    + rewrite List.Forall_forall. intros s _. constructor.
    + apply (SweepFacts.sorted_cut
               (fun a b => Sweep.null_le (Db.score b) (Db.score a) = true)).
      apply SweepFacts.order_by_sorted.
Qed.

Lemma audit_queue_takes_best_unchecked_witness :
  exists chosen rest : list Db.lead,
    [ Sweep.select_candidate (Sweep.scored 1 "bob" 7 "") ]
    = map Sweep.select_candidate chosen
    /\ Permutation (chosen ++ rest)
         (List.filter Sweep.unchecked (Db.rows Sweep.scored_leads))
    /\ (1 < 0 -> rest = [])
    /\ (0 <= 1 ->
        Z.of_nat (length chosen)
        = Z.min 1
            (Z.of_nat
               (length (List.filter Sweep.unchecked
                          (Db.rows Sweep.scored_leads)))))
    /\ Forall (fun s =>
                 Forall (fun l =>
                           Sweep.null_le (Db.score l) (Db.score s) = true)
                   rest) chosen.
Proof.
  apply (audit_queue_takes_best_unchecked Sweep.scored_leads 1).
  vm_compute. reflexivity.
Defined.

(** X24. Storing an audit result writes the six audit columns of the
    lead with that identifier, strings stripped, and nothing else: the
    other columns of every row, the other rows and the row counter are
    as before, and so is the shape of the table. A value that does not
    fit a database integer raises [OverflowError] instead. *)
Theorem audit_result_is_stored
  (int_of_float_str : string -> option Z)
  (t : Db.table) (lead_id : Z) (r : Audit.audit_result) :
  (Sweep.storable lead_id r ->
   exists t',
     Sweep.update_website_audit int_of_float_str t lead_id r = Py.Ok t'
     /\ Db.last_rowid t' = Db.last_rowid t
     /\ map Sweep.erase_audit (Db.rows t')
        = map Sweep.erase_audit (Db.rows t)
     /\ Forall2 (fun l l' =>
                   if Db.has_id lead_id l
                   then Shape.audit_columns l'
                        = (Some (Audit.website_score r),
                           Some (PyStr.strip (Audit.website_verdict r)),
                           Some (PyStr.strip (Audit.website_findings r)),
                           Some (Audit.website_checked_at r),
                           Some (PyStr.strip (Audit.website_final_url r)),
                           Audit.website_http_status r)
                   else l' = l) (Db.rows t) (Db.rows t')
     /\ (Shape.well_formed t -> Shape.well_formed t'))
  /\ (~ Sweep.storable lead_id r ->
      Sweep.update_website_audit int_of_float_str t lead_id r
      = Py.Raise Py.OverflowError).
Proof.
  split; [|apply SweepFacts.update_overflow].
  intros Hs. rewrite (SweepFacts.update_ok int_of_float_str t lead_id r Hs).
  eexists. split; [reflexivity|]. cbn [Db.rows Db.last_rowid].
  assert (E : map Sweep.erase_audit
                (map (fun l => Sweep.apply_result l (lead_id, r)) (Db.rows t))
              = map Sweep.erase_audit (Db.rows t)).
  { rewrite map_map. apply map_ext. intros x.
    apply SweepFacts.apply_result_erase. }
  split; [reflexivity|]. split; [exact E|]. split.
  - apply SweepFacts.Forall2_map_self. intros l _.
    unfold Sweep.apply_result. cbn [fst snd].
    destruct (Db.has_id lead_id l); reflexivity.
  - apply JobFacts.erase_audit_well_formed; [exact E|reflexivity].
Qed.

Lemma audit_result_is_stored_witness :
  exists t',
    Sweep.update_website_audit Sample.no_float Sweep.scored_leads 2
      Sweep.parked_result = Py.Ok t'
    /\ Db.last_rowid t' = 3
    /\ map Sweep.erase_audit (Db.rows t')
       = map Sweep.erase_audit (Db.rows Sweep.scored_leads).
Proof.
  destruct (proj1 (audit_result_is_stored Sample.no_float Sweep.scored_leads
                     2 Sweep.parked_result))
    as (t' & Hrun & Hlast & Hframe & _).
  - repeat split; reflexivity.
  - exists t'. split; [exact Hrun|]. split; [exact Hlast|exact Hframe].
Defined.




(** ** Scoring on import *)

Module ImportFacts.
Import Py Db.

Section WithLibrary.
Variable int_of_float_str : string -> option Z.

(** The row after the scoring step, for a row without a score. *)
Lemma with_score_missing (r2 : gmap string scalar) :
  _to_int int_of_float_str (dict_get r2 "score") = None ->
  let scored :=
    with_score int_of_float_str true
      (Some (fun r => Ok (Scoring.score_row r))) r2 in
  dict_get scored "score" = PInt (fst (Scoring.score_row r2))
  /\ dict_get scored "reason"
     = PStr (PyStr.join " | " (firstn 18 (snd (Scoring.score_row r2)))).
Proof.
  intros H. unfold with_score. rewrite H. cbn [is_none andb].
  destruct (Scoring.score_row r2) as [s reasons]. cbn [fst snd].
  unfold dict_get. rewrite lookup_insert_ne by discriminate.
  rewrite !lookup_insert_eq. split; reflexivity.
Qed.

Lemma with_score_present flag score_fn (r2 : gmap string scalar) (z : Z) :
  _to_int int_of_float_str (dict_get r2 "score") = Some z ->
  with_score int_of_float_str flag score_fn r2 = r2.
Proof.
  intros H. unfold with_score. rewrite H. cbn [is_none].
  rewrite andb_false_r. destruct score_fn; reflexivity.
Qed.

Lemma get_stripped_str (out : gmap string scalar) (k s : string) :
  dict_get out k = PStr s -> get_stripped out k = Ok (PyStr.strip s).
Proof.
  intros H. unfold get_stripped. rewrite H. destruct s; reflexivity.
Qed.

Lemma bind_int_some (z : Z) (o : option Z) :
  bind_int (Some z) = Ok o -> o = Some z.
Proof. cbn. destruct (int64 z); congruence. Qed.

Ltac step_bind H :=
  match type of H with
  | Py.bind ?m _ = _ =>
      destruct m eqn:?; cbn [Py.bind] in H; [|discriminate H]
  end.

Lemma row_params_score now source flag score_fn r p r2 :
  row_params int_of_float_str now source flag score_fn r = Ok (Some p) ->
  _normalize_row r (Shape.batch_source source) = Ok r2 ->
  bind_int (_to_int int_of_float_str
              (dict_get (with_score int_of_float_str flag score_fn r2)
                 "score")) = Ok (p_score p)
  /\ get_stripped (with_score int_of_float_str flag score_fn r2) "reason"
     = Ok (p_reason p).
Proof.
  unfold row_params, Shape.batch_source. intros H Hn. rewrite Hn in H.
  cbn [bind] in H. step_bind H.
  destruct (PyStr.is_empty (PyStr.lstrip_chars "@" s)); [discriminate|].
  repeat step_bind H.
  injection H as <-. cbn [p_score p_reason]. split; reflexivity.
Qed.

End WithLibrary.

End ImportFacts.

(** X27. Import scores what has no score. When rows are imported with
    [score_row] as the scoring function, a persisted row whose
    normalised form has no usable score is stored with the score of
    [score_row] on that form, between 0 and 100, and with its first
    eighteen reasons joined by a bar; a row that brings a score keeps
    it, whatever the scoring function. *)
Theorem import_scores_unscored_rows
  (int_of_float_str : string -> option Z) (now : Z) (source : string)
  (flag : bool)
  (score_fn : option (gmap string Py.scalar
                      -> Py.outcome (Z * list string)))
  (r : list (string * Py.scalar)) (r2 : gmap string Py.scalar)
  (p : Db.insert_params) :
  Db.row_params int_of_float_str now source flag score_fn r
  = Py.Ok (Some p) ->
  Db._normalize_row r (Shape.batch_source source) = Py.Ok r2 ->
  (flag = true ->
   score_fn = Some (fun row => Py.Ok (Scoring.score_row row)) ->
   Db._to_int int_of_float_str (Py.dict_get r2 "score") = None ->
   Db.p_score p = Some (fst (Scoring.score_row r2))
   /\ 0 <= fst (Scoring.score_row r2) <= 100
   /\ Db.p_reason p
      = PyStr.strip
          (PyStr.join " | " (firstn 18 (snd (Scoring.score_row r2)))))
  /\ (forall z,
        Db._to_int int_of_float_str (Py.dict_get r2 "score") = Some z ->
        Db.p_score p = Some z).
Proof.
  intros H Hn.
  destruct (ImportFacts.row_params_score int_of_float_str now source flag
              score_fn r p r2 H Hn) as [Hscore Hreason].
  split.
  - intros -> -> Hmiss.
    destruct (ImportFacts.with_score_missing int_of_float_str r2 Hmiss)
      as [Es Er].
    cbv zeta in Es, Er. rewrite Es in Hscore.
    rewrite (ImportFacts.get_stripped_str _ _ _ Er) in Hreason.
    assert (Hrange : 0 <= fst (Scoring.score_row r2) <= 100).
    { rewrite ScoringFacts.score_row_fst. apply ScoringFacts.clamp_range. }
    revert Hscore Hreason Hrange.
    generalize (fst (Scoring.score_row r2)).
    generalize (PyStr.strip
                  (PyStr.join " | "
                     (firstn 18 (snd (Scoring.score_row r2))))).
    intros s z Hscore Hreason Hrange.
    cbn [Db._to_int] in Hscore.
    apply ImportFacts.bind_int_some in Hscore.
    injection Hreason as <-. auto.
  - intros z Hz.
    rewrite (ImportFacts.with_score_present int_of_float_str flag score_fn
               r2 z Hz) in Hscore.
    rewrite Hz in Hscore. apply ImportFacts.bind_int_some in Hscore.
    exact Hscore.
Qed.

Lemma import_scores_unscored_rows_witness :
  exists p,
    Db.row_params Sample.no_float 300 "x" true
      (Some (fun row => Py.Ok (Scoring.score_row row))) Sample.bob_again
    = Py.Ok (Some p)
    /\ exists r2,
         Db._normalize_row Sample.bob_again (Shape.batch_source "x")
         = Py.Ok r2
         /\ Db.p_score p = Some (fst (Scoring.score_row r2))
         /\ 0 <= fst (Scoring.score_row r2) <= 100.
Proof.
  assert (E1 : Py.bind
                 (Db.row_params Sample.no_float 300 "x" true
                    (Some (fun row => Py.Ok (Scoring.score_row row)))
                    Sample.bob_again)
                 (fun ps => Py.Ok (Db.is_none ps)) = Py.Ok false)
    by (vm_compute; reflexivity).
  assert (E2 : Py.bind
                 (Db._normalize_row Sample.bob_again
                    (Shape.batch_source "x"))
                 (fun out => Py.Ok (Db._to_int Sample.no_float
                                      (Py.dict_get out "score")))
               = Py.Ok None)
    by (vm_compute; reflexivity).
  destruct (Db.row_params Sample.no_float 300 "x" true
              (Some (fun row => Py.Ok (Scoring.score_row row)))
              Sample.bob_again) as [[p|]|e] eqn:Ep;
    [|discriminate E1..].
  destruct (Db._normalize_row Sample.bob_again (Shape.batch_source "x"))
    as [r2|e] eqn:En; [|discriminate E2].
  cbn [Py.bind] in E2. injection E2 as E2.
  exists p. split; [reflexivity|]. exists r2. split; [reflexivity|].
  destruct (import_scores_unscored_rows Sample.no_float 300 "x" true
              (Some (fun row => Py.Ok (Scoring.score_row row)))
              Sample.bob_again r2 p Ep En) as [Hmiss _].
  destruct (Hmiss eq_refl eq_refl E2) as (Hs & Hr & _). auto.
Defined.

(** ** Tokens *)

Module TokenFacts.
Import Py Scoring PyStrFacts.

Lemma all_chars_snoc (p : ascii -> bool) (s : string) (c : ascii) :
  Audit.all_chars p s = true -> p c = true ->
  Audit.all_chars p (s +:+ String c EmptyString) = true.
Proof.
  intros Hs Hc. induction s as [|d s IH].
  - rewrite append_nil_l. cbn. rewrite Hc. reflexivity.
  - rewrite append_cons. cbn in *.
    apply andb_true_iff in Hs as [-> Hs]. apply IH, Hs.
Qed.

Lemma append_empty (s t : string) :
  PyStr.is_empty s = false -> PyStr.is_empty (s +:+ t) = false.
Proof. destruct s; [discriminate|reflexivity]. Qed.

(** Every run is a non-empty piece of the text made of characters of the
    class. *)
Lemma runs_from_pieces (p : ascii -> bool) (s : string) :
  forall pre cur,
    Audit.all_chars p cur = true ->
    Forall (fun tok =>
              PyStr.is_empty tok = false
              /\ Audit.all_chars p tok = true
              /\ exists a b, pre +:+ cur +:+ s = a +:+ tok +:+ b)
      (PyStr.runs_from p cur s).
Proof.
  induction s as [|c s IH]; intros pre cur Hcur; cbn [PyStr.runs_from].
  - destruct (PyStr.is_empty cur) eqn:E; constructor; [|constructor].
    split; [exact E|]. split; [exact Hcur|]. exists pre, EmptyString.
    reflexivity.
  - destruct (p c) eqn:Ec.
    + specialize (IH pre (cur +:+ String c EmptyString)
                    (all_chars_snoc p cur c Hcur Ec)).
      rewrite append_assoc in IH. exact IH.
    + assert (Hrest :
                Forall (fun tok =>
                          PyStr.is_empty tok = false
                          /\ Audit.all_chars p tok = true
                          /\ exists a b,
                               pre +:+ cur +:+ String c s
                               = a +:+ tok +:+ b)
                  (PyStr.runs_from p EmptyString s)).
      { specialize (IH (pre +:+ cur +:+ String c EmptyString) EmptyString
                      eq_refl).
        rewrite append_nil_l, !append_assoc in IH. exact IH. }
      destruct (PyStr.is_empty cur) eqn:E; [exact Hrest|].
      constructor; [|exact Hrest].
      split; [exact E|]. split; [exact Hcur|].
      exists pre, (String c s). reflexivity.
Qed.

Lemma lower_char_idem (c : ascii) :
  PyStr.lower_char (PyStr.lower_char c) = PyStr.lower_char c.
Proof. destruct c as [[] [] [] [] [] [] [] []]; reflexivity. Qed.

Lemma lower_idem (s : string) : PyStr.lower (PyStr.lower s) = PyStr.lower s.
Proof.
  unfold PyStr.lower. induction s as [|c s IH]; [reflexivity|].
  cbn [PyStr.map_chars]. rewrite lower_char_idem, IH. reflexivity.
Qed.

Lemma tokenize_pieces (text : string) :
  Forall (fun tok =>
            PyStr.is_empty tok = false
            /\ Audit.all_chars token_char tok = true
            /\ PyStr.contains tok (PyStr.lower text) = true)
    (_tokenize text).
Proof.
  unfold _tokenize, PyStr.runs.
  eapply List.Forall_impl;
    [|apply (runs_from_pieces token_char (PyStr.lower text) EmptyString
               EmptyString eq_refl)].
  intros tok (Hne & Hall & a & b & E). split; [exact Hne|].
  split; [exact Hall|]. rewrite !append_nil_l in E. rewrite E.
  apply contains_append.
Qed.

End TokenFacts.

(** X28. A token of the row occurs in its text: every member of the token
    set that [score_row] consults is a non-empty run of the characters
    [a-z0-9@#.+-] and a substring of the lower-cased text of the row. So
    a reason of a token rule is only given for a word the row holds. *)
Theorem tokens_occur_in_text (r : gmap string Py.scalar) (k : string) :
  Scoring.in_toks (Scoring.row_ctx r) k = true ->
  PyStr.is_empty k = false
  /\ Audit.all_chars Scoring.token_char k = true
  /\ PyStr.contains k (Scoring.text_l (Scoring.row_ctx r)) = true.
Proof.
  unfold Scoring.in_toks, Scoring.row_ctx. cbn [Scoring.toks Scoring.text_l].
  generalize (PyStr.strip
                (PyStr.join " " (map (Scoring.field r) Scoring.fields))).
  intros t H. apply bool_decide_eq_true_1 in H.
  apply elem_of_list_to_set in H. apply list_elem_of_In in H.
  pose proof (TokenFacts.tokenize_pieces (PyStr.lower t)) as Hall.
  rewrite List.Forall_forall in Hall.
  destruct (Hall k H) as (Hne & Hchars & Hin).
  rewrite TokenFacts.lower_idem in Hin. auto.
Qed.

Lemma tokens_occur_in_text_witness :
  PyStr.is_empty "plumber" = false
  /\ Audit.all_chars Scoring.token_char "plumber" = true
  /\ PyStr.contains "plumber"
       (Scoring.text_l
          (Scoring.row_ctx {[ "bio" := Py.PStr "Plumber, 24h" ]})) = true.
Proof.
  apply tokens_occur_in_text. vm_compute. reflexivity.
Defined.

(** ** Ingesting a row again *)

Module AgainFacts.
Import Py Db Shape DbFacts MergeFacts.

Lemma coalesce_again (a b : option string) :
  COALESCE (NULLIF a "") (COALESCE (NULLIF a "") b)
  = COALESCE (NULLIF a "") b.
Proof. destruct (NULLIF a ""); reflexivity. Qed.

Lemma coalesce_self (a : option string) : COALESCE (NULLIF a "") a = a.
Proof.
  destruct a as [s|]; [|reflexivity]. cbn.
  destruct (String.eqb s ""); reflexivity.
Qed.

(** The second merge of the same parameters changes the time only. *)
Lemma do_update_again (i i' now' : Z) (p : insert_params) (old : lead) :
  erase_last_seen
    (do_update (inserted_row i' (seen_at now' p))
       (do_update (inserted_row i p) old))
  = erase_last_seen (do_update (inserted_row i p) old).
Proof.
  unfold erase_last_seen, do_update.
  cbn [lead_id source handle profile_url name bio followers location
       website phone email recent_post_snippet signal_keywords_matched
       score reason website_score website_verdict website_findings
       website_checked_at website_final_url website_http_status status
       notes tags last_seen_at created_at inserted_row seen_at
       p_source p_handle p_profile_url p_name p_bio p_followers p_location
       p_website p_phone p_email p_recent_post_snippet
       p_signal_keywords_matched p_score p_reason p_last_seen_at
       p_created_at].
  rewrite !coalesce_again. reflexivity.
Qed.

Lemma do_update_fresh (i i' now' : Z) (p : insert_params) :
  erase_last_seen
    (do_update (inserted_row i' (seen_at now' p)) (inserted_row i p))
  = erase_last_seen (inserted_row i p).
Proof.
  unfold erase_last_seen, do_update.
  cbn [lead_id source handle profile_url name bio followers location
       website phone email recent_post_snippet signal_keywords_matched
       score reason website_score website_verdict website_findings
       website_checked_at website_final_url website_http_status status
       notes tags last_seen_at created_at inserted_row seen_at
       p_source p_handle p_profile_url p_name p_bio p_followers p_location
       p_website p_phone p_email p_recent_post_snippet
       p_signal_keywords_matched p_score p_reason p_last_seen_at
       p_created_at].
  rewrite !coalesce_self. reflexivity.
Qed.

(** After a statement for [p], the row under its key is one that a
    second statement would only touch in its time. *)
Lemma find_after_upsert (p : insert_params) (t : table) :
  exists l1,
    find_lead (p_source p) (p_handle p) (sql_upsert p t) = Some l1
    /\ forall i' now',
         erase_last_seen (do_update (inserted_row i' (seen_at now' p)) l1)
         = erase_last_seen l1.
Proof.
  destruct (find_lead (p_source p) (p_handle p) t) as [old|] eqn:E.
  - exists (do_update (inserted_row (last_rowid t + 1) p) old).
    split; [apply sql_upsert_conflict, E|].
    intros i' now'. apply do_update_again.
  - exists (inserted_row (last_rowid t + 1) p).
    unfold find_lead in *. unfold sql_upsert.
    rewrite (update_where_none _ _ _ E). cbn [rows].
    rewrite (find_app_none _ _ _ E). cbn [List.find].
    change (same_key (p_source p) (p_handle p)
              (inserted_row (last_rowid t + 1) p))
      with (String.eqb (p_source p) (p_source p)
            && String.eqb (p_handle p) (p_handle p)).
    rewrite !String.eqb_refl. split; [reflexivity|].
    intros i' now'. apply do_update_fresh.
Qed.

Lemma update_where_first {B : Type} (E : lead -> B) (hit : lead -> bool)
  (g : lead -> lead) (l l2 : list lead) (x : lead) :
  update_where hit g l = Some l2 ->
  List.find hit l = Some x ->
  E (g x) = E x ->
  map E l2 = map E l.
Proof.
  revert l2. induction l as [|y l IH]; cbn [update_where List.find map];
    intros l2 Hup Hfind Hx; [discriminate|].
  destruct (hit y).
  - injection Hfind as ->. injection Hup as <-. cbn [map].
    rewrite Hx. reflexivity.
  - destruct (update_where hit g l) as [l0|]; [|discriminate].
    injection Hup as <-. cbn [map]. rewrite (IH l0); auto.
Qed.

Section WithLibrary.
Variable int_of_float_str : string -> option Z.

Ltac step_bind H :=
  match type of H with
  | Py.bind ?m _ = _ =>
      destruct m eqn:?; cbn [Py.bind] in H; [|discriminate H]
  end.

(** The time of the ingestion enters the parameters in two places. *)
Lemma row_params_now now now' source flag score_fn r p :
  row_params int_of_float_str now source flag score_fn r = Ok (Some p) ->
  row_params int_of_float_str now' source flag score_fn r
  = Ok (Some (seen_at now' p)).
Proof.
  unfold row_params. intros H.
  step_bind H; cbn [bind]. step_bind H; cbn [bind].
  destruct (PyStr.is_empty (PyStr.lstrip_chars "@" s)); [discriminate|].
  repeat (step_bind H; cbn [bind]).
  injection H as <-. reflexivity.
Qed.

End WithLibrary.

End AgainFacts.


